(** * Slot booking backend: capacity-safe booking, cancellation and overlap check

    A shallow embedding of the controllers of the booking backend
    (bookingController: [createBooking], [cancelBooking]; slotController:
    [checkOverlap], [createSlot], [updateSlot], [deleteSlot]), of the
    [authenticate] / [authorize] middleware and of the three Mongoose schemas
    ([User], [Slot], [Booking]), followed by the properties of the
    booking protocol.

    Modelling conventions.
    - A collection is the list of its documents in insertion order; [findOne]
      takes the first match.
    - An ObjectId is the string of its hexadecimal form, so [toString] on an
      id is the identity.
    - A [Number] that a request supplies (capacity) is any rational, in [Q]:
      neither the schema nor the handlers ask for an integer.  The counter
      bookedCount starts at 0 and only moves by [$inc] of 1 or -1, so it is
      an integer, in [Z], and enters comparisons with a capacity through
      [inject_Z].  The rounding of doubles is left out.  Instants ([Date])
      are milliseconds since the epoch, in [Z].
    - A transaction is a pair of stores: the committed one and the working
      copy seen through the session; abort returns the first, commit the
      second.  Requests run one after another.
    - [mongoose.Types.ObjectId.isValid] belongs to the driver; it is a
      variable of the development. *)

From Stdlib Require Import ZArith QArith Lqa List Ascii String Bool Lia.
Import ListNotations.

Local Open Scope string_scope.
Local Open Scope list_scope.
Local Open Scope Z_scope.

(** ** Documents *)

Definition ObjectId := string.

Inductive Role := ADMIN | CANDIDATE.

Inductive BookingStatus := BOOKED | CANCELLED.

(** models/User.js: the schema declares [name], [email] and [role]; Mongoose
    adds [_id]. *)
Record User := mkUser {
  user_id : ObjectId;
  name : string;
  email : string;
  role : Role
}.

(** models/Slot.js *)
Record Slot := mkSlot {
  slot_id : ObjectId;
  startTime : Z;
  endTime : Z;
  capacity : Q;
  bookedCount : Z;
  createdBy : ObjectId;
  tags : list string
}.

(** models/Booking.js *)
Record Booking := mkBooking {
  booking_id : ObjectId;
  slotId : ObjectId;
  candidateId : ObjectId;
  status : BookingStatus
}.

Record Store := mkStore {
  users : list User;
  slots : list Slot;
  bookings : list Booking
}.

Definition Role_eqb (a b : Role) : bool :=
  match a, b with
  | ADMIN, ADMIN | CANDIDATE, CANDIDATE => true
  | _, _ => false
  end.

Definition is_BOOKED (b : Booking) : bool :=
  match status b with BOOKED => true | CANCELLED => false end.

Definition is_CANCELLED (b : Booking) : bool :=
  match status b with BOOKED => false | CANCELLED => true end.

(** ** JavaScript values read off a document *)

Inductive JsVal :=
| JUndefined
| JStr (s : string).

(** [a !== b] on the two kinds of values that occur. *)
Definition js_strict_neq (a b : JsVal) : bool :=
  match a, b with
  | JUndefined, JUndefined => false
  | JStr x, JStr y => negb (x =? y)%string
  | _, _ => true
  end.

Definition role_name (r : Role) : string :=
  match r with ADMIN => "ADMIN" | CANDIDATE => "CANDIDATE" end.

(** Property access [user.prop] on a User document: the schema paths, [_id]
    and the [id] virtual are defined (timestamps and methods are left out);
    a name the schema does not declare reads [undefined]. *)
Definition User_get (u : User) (prop : string) : JsVal :=
  if (prop =? "_id")%string then JStr (user_id u)
  else if (prop =? "id")%string then JStr (user_id u)
  else if (prop =? "name")%string then JStr (name u)
  else if (prop =? "email")%string then JStr (email u)
  else if (prop =? "role")%string then JStr (role_name (role u))
  else JUndefined.

(** [x < y] on two numbers. *)
Definition Qlt_bool (x y : Q) : bool := negb (Qle_bool y x).

(** [capacity < n] when [capacity] may be [undefined]: the comparison with
    NaN is false. *)
Definition js_lt_undef (a : option Q) (n : Q) : bool :=
  match a with
  | Some x => Qlt_bool x n
  | None => false
  end.

(** Truthiness of an optional string argument ([null], [undefined] and the
    empty string are falsy). *)
Definition truthy (a : option string) : bool :=
  match a with
  | Some s => negb (s =? "")%string
  | None => false
  end.

(** ** Responses *)

Inductive Response :=
| Json (code : Z) (message : string)
| JsonSlot (code : Z) (doc : Slot).

(** The error kinds of the protocol, as the status and message the
    controllers send. *)
Definition InvalidIdentifier := Json 400 "Invalid ID format.".
Definition DuplicateBooking := Json 409 "Duplicate booking detected.".
Definition SlotFull := Json 409 "Slot capacity exceeded.".
Definition NotFound := Json 404 "Resource not found.".
Definition Forbidden := Json 403 "Access denied.".
Definition AlreadyCancelled := Json 400 "Invalid action.".
Definition Internal := Json 500 "Internal Server Error".
Definition CapacityConflict := Json 409 "Capacity conflict.".
Definition InvalidInterval := Json 400 "Invalid time range.".
Definition InvalidCapacity := Json 400 "Invalid capacity.".
Definition IntervalConflictOnCreate := Json 409 "Slot overlaps with an existing time.".
Definition IntervalConflictOnUpdate := Json 409 "Conflict detected.".
Definition HasActiveBookings := Json 409 "Deletion conflict.".
Definition Unauthenticated := Json 401 "Authentication failed.".
Definition BookedSuccessfully := Json 201 "Booked successfully".
Definition CancelledSuccessfully := Json 200 "Booking cancelled successfully.".
Definition DeletedSuccessfully := Json 200 "Slot deleted successfully".

(** ** Store operations *)

Inductive MongoError := E11000 | ValidationError | CastError.

(** [Model.findOneAndUpdate(filter, update, {new: true})]: the first
    document matching [filter] is replaced by its update; the result is the
    updated document, or [None] when nothing matches, and the collection. *)
Fixpoint findOneAndUpdate {A : Type} (filter : A -> bool) (update : A -> A)
    (l : list A) : option A * list A :=
  match l with
  | [] => (None, [])
  | x :: r =>
      if filter x then (Some (update x), update x :: r)
      else let (o, r') := findOneAndUpdate filter update r in (o, x :: r')
  end.

(** [Model.findByIdAndDelete]: the first matching document is removed. *)
Fixpoint deleteOne {A : Type} (filter : A -> bool) (l : list A) : list A :=
  match l with
  | [] => []
  | x :: r => if filter x then r else x :: deleteOne filter r
  end.

Definition has_slot_id (id : ObjectId) (s : Slot) : bool :=
  (slot_id s =? id)%string.

Definition has_booking_id (id : ObjectId) (b : Booking) : bool :=
  (booking_id b =? id)%string.

Definition Slot_findById (l : list Slot) (id : ObjectId) : option Slot :=
  find (has_slot_id id) l.

Definition Slot_exists (l : list Slot) (id : ObjectId) : bool :=
  existsb (has_slot_id id) l.

Definition Booking_findById (l : list Booking) (id : ObjectId) : option Booking :=
  find (has_booking_id id) l.

(** [Booking.findOne({ slotId, candidateId })] *)
Definition same_pair (sid cid : ObjectId) (b : Booking) : bool :=
  (slotId b =? sid)%string && (candidateId b =? cid)%string.

Definition Booking_findOne (l : list Booking) (sid cid : ObjectId) : option Booking :=
  find (same_pair sid cid) l.

(** [Booking.create]: the insert is refused with a duplicate-key error by
    the [_id] index and by the unique index on [(slotId, candidateId)]. *)
Definition Booking_create (l : list Booking) (doc : Booking) : MongoError + list Booking :=
  if existsb (has_booking_id (booking_id doc)) l then inl E11000
  else if existsb (same_pair (slotId doc) (candidateId doc)) l then inl E11000
  else inr (l ++ [doc]).

(** [booking.save()] on a loaded document: the stored document with the same
    [_id] is overwritten. *)
Definition Booking_save (l : list Booking) (doc : Booking) : list Booking :=
  snd (findOneAndUpdate (has_booking_id (booking_id doc)) (fun _ => doc) l).

(** Slot schema validation: [capacity] has [min: 1] and the pre-validate
    hook throws when [startTime >= endTime]. *)
Definition Slot_validate (s : Slot) : bool :=
  Qle_bool 1 (capacity s) && negb (endTime s <=? startTime s).

(** [slot.save()] on a new document. *)
Definition Slot_insert (l : list Slot) (doc : Slot) : MongoError + list Slot :=
  if negb (Slot_validate doc) then inl ValidationError
  else if existsb (has_slot_id (slot_id doc)) l then inl E11000
  else inr (l ++ [doc]).

(** [slot.save()] on a loaded document. *)
Definition Slot_save (l : list Slot) (doc : Slot) : MongoError + list Slot :=
  if negb (Slot_validate doc) then inl ValidationError
  else inr (snd (findOneAndUpdate (has_slot_id (slot_id doc)) (fun _ => doc) l)).

(** The two updates of the occupancy counter. *)
Definition inc_bookedCount (d : Z) (s : Slot) : Slot :=
  mkSlot (slot_id s) (startTime s) (endTime s) (capacity s)
         (bookedCount s + d) (createdBy s) (tags s).

(** Filter [{ _id: slotId, $expr: { $lt: ["$bookedCount", "$capacity"] } }]. *)
Definition has_room (id : ObjectId) (s : Slot) : bool :=
  has_slot_id id s && Qlt_bool (inject_Z (bookedCount s)) (capacity s).

Definition set_slots (st : Store) (l : list Slot) : Store :=
  mkStore (users st) l (bookings st).

Definition set_bookings (st : Store) (l : list Booking) : Store :=
  mkStore (users st) (slots st) l.

Definition set_status (b : Booking) (s : BookingStatus) : Booking :=
  mkBooking (booking_id b) (slotId b) (candidateId b) s.

(** ** Sessions *)

Record Session := mkSession {
  committed : Store;
  working : Store
}.

Definition startTransaction (st : Store) : Session := mkSession st st.
Definition abortTransaction (s : Session) : Store := committed s.
Definition commitTransaction (s : Session) : Store := working s.
Definition write (s : Session) (st : Store) : Session := mkSession (committed s) st.

(** ** Overlap checker (slotController) *)

(** The query of [checkOverlap]: owner, the three [$or] branches, and the
    [_id: { $ne: excludeSlotId }] clause added when [excludeSlotId] is
    truthy. *)
Definition overlapQuery (adminId : ObjectId) (startT endT : Z)
    (excludeSlotId : option ObjectId) (s : Slot) : bool :=
  (createdBy s =? adminId)%string
  && (   ((startTime s <? endT) && (startT <=? startTime s))
      || ((startT <? endTime s) && (endTime s <=? endT))
      || ((startTime s <=? startT) && (endT <=? endTime s)))
  && (if truthy excludeSlotId
      then match excludeSlotId with
           | Some ex => negb (slot_id s =? ex)%string
           | None => true
           end
      else true).

Definition checkOverlap (l : list Slot) (adminId : ObjectId) (startT endT : Z)
    (excludeSlotId : option ObjectId) : bool :=
  match find (overlapQuery adminId startT endT excludeSlotId) l with
  | Some _ => true
  | None => false
  end.

(** ** Request bodies *)

(** Body of POST /slots.  [startTime] and [endTime] are the instants that
    [new Date] parses; [capacity] and [tags] may be absent. *)
Record CreateSlotBody := mkCreateSlotBody {
  cs_startTime : Z;
  cs_endTime : Z;
  cs_capacity : option Q;
  cs_tags : option (list string)
}.

(** Body of PATCH /slots/:id; every field is optional. *)
Record UpdateSlotBody := mkUpdateSlotBody {
  us_startTime : option Z;
  us_endTime : option Z;
  us_capacity : option Q;
  us_tags : option (list string)
}.

Definition or_default {A : Type} (o : option A) (d : A) : A :=
  match o with Some x => x | None => d end.

Definition is_some {A : Type} (o : option A) : bool :=
  match o with Some _ => true | None => false end.

Section Controllers.

(** [mongoose.Types.ObjectId.isValid] *)
Variable isValid : string -> bool.

(** ** Middleware (middleware/auth.js) *)

Definition User_findById (l : list User) (id : ObjectId) : option User :=
  find (fun u => (user_id u =? id)%string) l.

(** [authenticate]: on success the User document itself becomes [req.user]. *)
Definition authenticate (st : Store) (x_user_id : option string) : Response + User :=
  match x_user_id with
  | None => inl Unauthenticated
  | Some userId =>
      if negb (truthy x_user_id) || negb (isValid userId) then inl Unauthenticated
      else match User_findById (users st) userId with
           | None => inl Unauthenticated
           | Some user => inr user
           end
  end.

Definition authorize (requiredRole : Role) (req_user : User) : Response + User :=
  if negb (Role_eqb (role req_user) requiredRole) then inl Forbidden
  else inr req_user.

(** ** bookingController *)

(** POST /bookings.  [newId] is the [_id] the driver gives the inserted
    Booking document. *)
Definition createBooking (st : Store) (req_user : User) (slotId : string)
    (newId : ObjectId) : Response * Store :=
  let session := startTransaction st in
  let candidateId := user_id req_user in
  if negb (isValid slotId) then (InvalidIdentifier, abortTransaction session)
  else
    let duplicate :=
      match Booking_findOne (bookings st) slotId candidateId with
      | Some existingBooking => is_BOOKED existingBooking
      | None => false
      end in
    if duplicate then (DuplicateBooking, abortTransaction session)
    else
      match findOneAndUpdate (has_room slotId) (inc_bookedCount 1)
              (slots (working session)) with
      | (None, _) =>
          let st' := abortTransaction session in
          if Slot_exists (slots st') slotId then (SlotFull, st')
          else (NotFound, st')
      | (Some updatedSlot, slots') =>
          let session := write session (set_slots (working session) slots') in
          match Booking_create (bookings (working session))
                  (mkBooking newId slotId candidateId BOOKED) with
          | inl E11000 => (DuplicateBooking, abortTransaction session)
          | inl _ => (Internal, abortTransaction session)
          | inr bookings' =>
              let session := write session (set_bookings (working session) bookings') in
              (BookedSuccessfully, commitTransaction session)
          end
      end.

(** The body of [cancelBooking] once [userId] has been read off the
    request. *)
Definition cancelBooking_as (userId : JsVal) (st : Store) (id : string)
    : Response * Store :=
  let session := startTransaction st in
  if negb (isValid id) then (InvalidIdentifier, abortTransaction session)
  else
    match Booking_findById (bookings (working session)) id with
    | None => (NotFound, abortTransaction session)
    | Some booking =>
        if js_strict_neq (JStr (candidateId booking)) userId
        then (Forbidden, abortTransaction session)
        else if is_CANCELLED booking
        then (AlreadyCancelled, abortTransaction session)
        else
          let booking := set_status booking CANCELLED in
          let session :=
            write session
              (set_bookings (working session)
                 (Booking_save (bookings (working session)) booking)) in
          let session :=
            write session
              (set_slots (working session)
                 (snd (findOneAndUpdate (has_slot_id (slotId booking))
                         (inc_bookedCount (-1)) (slots (working session))))) in
          (CancelledSuccessfully, commitTransaction session)
    end.

(** POST /bookings/:id/cancel: [const userId = req.user.userId]. *)
Definition cancelBooking (st : Store) (req_user : User) (id : string)
    : Response * Store :=
  cancelBooking_as (User_get req_user "userId") st id.

(** ** slotController *)

(** POST /slots.  [newId] is the [_id] of the new Slot document.  A missing
    [capacity] passes the test [capacity < 1] and is refused at save by the
    [required] validator, which the handler turns into a 500. *)
Definition createSlot (st : Store) (req_user : User) (body : CreateSlotBody)
    (newId : ObjectId) : Response * Store :=
  let adminId := user_id req_user in
  let start := cs_startTime body in
  let end_ := cs_endTime body in
  if end_ <=? start then (InvalidInterval, st)
  else if js_lt_undef (cs_capacity body) 1 then (InvalidCapacity, st)
  else if checkOverlap (slots st) adminId start end_ None
  then (IntervalConflictOnCreate, st)
  else
    match cs_capacity body with
    | None => (Internal, st)
    | Some capacity =>
        let slot := mkSlot newId start end_ capacity 0 adminId
                           (or_default (cs_tags body) []) in
        match Slot_insert (slots st) slot with
        | inl _ => (Internal, st)
        | inr slots' => (JsonSlot 201 slot, set_slots st slots')
        end
    end.

(** The time step of [updateSlot]: an early response, or the document with
    its interval replaced. *)
Definition updateSlot_times (st : Store) (adminId : ObjectId) (slotId : string)
    (body : UpdateSlotBody) (slot : Slot) : Response + Slot :=
  if is_some (us_startTime body) || is_some (us_endTime body) then
    let newStart := or_default (us_startTime body) (startTime slot) in
    let newEnd := or_default (us_endTime body) (endTime slot) in
    if newEnd <=? newStart then inl InvalidInterval
    else if checkOverlap (slots st) adminId newStart newEnd (Some slotId)
    then inl IntervalConflictOnUpdate
    else inr (mkSlot (slot_id slot) newStart newEnd (capacity slot)
                     (bookedCount slot) (createdBy slot) (tags slot))
  else inr slot.

(** The capacity step of [updateSlot]. *)
Definition updateSlot_capacity (body : UpdateSlotBody) (slot : Slot) : Response + Slot :=
  match us_capacity body with
  | Some capacity =>
      if Qlt_bool capacity (inject_Z (bookedCount slot)) then inl CapacityConflict
      else inr (mkSlot (slot_id slot) (startTime slot) (endTime slot) capacity
                       (bookedCount slot) (createdBy slot) (tags slot))
  | None => inr slot
  end.

Definition updateSlot_tags (body : UpdateSlotBody) (slot : Slot) : Slot :=
  match us_tags body with
  | Some t => mkSlot (slot_id slot) (startTime slot) (endTime slot) (capacity slot)
                     (bookedCount slot) (createdBy slot) t
  | None => slot
  end.

(** PATCH /slots/:id.  [Slot.findById] throws a cast error on an id that is
    not an ObjectId, which the handler turns into a 500. *)
Definition updateSlot (st : Store) (req_user : User) (slotId : string)
    (body : UpdateSlotBody) : Response * Store :=
  let adminId := user_id req_user in
  if negb (isValid slotId) then (Internal, st)
  else
    match Slot_findById (slots st) slotId with
    | None => (NotFound, st)
    | Some slot =>
        if negb (createdBy slot =? adminId)%string then (Forbidden, st)
        else
          match updateSlot_times st adminId slotId body slot with
          | inl res => (res, st)
          | inr slot =>
              match updateSlot_capacity body slot with
              | inl res => (res, st)
              | inr slot =>
                  let slot := updateSlot_tags body slot in
                  match Slot_save (slots st) slot with
                  | inl _ => (Internal, st)
                  | inr slots' => (JsonSlot 200 slot, set_slots st slots')
                  end
              end
          end
    end.

(** DELETE /slots/:id.  As in [updateSlot], [Slot.findById] throws on an id
    that is not an ObjectId. *)
Definition deleteSlot (st : Store) (req_user : User) (slotId : string)
    : Response * Store :=
  if negb (isValid slotId) then (Internal, st)
  else
    match Slot_findById (slots st) slotId with
    | None => (NotFound, st)
    | Some slot =>
        if negb (createdBy slot =? user_id req_user)%string then (Forbidden, st)
        else if 0 <? bookedCount slot then (HasActiveBookings, st)
        else (DeletedSuccessfully,
              set_slots st (deleteOne (has_slot_id slotId) (slots st)))
    end.

(** ** Routes (routes/bookingRoutes.js, routes/slotRoutes.js) *)

Definition guarded (st : Store) (x_user_id : option string) (requiredRole : Role)
    (handler : User -> Response * Store) : Response * Store :=
  match authenticate st x_user_id with
  | inl res => (res, st)
  | inr user =>
      match authorize requiredRole user with
      | inl res => (res, st)
      | inr user => handler user
      end
  end.

(** A request to one of the routes that write. *)
Inductive Request :=
| POST_slots (x_user_id : option string) (body : CreateSlotBody) (newId : ObjectId)
| PATCH_slots (x_user_id : option string) (id : string) (body : UpdateSlotBody)
| DELETE_slots (x_user_id : option string) (id : string)
| POST_bookings (x_user_id : option string) (slotId : string) (newId : ObjectId)
| POST_bookings_cancel (x_user_id : option string) (id : string).

Definition handle (st : Store) (r : Request) : Response * Store :=
  match r with
  | POST_slots h body newId =>
      guarded st h ADMIN (fun u => createSlot st u body newId)
  | PATCH_slots h id body =>
      guarded st h ADMIN (fun u => updateSlot st u id body)
  | DELETE_slots h id =>
      guarded st h ADMIN (fun u => deleteSlot st u id)
  | POST_bookings h slotId newId =>
      guarded st h CANDIDATE (fun u => createBooking st u slotId newId)
  | POST_bookings_cancel h id =>
      guarded st h CANDIDATE (fun u => cancelBooking st u id)
  end.

(** The store after a sequence of requests. *)
Fixpoint run (st : Store) (rs : list Request) : Store :=
  match rs with
  | [] => st
  | r :: rs' => run (snd (handle st r)) rs'
  end.

End Controllers.

(** ** Store invariant *)

Definition counts_for (sid : ObjectId) (b : Booking) : bool :=
  (slotId b =? sid)%string && is_BOOKED b.

(** Number of reservations on slot [sid] whose status is BOOKED. *)
Definition activeCount (l : list Booking) (sid : ObjectId) : Z :=
  Z.of_nat (List.length (filter (counts_for sid) l)).

Definition pair_key (b : Booking) : ObjectId * ObjectId :=
  (slotId b, candidateId b).

Record Inv (isValid : string -> bool) (st : Store) : Prop := mkInv {
  inv_slot_ids : NoDup (map slot_id (slots st));
  inv_booking_ids : NoDup (map booking_id (bookings st));
  inv_pairs : NoDup (map pair_key (bookings st));
  inv_count :
    Forall (fun s => bookedCount s = activeCount (bookings st) (slot_id s)) (slots st);
  inv_capacity :
    Forall (fun s => (inject_Z (bookedCount s) < capacity s + 1)%Q) (slots st);
  inv_valid : Forall (fun s => Slot_validate s = true) (slots st);
  inv_ref :
    Forall (fun b => is_BOOKED b = true -> In (slotId b) (map slot_id (slots st)))
           (bookings st);
  inv_ref_valid : Forall (fun b => isValid (slotId b) = true) (bookings st)
}.

(** Stores that the write handlers can produce from a store without slots and
    reservations.  The cancel step is taken for any value of [userId]. *)
Inductive reachable (isValid : string -> bool) : Store -> Prop :=
| reach_init us : reachable isValid (mkStore us [] [])
| reach_createSlot st u body newId :
    reachable isValid st -> reachable isValid (snd (createSlot st u body newId))
| reach_updateSlot st u id body :
    reachable isValid st -> reachable isValid (snd (updateSlot isValid st u id body))
| reach_deleteSlot st u id :
    reachable isValid st -> reachable isValid (snd (deleteSlot isValid st u id))
| reach_createBooking st u slotId newId :
    reachable isValid st -> reachable isValid (snd (createBooking isValid st u slotId newId))
| reach_cancelBooking st userId id :
    reachable isValid st -> reachable isValid (snd (cancelBooking_as isValid userId st id)).

(** The occupancy counter of every slot equals the number of its BOOKED
    reservations. *)
Definition counter_consistent (st : Store) : Prop :=
  Forall (fun s => bookedCount s = activeCount (bookings st) (slot_id s)) (slots st).

(** The occupancy counter of every slot lies between 0 and the capacity. *)
Definition within_capacity (st : Store) : Prop :=
  Forall (fun s => 0 <= bookedCount s /\ (inject_Z (bookedCount s) <= capacity s)%Q)
    (slots st).

(** A capacity that is a whole number. *)
Definition integral (q : Q) : Prop := exists n : Z, (q == inject_Z n)%Q.

(** The occupancy counter of every slot is at least 0 and exceeds the
    capacity by less than one seat: the last booking was taken while the
    counter was still below the capacity. *)
Definition within_next_seat (st : Store) : Prop :=
  Forall (fun s => 0 <= bookedCount s /\ (inject_Z (bookedCount s) < capacity s + 1)%Q)
    (slots st).

(** Book requests for one slot served one after another: the responses in
    order, and the final store. *)
Fixpoint book_in_turn (isValid : string -> bool) (st : Store) (sid : string)
    (reqs : list (User * ObjectId)) : list Response * Store :=
  match reqs with
  | [] => ([], st)
  | (u, newId) :: rest =>
      let (res, st') := createBooking isValid st u sid newId in
      let (ress, st'') := book_in_turn isValid st' sid rest in
      (res :: ress, st'')
  end.

(** ** A sample deployment

    One admin, three candidates, and a check of ObjectId strings that
    accepts the 24-digit hexadecimal form. *)

Definition is_hex_digit (c : Ascii.ascii) : bool :=
  let n := Ascii.N_of_ascii c in
  ((48 <=? n) && (n <=? 57) || (97 <=? n) && (n <=? 102) || (65 <=? n) && (n <=? 70))%N.

Definition hex24 (s : string) : bool :=
  (String.length s =? 24)%nat && forallb is_hex_digit (list_ascii_of_string s).

Definition alice_id : ObjectId := "65a1f0000000000000000a01".
Definition bob_id : ObjectId := "65a1f0000000000000000b02".
Definition carol_id : ObjectId := "65a1f0000000000000000c03".
Definition dave_id : ObjectId := "65a1f0000000000000000d04".
Definition slot1_id : ObjectId := "65b2e00000000000000000f1".
Definition slot2_id : ObjectId := "65b2e00000000000000000f2".
Definition booking1_id : ObjectId := "65c3d00000000000000000e1".
Definition booking2_id : ObjectId := "65c3d00000000000000000e2".
Definition booking3_id : ObjectId := "65c3d00000000000000000e3".
Definition booking4_id : ObjectId := "65c3d00000000000000000e4".

Definition alice := mkUser alice_id "Alice" "alice@example.com" ADMIN.
Definition bob := mkUser bob_id "Bob" "bob@example.com" CANDIDATE.
Definition carol := mkUser carol_id "Carol" "carol@example.com" CANDIDATE.
Definition dave := mkUser dave_id "Dave" "dave@example.com" CANDIDATE.

(** An instant of the sample day, in milliseconds. *)
Definition at_ (h m : Z) : Z := (h * 60 + m) * 60000.

Definition empty_store : Store := mkStore [alice; bob; carol; dave] [] [].

(** Alice opens a slot 10:00-11:00 with [capacity] seats. *)
Definition open_slot (capacity : Q) : Request :=
  POST_slots (Some alice_id)
    (mkCreateSlotBody (at_ 10 0) (at_ 11 0) (Some capacity) None) slot1_id.

(** A slot with five seats, three of them taken. *)
Definition store_5_3 : Store :=
  run hex24 empty_store
    [open_slot 5;
     POST_bookings (Some bob_id) slot1_id booking1_id;
     POST_bookings (Some carol_id) slot1_id booking2_id;
     POST_bookings (Some dave_id) slot1_id booking3_id].

(** A slot with two seats, one taken by Bob. *)
Definition store_2_1 : Store :=
  run hex24 empty_store
    [open_slot 2; POST_bookings (Some bob_id) slot1_id booking1_id].

(** A slot with one seat, taken by Bob. *)
Definition store_1_1 : Store :=
  run hex24 empty_store
    [open_slot 1; POST_bookings (Some bob_id) slot1_id booking1_id].

(** The store [store_2_1] once Bob's reservation has been cancelled by a
    request whose [userId] is Bob's id. *)
Definition store_2_0_cancelled : Store :=
  snd (cancelBooking_as hex24 (JStr bob_id) store_2_1 booking1_id).

(** An untouched slot with five seats. *)
Definition store_5_0 : Store := run hex24 empty_store [open_slot 5].

(** A slot opened with capacity 1.5, booked by Bob and then by Carol. *)
Definition store_3half_2 : Store :=
  run hex24 empty_store
    [open_slot (3 # 2);
     POST_bookings (Some bob_id) slot1_id booking1_id;
     POST_bookings (Some carol_id) slot1_id booking2_id].

(** The stored interval 10:00-11:00 of the overlap examples. *)
Definition slot_10_11 : Slot :=
  mkSlot slot1_id (at_ 10 0) (at_ 11 0) 1 0 alice_id [].

(** ** Reading one slot (slotController) *)

(** [x || 0] on a number: 0 is the only falsy integer. *)
Definition js_or_zero (x : Z) : Z := if x =? 0 then 0 else x.

(** The lean document of GET /slots/:id with its derived field. *)
Record SlotView := mkSlotView {
  view_doc : Slot;
  availableSeats : Q
}.

Definition SlotNotFound := Json 404 "Slot not found".

(** GET /slots/:id *)
Definition getSlotById (isValid : string -> bool) (st : Store) (id : string)
    : Response + SlotView :=
  if negb (isValid id) then inl InvalidIdentifier
  else
    match Slot_findById (slots st) id with
    | None => inl SlotNotFound
    | Some slot =>
        inr (mkSlotView slot (capacity slot - inject_Z (js_or_zero (bookedCount slot))))
    end.

(** ** Steps of the store *)

(** One handler call; the cancel step is taken for any value of [userId]. *)
Inductive transition (isValid : string -> bool) : Store -> Store -> Prop :=
| tr_createSlot st u body newId :
    transition isValid st (snd (createSlot st u body newId))
| tr_updateSlot st u id body :
    transition isValid st (snd (updateSlot isValid st u id body))
| tr_deleteSlot st u id :
    transition isValid st (snd (deleteSlot isValid st u id))
| tr_createBooking st u slotId newId :
    transition isValid st (snd (createBooking isValid st u slotId newId))
| tr_cancelBooking st userId id :
    transition isValid st (snd (cancelBooking_as isValid userId st id)).

(** Any number of handler calls. *)
Inductive reaches (isValid : string -> bool) : Store -> Store -> Prop :=
| reaches_refl st : reaches isValid st st
| reaches_step st st' st'' :
    reaches isValid st st' -> transition isValid st' st'' -> reaches isValid st st''.

(** Two slots that share no instant. *)
Definition disjoint_slots (a b : Slot) : Prop :=
  endTime a <= startTime b \/ endTime b <= startTime a.

(** No two slots of one owner share an instant. *)
Definition owners_slots_disjoint (l : list Slot) : Prop :=
  forall a b, In a l -> In b l -> slot_id a <> slot_id b ->
              createdBy a = createdBy b -> disjoint_slots a b.

(** What the interval checks look at in a slot. *)
Definition footprint (s : Slot) : ObjectId * ObjectId * Z * Z :=
  (slot_id s, createdBy s, startTime s, endTime s).

(** Everything in a slot but its occupancy counter. *)
Definition slot_terms (s : Slot)
    : ObjectId * Z * Z * Q * ObjectId * list string :=
  (slot_id s, startTime s, endTime s, capacity s, createdBy s, tags s).

(** The [x-user-id] header of a request and the role its route asks for. *)
Definition request_header (r : Request) : option string :=
  match r with
  | POST_slots h _ _ | PATCH_slots h _ _ | DELETE_slots h _
  | POST_bookings h _ _ | POST_bookings_cancel h _ => h
  end.

Definition required_role (r : Request) : Role :=
  match r with
  | POST_slots _ _ _ | PATCH_slots _ _ _ | DELETE_slots _ _ => ADMIN
  | POST_bookings _ _ _ | POST_bookings_cancel _ _ => CANDIDATE
  end.

(** Alice's second slot, 11:00-12:00, right after the first. *)
Definition open_second_slot : Request :=
  POST_slots (Some alice_id)
    (mkCreateSlotBody (at_ 11 0) (at_ 12 0) (Some 3%Q) None) slot2_id.

Definition store_two_slots : Store :=
  run hex24 empty_store
    [open_slot 2; open_second_slot;
     POST_bookings (Some bob_id) slot1_id booking1_id].

(** ** Regular expressions

    The fragment that [emailRegex] needs, matched by derivatives.  A string
    is the sequence of its code units, here below 256; [\S] is every code
    unit outside the white space of the language (tab, line feed, vertical
    tab, form feed, carriage return, space, no-break space). *)

Inductive Regex :=
| ReNever
| ReEmpty
| ReLit (c : Ascii.ascii)
| ReNonSpace
| ReCat (r1 r2 : Regex)
| ReAlt (r1 r2 : Regex)
| ReStar (r : Regex).

(** [r+] *)
Definition RePlus (r : Regex) : Regex := ReCat r (ReStar r).

Definition is_space (c : Ascii.ascii) : bool :=
  let n := Ascii.N_of_ascii c in
  ((9 <=? n) && (n <=? 13) || (n =? 32) || (n =? 160))%N.

Fixpoint nullable (r : Regex) : bool :=
  match r with
  | ReNever => false
  | ReEmpty => true
  | ReLit _ => false
  | ReNonSpace => false
  | ReCat r1 r2 => nullable r1 && nullable r2
  | ReAlt r1 r2 => nullable r1 || nullable r2
  | ReStar _ => true
  end.

Fixpoint derive (c : Ascii.ascii) (r : Regex) : Regex :=
  match r with
  | ReNever => ReNever
  | ReEmpty => ReNever
  | ReLit d => if Ascii.eqb c d then ReEmpty else ReNever
  | ReNonSpace => if is_space c then ReNever else ReEmpty
  | ReCat r1 r2 =>
      if nullable r1
      then ReAlt (ReCat (derive c r1) r2) (derive c r2)
      else ReCat (derive c r1) r2
  | ReAlt r1 r2 => ReAlt (derive c r1) (derive c r2)
  | ReStar r1 => ReCat (derive c r1) (ReStar r1)
  end.

(** Whether the whole string matches, as for a pattern between [^] and [$]. *)
Fixpoint matches (r : Regex) (s : string) : bool :=
  match s with
  | EmptyString => nullable r
  | String c s' => matches (derive c r) s'
  end.

(** The language of a pattern. *)
Inductive star (P : string -> Prop) : string -> Prop :=
| star_nil : star P EmptyString
| star_app s1 s2 : P s1 -> star P s2 -> star P (s1 ++ s2)%string.

Fixpoint language (r : Regex) (s : string) : Prop :=
  match r with
  | ReNever => False
  | ReEmpty => s = EmptyString
  | ReLit c => s = String c EmptyString
  | ReNonSpace => exists c, s = String c EmptyString /\ is_space c = false
  | ReCat r1 r2 => exists s1 s2, s = (s1 ++ s2)%string /\ language r1 s1 /\ language r2 s2
  | ReAlt r1 r2 => language r1 s \/ language r2 s
  | ReStar r1 => star (language r1) s
  end.

(** A non-empty string without white space. *)
Definition non_blank (s : string) : Prop :=
  s <> EmptyString /\ Forall (fun c => is_space c = false) (list_ascii_of_string s).

(** ** userController *)

(** [/^\S+@\S+\.\S+$/] *)
Definition emailRegex : Regex :=
  ReCat (RePlus ReNonSpace)
    (ReCat (ReLit "@"%char)
       (ReCat (RePlus ReNonSpace)
          (ReCat (ReLit "."%char) (RePlus ReNonSpace)))).

Definition emailRegex_test (email : string) : bool := matches emailRegex email.

(** Body of POST /users; each field is a string or absent. *)
Record CreateUserBody := mkCreateUserBody {
  cu_name : option string;
  cu_email : option string;
  cu_role : option string
}.

Inductive UserResponse :=
| UJson (code : Z) (message : string)
| UJsonUser (code : Z) (doc : User).

(** [validRoles.includes(role)], with the role it names. *)
Definition valid_role (r : string) : option Role :=
  if (r =? "ADMIN")%string then Some ADMIN
  else if (r =? "CANDIDATE")%string then Some CANDIDATE
  else None.

Definition has_email (e : string) (u : User) : bool := (email u =? e)%string.

Definition has_user_id (id : ObjectId) (u : User) : bool := (user_id u =? id)%string.

(** [User.findOne({ email })] *)
Definition User_findOne_email (l : list User) (e : string) : option User :=
  find (has_email e) l.

(** User schema validation: [name] and [email] are required, [email] has
    to match the pattern (the role is one of the enum by its type). *)
Definition User_validate (u : User) : bool :=
  truthy (Some (name u)) && truthy (Some (email u)) && emailRegex_test (email u).

(** [newUser.save()]: validation, then the [_id] index and the unique index
    on [email]. *)
Definition User_insert (l : list User) (doc : User) : MongoError + list User :=
  if negb (User_validate doc) then inl ValidationError
  else if existsb (has_user_id (user_id doc)) l then inl E11000
  else if existsb (has_email (email doc)) l then inl E11000
  else inr (l ++ [doc]).

Definition set_users (st : Store) (l : list User) : Store :=
  mkStore l (slots st) (bookings st).

(** POST /users.  [newId] is the [_id] of the new User document. *)
Definition createUser (st : Store) (body : CreateUserBody) (newId : ObjectId)
    : UserResponse * Store :=
  if negb (truthy (cu_name body)) || negb (truthy (cu_email body))
     || negb (truthy (cu_role body))
  then (UJson 400 "Validation Error", st)
  else
    match cu_name body, cu_email body, cu_role body with
    | Some name, Some email, Some role =>
        match valid_role role with
        | None => (UJson 400 "Invalid role.", st)
        | Some role =>
            if negb (emailRegex_test email)
            then (UJson 400 "Invalid email format.", st)
            else
              match User_findOne_email (users st) email with
              | Some existingUser => (UJson 409 "User registration failed.", st)
              | None =>
                  let newUser := mkUser newId name email role in
                  match User_insert (users st) newUser with
                  | inl E11000 => (UJson 409 "User registration failed.", st)
                  | inl _ => (UJson 500 "Internal Server Error", st)
                  | inr users' => (UJsonUser 201 newUser, set_users st users')
                  end
              end
        end
    | _, _, _ => (UJson 400 "Validation Error", st)
    end.

(** Registrations served one after another. *)
Fixpoint register (st : Store) (reqs : list (CreateUserBody * ObjectId)) : Store :=
  match reqs with
  | [] => st
  | (body, newId) :: rest => register (snd (createUser st body newId)) rest
  end.

(** ** Comparisons of numbers *)

Lemma Qlt_bool_true (x y : Q) : Qlt_bool x y = true <-> (x < y)%Q.
Proof.
  unfold Qlt_bool. rewrite negb_true_iff. split.
  - intros H. apply Qnot_le_lt. intros Hle.
    apply Qle_bool_iff in Hle. congruence.
  - intros H. destruct (Qle_bool y x) eqn:E; [|reflexivity].
    apply Qle_bool_iff in E. exfalso. exact (Qlt_not_le _ _ H E).
Qed.

Lemma Qlt_bool_false (x y : Q) : Qlt_bool x y = false <-> (y <= x)%Q.
Proof.
  unfold Qlt_bool. rewrite negb_false_iff. apply Qle_bool_iff.
Qed.

Lemma Qle_bool_false (x y : Q) : Qle_bool x y = false <-> (y < x)%Q.
Proof.
  rewrite <- (Qlt_bool_true y x). unfold Qlt_bool.
  destruct (Qle_bool x y); simpl; split; congruence.
Qed.

Lemma inject_Z_succ (n : Z) : inject_Z (n + 1) = (inject_Z n + 1)%Q.
Proof. apply inject_Z_plus. Qed.

Lemma inject_Z_pred (n : Z) : inject_Z (n - 1) = (inject_Z n - 1)%Q.
Proof. unfold Z.sub. rewrite inject_Z_plus. reflexivity. Qed.

Lemma inject_Z_le (n m : Z) : n <= m <-> (inject_Z n <= inject_Z m)%Q.
Proof. rewrite Zle_Qle. reflexivity. Qed.

Lemma inject_Z_lt (n m : Z) : n < m <-> (inject_Z n < inject_Z m)%Q.
Proof. rewrite Zlt_Qlt. reflexivity. Qed.

(** A counter below [c + 1] is at most [c] when [c] is a whole number. *)
Lemma below_next_integral (n : Z) (c : Q) :
  (inject_Z n < c + 1)%Q -> integral c -> (inject_Z n <= c)%Q.
Proof.
  intros H [m Hm]. rewrite Hm in H |- *.
  rewrite <- inject_Z_succ in H. apply (proj2 (inject_Z_lt _ _)) in H.
  apply (proj1 (inject_Z_le _ _)). lia.
Qed.

(** ** First match in a collection *)

Section FirstMatch.

Context {A : Type} (p : A -> bool).

Lemma first_split (l : list A) :
  Forall (fun x => p x = false) l \/
  exists l1 x l2,
    l = l1 ++ x :: l2 /\ p x = true /\ Forall (fun y => p y = false) l1.
Proof.
  induction l as [|a l IH].
  - left. constructor.
  - destruct (p a) eqn:Ha.
    + right. exists [], a, l. repeat split; auto.
    + destruct IH as [IH | (l1 & x & l2 & -> & Hx & Hl1)].
      * left. constructor; assumption.
      * right. exists (a :: l1), x, l2. repeat split; auto.
Qed.

Lemma find_all_false (l : list A) :
  Forall (fun x => p x = false) l -> find p l = None.
Proof.
  induction 1 as [|a l Ha _ IH]; simpl; [reflexivity|].
  rewrite Ha. exact IH.
Qed.

Lemma find_first (l1 : list A) (x : A) (l2 : list A) :
  p x = true -> Forall (fun y => p y = false) l1 ->
  find p (l1 ++ x :: l2) = Some x.
Proof.
  intros Hx H. induction H as [|a l Ha _ IH]; simpl.
  - rewrite Hx. reflexivity.
  - rewrite Ha. exact IH.
Qed.

Lemma existsb_all_false (l : list A) :
  Forall (fun x => p x = false) l -> existsb p l = false.
Proof.
  induction 1 as [|a l Ha _ IH]; simpl; [reflexivity|].
  rewrite Ha. exact IH.
Qed.

Lemma existsb_false_all (l : list A) :
  existsb p l = false -> Forall (fun x => p x = false) l.
Proof.
  induction l as [|a l IH]; simpl; intros H; constructor.
  - apply orb_false_iff in H. tauto.
  - apply IH. apply orb_false_iff in H. tauto.
Qed.

Lemma existsb_first (l1 : list A) (x : A) (l2 : list A) :
  p x = true -> existsb p (l1 ++ x :: l2) = true.
Proof.
  intros Hx. rewrite existsb_app. simpl. rewrite Hx.
  rewrite orb_true_r. reflexivity.
Qed.

Lemma fou_all_false (f : A -> A) (l : list A) :
  Forall (fun x => p x = false) l -> findOneAndUpdate p f l = (None, l).
Proof.
  induction 1 as [|a l Ha _ IH]; simpl; [reflexivity|].
  rewrite Ha, IH. reflexivity.
Qed.

Lemma fou_first (f : A -> A) (l1 : list A) (x : A) (l2 : list A) :
  p x = true -> Forall (fun y => p y = false) l1 ->
  findOneAndUpdate p f (l1 ++ x :: l2) = (Some (f x), l1 ++ f x :: l2).
Proof.
  intros Hx H. induction H as [|a l Ha _ IH]; simpl.
  - rewrite Hx. reflexivity.
  - rewrite Ha, IH. reflexivity.
Qed.

Lemma deleteOne_all_false (l : list A) :
  Forall (fun x => p x = false) l -> deleteOne p l = l.
Proof.
  induction 1 as [|a l Ha _ IH]; simpl; [reflexivity|].
  rewrite Ha, IH. reflexivity.
Qed.

Lemma deleteOne_first (l1 : list A) (x : A) (l2 : list A) :
  p x = true -> Forall (fun y => p y = false) l1 ->
  deleteOne p (l1 ++ x :: l2) = l1 ++ l2.
Proof.
  intros Hx H. induction H as [|a l Ha _ IH]; simpl.
  - rewrite Hx. reflexivity.
  - rewrite Ha, IH. reflexivity.
Qed.

End FirstMatch.

(** A key that occurs once splits the collection around its document. *)
Lemma NoDup_key_split {A K : Type} (key : A -> K) (l1 : list A) (x : A) (l2 : list A) :
  NoDup (map key (l1 ++ x :: l2)) ->
  Forall (fun y => key y <> key x) l1 /\ Forall (fun y => key y <> key x) l2.
Proof.
  rewrite map_app. simpl. intros H.
  apply NoDup_remove_2 in H.
  split; apply Forall_forall; intros y Hy E; apply H; apply in_or_app;
    [left | right]; rewrite <- E; apply in_map; exact Hy.
Qed.

Lemma NoDup_map_eq {A K : Type} (key : A -> K) (l : list A) (a b : A) :
  NoDup (map key l) -> In a l -> In b l -> key a = key b -> a = b.
Proof.
  induction l as [|x l IH]; intros Hnd Ha Hb E; [contradiction|].
  cbn [map] in Hnd. inversion Hnd as [|? ? Hx Hl]; subst.
  destruct Ha as [<- | Ha], Hb as [<- | Hb]; auto.
  - exfalso. apply Hx. rewrite E. apply in_map. exact Hb.
  - exfalso. apply Hx. rewrite <- E. apply in_map. exact Ha.
Qed.

Lemma has_slot_id_true (id : ObjectId) (s : Slot) :
  has_slot_id id s = true <-> slot_id s = id.
Proof. unfold has_slot_id. apply String.eqb_eq. Qed.

Lemma has_slot_id_false (id : ObjectId) (s : Slot) :
  has_slot_id id s = false <-> slot_id s <> id.
Proof. unfold has_slot_id. apply String.eqb_neq. Qed.

Lemma has_booking_id_true (id : ObjectId) (b : Booking) :
  has_booking_id id b = true <-> booking_id b = id.
Proof. unfold has_booking_id. apply String.eqb_eq. Qed.

Lemma has_booking_id_false (id : ObjectId) (b : Booking) :
  has_booking_id id b = false <-> booking_id b <> id.
Proof. unfold has_booking_id. apply String.eqb_neq. Qed.

Lemma same_pair_true (sid cid : ObjectId) (b : Booking) :
  same_pair sid cid b = true <-> pair_key b = (sid, cid).
Proof.
  unfold same_pair, pair_key. rewrite andb_true_iff, !String.eqb_eq.
  split; [intros [-> ->]; reflexivity | intros H; inversion H; auto].
Qed.

Lemma same_pair_false (sid cid : ObjectId) (b : Booking) :
  same_pair sid cid b = false <-> pair_key b <> (sid, cid).
Proof.
  rewrite <- same_pair_true. destruct (same_pair sid cid b); split; congruence.
Qed.

(** A filter by key finds nothing exactly when the key is absent. *)
Lemma all_false_not_in {A K : Type} (key : A -> K) (p : A -> bool) (k : K) (l : list A) :
  (forall x, p x = false <-> key x <> k) ->
  Forall (fun x => p x = false) l <-> ~ In k (map key l).
Proof.
  intros Hp. rewrite Forall_forall, in_map_iff. split.
  - intros H (x & E & Hx). apply (proj1 (Hp x) (H x Hx)). exact E.
  - intros H x Hx. apply Hp. intros E. apply H. exists x. auto.
Qed.

(** ** Counting active reservations *)

Lemma activeCount_app (l1 l2 : list Booking) (sid : ObjectId) :
  activeCount (l1 ++ l2) sid = activeCount l1 sid + activeCount l2 sid.
Proof.
  unfold activeCount. rewrite filter_app, length_app, Nat2Z.inj_add. reflexivity.
Qed.

Lemma activeCount_cons (b : Booking) (l : list Booking) (sid : ObjectId) :
  activeCount (b :: l) sid = (if counts_for sid b then 1 else 0) + activeCount l sid.
Proof.
  unfold activeCount. cbn [filter]. destruct (counts_for sid b); cbn [List.length]; lia.
Qed.

Lemma activeCount_nil (sid : ObjectId) : activeCount [] sid = 0.
Proof. reflexivity. Qed.

Lemma activeCount_nonneg (l : list Booking) (sid : ObjectId) : 0 <= activeCount l sid.
Proof. unfold activeCount. lia. Qed.

Lemma activeCount_zero (l : list Booking) (sid : ObjectId) :
  Forall (fun b => is_BOOKED b = true -> slotId b <> sid) l ->
  activeCount l sid = 0.
Proof.
  induction 1 as [|b l Hb _ IH]; [reflexivity|].
  rewrite activeCount_cons, IH. unfold counts_for.
  destruct (slotId b =? sid)%string eqn:E; simpl; [|reflexivity].
  destruct (is_BOOKED b); [|reflexivity].
  apply String.eqb_eq in E. exfalso. apply Hb; auto.
Qed.

Lemma activeCount_pos (l : list Booking) (b : Booking) :
  In b l -> is_BOOKED b = true -> 1 <= activeCount l (slotId b).
Proof.
  intros Hin Hb. apply in_split in Hin. destruct Hin as (l1 & l2 & ->).
  rewrite activeCount_app, activeCount_cons. unfold counts_for at 1.
  rewrite String.eqb_refl, Hb. cbn [andb].
  pose proof (activeCount_nonneg l1 (slotId b)).
  pose proof (activeCount_nonneg l2 (slotId b)). lia.
Qed.

Lemma counts_for_set_status_CANCELLED (sid : ObjectId) (b : Booking) :
  counts_for sid (set_status b CANCELLED) = false.
Proof. unfold counts_for, is_BOOKED. simpl. apply andb_false_r. Qed.

(** ** What each handler does to the store *)

Ltac unchanged :=
  let E := fresh in
  intros E; injection E as <- <-; left; split; [cbn; discriminate | reflexivity].

Section Outcomes.

Variable isValid : string -> bool.

(** A booking either fails and leaves the store as it was, or bumps the
    counter of the first slot with room and appends one BOOKED reservation. *)
Lemma createBooking_cases (st : Store) (u : User) (sid : string) (newId : ObjectId) :
  (fst (createBooking isValid st u sid newId) <> BookedSuccessfully /\
   snd (createBooking isValid st u sid newId) = st)
  \/
  (exists l1 s l2,
     isValid sid = true /\
     slots st = l1 ++ s :: l2 /\ has_room sid s = true /\
     Forall (fun y => has_room sid y = false) l1 /\
     Forall (fun b => has_booking_id newId b = false) (bookings st) /\
     Forall (fun b => same_pair sid (user_id u) b = false) (bookings st) /\
     createBooking isValid st u sid newId =
       (BookedSuccessfully,
        mkStore (users st) (l1 ++ inc_bookedCount 1 s :: l2)
                (bookings st ++ [mkBooking newId sid (user_id u) BOOKED]))).
Proof.
  destruct (createBooking isValid st u sid newId) as [res st'] eqn:E.
  cbn [fst snd]. revert E. unfold createBooking.
  destruct (isValid sid) eqn:Hv; simpl negb; cbv iota; [|unchanged].
  destruct (match Booking_findOne (bookings st) sid (user_id u) with
            | Some existingBooking => is_BOOKED existingBooking
            | None => false
            end); [unchanged|].
  unfold startTransaction, abortTransaction, commitTransaction, write.
  cbn [working committed].
  destruct (first_split (has_room sid) (slots st)) as [Hnone | (l1 & s & l2 & Hs & Hp & Hl1)].
  - rewrite (fou_all_false _ _ _ Hnone).
    destruct (Slot_exists (slots st) sid); unchanged.
  - rewrite Hs at 1. rewrite (fou_first _ _ _ _ _ Hp Hl1).
    unfold Booking_create, set_slots, set_bookings.
    cbn [booking_id slotId candidateId bookings slots users].
    destruct (existsb (has_booking_id newId) (bookings st)) eqn:E1; [unchanged|].
    destruct (existsb (same_pair sid (user_id u)) (bookings st)) eqn:E2; [unchanged|].
    intros E. injection E as <- <-.
    right. exists l1, s, l2.
    repeat split; auto using existsb_false_all.
Qed.

(** A cancellation either fails and leaves the store as it was, or flips
    the reservation it names from BOOKED to CANCELLED and applies the
    decrement to the first slot with the reservation's slot id. *)
Lemma cancelBooking_as_cases (userId : JsVal) (st : Store) (id : string) :
  (fst (cancelBooking_as isValid userId st id) <> CancelledSuccessfully /\
   snd (cancelBooking_as isValid userId st id) = st)
  \/
  (exists l1 b l2,
     isValid id = true /\
     bookings st = l1 ++ b :: l2 /\ booking_id b = id /\
     Forall (fun y => has_booking_id id y = false) l1 /\
     status b = BOOKED /\ userId = JStr (candidateId b) /\
     cancelBooking_as isValid userId st id =
       (CancelledSuccessfully,
        mkStore (users st)
          (snd (findOneAndUpdate (has_slot_id (slotId b)) (inc_bookedCount (-1))
                  (slots st)))
          (l1 ++ set_status b CANCELLED :: l2))).
Proof.
  destruct (cancelBooking_as isValid userId st id) as [res st'] eqn:E.
  cbn [fst snd]. revert E. unfold cancelBooking_as.
  destruct (isValid id) eqn:Hv; simpl negb; cbv iota; [|unchanged].
  unfold startTransaction, abortTransaction, commitTransaction, write.
  cbn [working committed]. unfold Booking_findById.
  destruct (first_split (has_booking_id id) (bookings st))
    as [Hnone | (l1 & b & l2 & Hs & Hp & Hl1)].
  - rewrite (find_all_false _ _ Hnone). unchanged.
  - rewrite Hs at 1. rewrite (find_first _ _ _ _ Hp Hl1).
    destruct (js_strict_neq (JStr (candidateId b)) userId) eqn:Hown; [unchanged|].
    destruct (is_CANCELLED b) eqn:Hc; [unchanged|].
    apply has_booking_id_true in Hp as Hid.
    assert (Hb : status b = BOOKED).
    { unfold is_CANCELLED in Hc. destruct (status b); congruence. }
    assert (Hu : userId = JStr (candidateId b)).
    { destruct userId as [|s]; simpl in Hown; [discriminate|].
      apply negb_false_iff, String.eqb_eq in Hown. congruence. }
    unfold Booking_save, set_bookings, set_slots.
    cbn [bookings slots users booking_id set_status].
    rewrite Hid. rewrite Hs at 1.
    rewrite (fou_first _ _ _ _ _ Hp Hl1). cbn [snd slotId].
    intros E. injection E as <- <-.
    right. exists l1, b, l2. repeat split; auto.
Qed.

Ltac same_store :=
  let E := fresh in
  intros E; injection E as <- <-; left;
  split; [cbn; first [discriminate | eexists _, _; reflexivity] | reflexivity].

Lemma createSlot_cases (st : Store) (u : User) (body : CreateSlotBody) (newId : ObjectId) :
((exists c m, fst (createSlot st u body newId) = Json c m) /\
   snd (createSlot st u body newId) = st)
  \/
  (exists c slot,
     cs_capacity body = Some c /\
     slot = mkSlot newId (cs_startTime body) (cs_endTime body) c 0 (user_id u)
                   (or_default (cs_tags body) []) /\
     Slot_validate slot = true /\
     Forall (fun y => has_slot_id newId y = false) (slots st) /\
     checkOverlap (slots st) (user_id u) (cs_startTime body) (cs_endTime body) None = false /\
     createSlot st u body newId =
       (JsonSlot 201 slot, mkStore (users st) (slots st ++ [slot]) (bookings st))).
Proof.
  destruct (createSlot st u body newId) as [res st'] eqn:E.
  cbn [fst snd]. revert E. unfold createSlot.
  destruct (cs_endTime body <=? cs_startTime body); [same_store|].
  destruct (js_lt_undef (cs_capacity body) 1); [same_store|].
  destruct (checkOverlap _ _ _ _ _) eqn:Hov; [same_store|].
  destruct (cs_capacity body) as [c|]; [|same_store].
  unfold Slot_insert. cbn [slot_id].
  destruct (Slot_validate _) eqn:Hval; simpl negb; cbv iota; [|same_store].
  destruct (existsb (has_slot_id newId) (slots st)) eqn:Hex; [same_store|].
  intros E. injection E as <- <-. right.
  eexists _, _. repeat split; eauto using existsb_false_all.
Qed.

Lemma updateSlot_times_inl (st : Store) (adminId : ObjectId) (id : string)
    (body : UpdateSlotBody) (slot : Slot) (r : Response) :
  updateSlot_times st adminId id body slot = inl r ->
  r = InvalidInterval \/ r = IntervalConflictOnUpdate.
Proof.
  unfold updateSlot_times.
  destruct (is_some (us_startTime body) || is_some (us_endTime body)); [|discriminate].
  destruct (_ <=? _); [intros E; injection E as <-; auto|].
  destruct (checkOverlap _ _ _ _ _); [intros E; injection E as <-; auto | discriminate].
Qed.

Lemma updateSlot_capacity_inl (body : UpdateSlotBody) (slot : Slot) (r : Response) :
  updateSlot_capacity body slot = inl r -> r = CapacityConflict.
Proof.
  unfold updateSlot_capacity. destruct (us_capacity body) as [c|]; [|discriminate].
  destruct (Qlt_bool _ _); [intros E; injection E as <-; auto | discriminate].
Qed.

Lemma updateSlot_cases (st : Store) (u : User) (id : string) (body : UpdateSlotBody) :
((exists c m, fst (updateSlot isValid st u id body) = Json c m) /\
   snd (updateSlot isValid st u id body) = st)
  \/
  (exists l1 slot l2 slot',
     slots st = l1 ++ slot :: l2 /\ has_slot_id id slot = true /\
     Forall (fun y => has_slot_id id y = false) l1 /\
     slot_id slot' = slot_id slot /\
     bookedCount slot' = bookedCount slot /\
     (capacity slot' = capacity slot \/
      (inject_Z (bookedCount slot) <= capacity slot')%Q) /\
     Slot_validate slot' = true /\
     updateSlot isValid st u id body =
       (JsonSlot 200 slot', mkStore (users st) (l1 ++ slot' :: l2) (bookings st))).
Proof.
  destruct (updateSlot isValid st u id body) as [res st'] eqn:E.
  cbn [fst snd]. revert E. unfold updateSlot.
  destruct (isValid id); simpl negb; cbv iota; [|same_store].
  unfold Slot_findById.
  destruct (first_split (has_slot_id id) (slots st))
    as [Hnone | (l1 & slot & l2 & Hs & Hp & Hl1)].
  { rewrite (find_all_false _ _ Hnone). same_store. }
  rewrite Hs at 1. rewrite (find_first _ _ _ _ Hp Hl1).
  destruct (negb (createdBy slot =? user_id u)%string); [same_store|].
  destruct (updateSlot_times st (user_id u) id body slot) as [r|slot1] eqn:Ht;
    [apply updateSlot_times_inl in Ht; destruct Ht; subst r; same_store|].
  destruct (updateSlot_capacity body slot1) as [r|slot2] eqn:Hc;
    [apply updateSlot_capacity_inl in Hc; subst r; same_store|].
  unfold Slot_save.
  destruct (Slot_validate (updateSlot_tags body slot2)) eqn:Hval;
    simpl negb; cbv iota; [|same_store].
  assert (H1 : slot_id slot1 = slot_id slot /\ bookedCount slot1 = bookedCount slot
               /\ capacity slot1 = capacity slot).
  { unfold updateSlot_times in Ht.
    destruct (is_some (us_startTime body) || is_some (us_endTime body)).
    - destruct (_ <=? _); [discriminate|].
      destruct (checkOverlap _ _ _ _ _); [discriminate|].
      injection Ht as <-. auto.
    - injection Ht as <-. auto. }
  assert (H2 : slot_id slot2 = slot_id slot1 /\ bookedCount slot2 = bookedCount slot1
               /\ (capacity slot2 = capacity slot1 \/
                   (inject_Z (bookedCount slot1) <= capacity slot2)%Q)).
  { unfold updateSlot_capacity in Hc. destruct (us_capacity body) as [c|].
    - destruct (Qlt_bool c (inject_Z (bookedCount slot1))) eqn:Hlt; [discriminate|].
      injection Hc as <-. cbn. apply Qlt_bool_false in Hlt. auto.
    - injection Hc as <-. auto. }
  assert (H3 : slot_id (updateSlot_tags body slot2) = slot_id slot2
               /\ bookedCount (updateSlot_tags body slot2) = bookedCount slot2
               /\ capacity (updateSlot_tags body slot2) = capacity slot2).
  { unfold updateSlot_tags. destruct (us_tags body); auto. }
  destruct H1 as (I1 & B1 & C1), H2 as (I2 & B2 & C2), H3 as (I3 & B3 & C3).
  apply has_slot_id_true in Hp as Hid.
  replace (slot_id (updateSlot_tags body slot2)) with id by congruence.
  rewrite Hs at 1. rewrite (fou_first _ _ _ _ _ Hp Hl1). cbn [snd].
  intros E. injection E as <- <-. right.
  exists l1, slot, l2, (updateSlot_tags body slot2).
  repeat split; auto; try congruence.
Qed.

Lemma deleteSlot_cases (st : Store) (u : User) (id : string) :
  (fst (deleteSlot isValid st u id) <> DeletedSuccessfully /\
   snd (deleteSlot isValid st u id) = st)
  \/
  (exists l1 s l2,
     slots st = l1 ++ s :: l2 /\ has_slot_id id s = true /\
     Forall (fun y => has_slot_id id y = false) l1 /\
     bookedCount s <= 0 /\
     deleteSlot isValid st u id =
       (DeletedSuccessfully, mkStore (users st) (l1 ++ l2) (bookings st))).
Proof.
  destruct (deleteSlot isValid st u id) as [res st'] eqn:E.
  cbn [fst snd]. revert E. unfold deleteSlot.
  destruct (isValid id); simpl negb; cbv iota; [|same_store].
  unfold Slot_findById.
  destruct (first_split (has_slot_id id) (slots st))
    as [Hnone | (l1 & s & l2 & Hs & Hp & Hl1)].
  { rewrite (find_all_false _ _ Hnone). same_store. }
  rewrite Hs at 1. rewrite (find_first _ _ _ _ Hp Hl1).
  destruct (negb (createdBy s =? user_id u)%string); [same_store|].
  destruct (0 <? bookedCount s) eqn:Hb; [same_store|].
  unfold set_slots. rewrite Hs at 1. rewrite (deleteOne_first _ _ _ _ Hp Hl1).
  intros E. injection E as <- <-. right.
  exists l1, s, l2. apply Z.ltb_ge in Hb. repeat split; auto.
Qed.

End Outcomes.

(** ** The invariant is kept by every handler *)

Lemma NoDup_snoc {A : Type} (l : list A) (x : A) :
  NoDup l -> ~ In x l -> NoDup (l ++ [x]).
Proof.
  induction 1 as [|a l Ha Hl IH]; intros Hx; simpl.
  - constructor; [intros [] | constructor].
  - constructor.
    + intros Hin. apply in_app_or in Hin. destruct Hin as [Hin | [<- | []]].
      * exact (Ha Hin).
      * apply Hx. left. reflexivity.
    + apply IH. intros Hin. apply Hx. right. exact Hin.
Qed.

Lemma Forall_replace {A K : Type} (key : A -> K) (P Q : A -> Prop)
    (l1 : list A) (x x' : A) (l2 : list A) :
  NoDup (map key (l1 ++ x :: l2)) ->
  Forall P (l1 ++ x :: l2) ->
  (forall y, key y <> key x -> P y -> Q y) ->
  (P x -> Q x') ->
  Forall Q (l1 ++ x' :: l2).
Proof.
  intros Hnd HP Hother Hx.
  destruct (NoDup_key_split key l1 x l2 Hnd) as [H1 H2].
  apply Forall_app in HP. destruct HP as [HP1 HP2].
  apply Forall_cons_iff in HP2. destruct HP2 as [HPx HP2].
  apply Forall_app. split; [|constructor; [auto|]].
  - rewrite Forall_forall in *. auto.
  - rewrite Forall_forall in *. auto.
Qed.

Lemma map_key_replace {A K : Type} (key : A -> K) (l1 : list A) (x x' : A) (l2 : list A) :
  key x' = key x -> map key (l1 ++ x' :: l2) = map key (l1 ++ x :: l2).
Proof. intros E. rewrite !map_app. simpl. rewrite E. reflexivity. Qed.

Lemma activeCount_snoc (l : list Booking) (b : Booking) (sid : ObjectId) :
  activeCount (l ++ [b]) sid = activeCount l sid + (if counts_for sid b then 1 else 0).
Proof.
  rewrite activeCount_app, activeCount_cons, activeCount_nil. lia.
Qed.

Lemma activeCount_cancel (l1 : list Booking) (b : Booking) (l2 : list Booking)
    (sid : ObjectId) :
  status b = BOOKED ->
  activeCount (l1 ++ set_status b CANCELLED :: l2) sid =
  activeCount (l1 ++ b :: l2) sid - (if (slotId b =? sid)%string then 1 else 0).
Proof.
  intros Hb. rewrite !activeCount_app, !activeCount_cons.
  rewrite counts_for_set_status_CANCELLED.
  unfold counts_for, is_BOOKED. rewrite Hb.
  destruct (slotId b =? sid)%string; cbn [andb]; lia.
Qed.

Lemma Inv_init (isValid : string -> bool) (us : list User) :
  Inv isValid (mkStore us [] []).
Proof. constructor; simpl; constructor. Qed.

Section Preservation.

Variable isValid : string -> bool.

Lemma Inv_createBooking (st : Store) (u : User) (sid : string) (newId : ObjectId) :
  Inv isValid st -> Inv isValid (snd (createBooking isValid st u sid newId)).
Proof.
  intros I.
  destruct (createBooking_cases isValid st u sid newId)
    as [[_ ->] | (l1 & s & l2 & Hv & Hs & Hp & _ & Hid & Hpair & ->)]; [exact I|].
  destruct I as [Ins Inb Inp Ic Icap Ival Iref Ivid].
  rewrite Hs in *. cbn [snd].
  unfold has_room in Hp. apply andb_true_iff in Hp. destruct Hp as [Hsid Hroom].
  apply has_slot_id_true in Hsid. apply Qlt_bool_true in Hroom.
  assert (Hmap : map slot_id (l1 ++ inc_bookedCount 1 s :: l2)
                 = map slot_id (l1 ++ s :: l2))
    by (apply map_key_replace; reflexivity).
  constructor; cbn [slots bookings].
  - rewrite Hmap. exact Ins.
  - rewrite map_app. apply NoDup_snoc; [exact Inb|]. cbn [map booking_id].
    apply (all_false_not_in booking_id (has_booking_id newId));
      [apply has_booking_id_false | exact Hid].
  - rewrite map_app. apply NoDup_snoc; [exact Inp|]. cbn [map].
    apply (all_false_not_in pair_key (same_pair sid (user_id u)));
      [apply same_pair_false | exact Hpair].
  - apply (Forall_replace slot_id _ _ _ _ _ _ Ins Ic).
    + intros y Hne E. rewrite activeCount_snoc. unfold counts_for.
      cbn [slotId]. rewrite <- Hsid.
      rewrite (proj2 (String.eqb_neq (slot_id s) (slot_id y))) by congruence.
      cbn [andb]. lia.
    + intros E. rewrite activeCount_snoc. unfold counts_for.
      cbn [slotId slot_id inc_bookedCount bookedCount is_BOOKED status].
      rewrite Hsid, String.eqb_refl. cbn [andb]. rewrite Hsid in E. lia.
  - apply (Forall_replace slot_id _ _ _ _ _ _ Ins Icap); [auto|].
    intros _. cbn [inc_bookedCount bookedCount capacity].
    rewrite inject_Z_succ. lra.
  - apply (Forall_replace slot_id _ _ _ _ _ _ Ins Ival); auto.
  - rewrite Hmap. apply Forall_app. split; [exact Iref|].
    constructor; [|constructor]. intros _. cbn [slotId].
    rewrite <- Hsid. rewrite map_app. apply in_or_app. right. left. reflexivity.
  - apply Forall_app. split; [exact Ivid|]. constructor; [exact Hv|constructor].
Qed.

Lemma Inv_cancelBooking_as (userId : JsVal) (st : Store) (id : string) :
  Inv isValid st -> Inv isValid (snd (cancelBooking_as isValid userId st id)).
Proof.
  intros I.
  destruct (cancelBooking_as_cases isValid userId st id)
    as [[_ ->] | (l1 & b & l2 & _ & Hs & Hid & _ & Hb & _ & ->)]; [exact I|].
  destruct I as [Ins Inb Inp Ic Icap Ival Iref Ivid].
  rewrite Hs in *. cbn [snd].
  assert (Hin : In (slotId b) (map slot_id (slots st))).
  { apply Forall_app in Iref. destruct Iref as [_ Iref].
    apply Forall_cons_iff in Iref. destruct Iref as [Iref _].
    apply Iref. unfold is_BOOKED. rewrite Hb. reflexivity. }
  destruct (first_split (has_slot_id (slotId b)) (slots st))
    as [Hnone | (m1 & s & m2 & Hm & Hp & Hm1)].
  { exfalso. revert Hin.
    apply (all_false_not_in slot_id (has_slot_id (slotId b)));
      [apply has_slot_id_false | exact Hnone]. }
  rewrite Hm in *. rewrite (fou_first _ _ _ _ _ Hp Hm1). cbn [snd].
  apply has_slot_id_true in Hp.
  assert (Hmap : map slot_id (m1 ++ inc_bookedCount (-1) s :: m2)
                 = map slot_id (m1 ++ s :: m2))
    by (apply map_key_replace; reflexivity).
  constructor; cbn [slots bookings].
  - rewrite Hmap. exact Ins.
  - rewrite (map_key_replace booking_id l1 b) by reflexivity. exact Inb.
  - rewrite (map_key_replace pair_key l1 b) by reflexivity. exact Inp.
  - apply (Forall_replace slot_id _ _ _ _ _ _ Ins Ic).
    + intros y Hne E. rewrite activeCount_cancel by exact Hb. rewrite <- Hp.
      rewrite (proj2 (String.eqb_neq (slot_id s) (slot_id y))) by congruence. lia.
    + intros E. rewrite activeCount_cancel by exact Hb.
      cbn [slot_id inc_bookedCount bookedCount].
      rewrite Hp, String.eqb_refl. rewrite <- Hp. lia.
  - apply (Forall_replace slot_id _ _ _ _ _ _ Ins Icap); [auto|].
    intros Hlt. cbn [inc_bookedCount bookedCount capacity].
    change (bookedCount s + -1) with (bookedCount s - 1).
    rewrite inject_Z_pred. lra.
  - apply (Forall_replace slot_id _ _ _ _ _ _ Ins Ival); auto.
  - rewrite Hmap. apply (Forall_replace booking_id _ _ _ _ _ _ Inb Iref); [auto|].
    intros _. unfold is_BOOKED. cbn. discriminate.
  - apply (Forall_replace booking_id _ _ _ _ _ _ Inb Ivid); auto.
Qed.

Lemma Inv_createSlot (st : Store) (u : User) (body : CreateSlotBody) (newId : ObjectId) :
  Inv isValid st -> Inv isValid (snd (createSlot st u body newId)).
Proof.
  intros I.
  destruct (createSlot_cases st u body newId)
    as [[_ ->] | (c & slot & _ & Hslot & Hval & Hfresh & _ & ->)]; [exact I|].
  destruct I as [Ins Inb Inp Ic Icap Ival Iref Ivid]. cbn [snd].
  assert (Hid : slot_id slot = newId) by (rewrite Hslot; reflexivity).
  assert (Hbc : bookedCount slot = 0) by (rewrite Hslot; reflexivity).
  assert (Hnew : ~ In newId (map slot_id (slots st))).
  { apply (all_false_not_in slot_id (has_slot_id newId));
      [apply has_slot_id_false | exact Hfresh]. }
  constructor; cbn [slots bookings].
  - rewrite map_app. cbn [map]. rewrite Hid. apply NoDup_snoc; assumption.
  - exact Inb.
  - exact Inp.
  - apply Forall_app. split; [exact Ic|]. constructor; [|constructor].
    rewrite Hbc, Hid. symmetry. apply activeCount_zero.
    revert Iref. apply Forall_impl. intros b Hb Hbooked E.
    apply Hnew. rewrite <- E. auto.
  - apply Forall_app. split; [exact Icap|]. constructor; [|constructor].
    rewrite Hbc. unfold Slot_validate in Hval.
    apply andb_true_iff in Hval. destruct Hval as [Hval _].
    apply Qle_bool_iff in Hval. change (inject_Z 0) with 0%Q. lra.
  - apply Forall_app. split; [exact Ival|]. constructor; [exact Hval|constructor].
  - revert Iref. apply Forall_impl. intros b Hb Hbooked.
    rewrite map_app. apply in_or_app. left. auto.
  - exact Ivid.
Qed.

Lemma Inv_updateSlot (st : Store) (u : User) (id : string) (body : UpdateSlotBody) :
  Inv isValid st -> Inv isValid (snd (updateSlot isValid st u id body)).
Proof.
  intros I.
  destruct (updateSlot_cases isValid st u id body)
    as [[_ ->] | (l1 & slot & l2 & slot' & Hs & _ & _ & Hid & Hbc & Hcap & Hval & ->)];
    [exact I|].
  destruct I as [Ins Inb Inp Ic Icap Ival Iref Ivid].
  rewrite Hs in *. cbn [snd].
  assert (Hmap : map slot_id (l1 ++ slot' :: l2) = map slot_id (l1 ++ slot :: l2))
    by (apply map_key_replace; exact Hid).
  constructor; cbn [slots bookings]; try assumption.
  - rewrite Hmap. exact Ins.
  - apply (Forall_replace slot_id _ _ _ _ _ _ Ins Ic); [auto|]. congruence.
  - apply (Forall_replace slot_id _ _ _ _ _ _ Ins Icap); [auto|].
    intros Hle. rewrite Hbc. destruct Hcap as [Hcap | Hcap]; [rewrite Hcap; exact Hle | lra].
  - apply (Forall_replace slot_id _ _ _ _ _ _ Ins Ival); auto.
  - rewrite Hmap. exact Iref.
Qed.

Lemma Inv_deleteSlot (st : Store) (u : User) (id : string) :
  Inv isValid st -> Inv isValid (snd (deleteSlot isValid st u id)).
Proof.
  intros I.
  destruct (deleteSlot_cases isValid st u id)
    as [[_ ->] | (l1 & s & l2 & Hs & _ & _ & Hbc & ->)]; [exact I|].
  destruct I as [Ins Inb Inp Ic Icap Ival Iref Ivid].
  rewrite Hs in *. cbn [snd].
  assert (Hsub : forall P : Slot -> Prop, Forall P (l1 ++ s :: l2) -> Forall P (l1 ++ l2)).
  { intros P H. apply Forall_app in H. destruct H as [H1 H2].
    apply Forall_cons_iff in H2. apply Forall_app. tauto. }
  assert (Hs_count : bookedCount s = activeCount (bookings st) (slot_id s)).
  { apply Forall_app in Ic. destruct Ic as [_ Ic].
    apply Forall_cons_iff in Ic. tauto. }
  constructor; cbn [slots bookings]; auto.
  - rewrite map_app in *. cbn [map] in Ins. apply NoDup_remove_1 in Ins. exact Ins.
  - rewrite Forall_forall in *. intros b Hb Hbooked.
    specialize (Iref b Hb Hbooked).
    rewrite map_app in *. cbn [map] in Iref.
    apply in_app_or in Iref. apply in_or_app.
    destruct Iref as [H | [H | H]]; auto.
    exfalso. pose proof (activeCount_pos _ _ Hb Hbooked) as Hpos.
    rewrite <- H, <- Hs_count in Hpos. lia.
Qed.

(** Every reachable store satisfies the invariant. *)
Lemma reachable_Inv (st : Store) : reachable isValid st -> Inv isValid st.
Proof.
  induction 1;
    auto using Inv_init, Inv_createSlot, Inv_updateSlot, Inv_deleteSlot,
               Inv_createBooking, Inv_cancelBooking_as.
Qed.

End Preservation.

(** ** Requests through the routes stay within the reachable stores *)

Section Routes.

Variable isValid : string -> bool.

Lemma handle_reachable (st : Store) (r : Request) :
  reachable isValid st -> reachable isValid (snd (handle isValid st r)).
Proof.
  intros H. destruct r as [h body newId | h id body | h id | h sid newId | h id];
    unfold handle, guarded;
    (destruct (authenticate isValid st h) as [res | user]; [exact H|]);
    (destruct (authorize _ user) as [res | user']; [exact H|]).
  - apply reach_createSlot, H.
  - apply reach_updateSlot, H.
  - apply reach_deleteSlot, H.
  - apply reach_createBooking, H.
  - apply reach_cancelBooking, H.
Qed.

Lemma run_reachable (rs : list Request) :
  forall st, reachable isValid st -> reachable isValid (run isValid st rs).
Proof.
  induction rs as [|r rs IH]; intros st H; simpl; [exact H|].
  apply IH, handle_reachable, H.
Qed.

End Routes.

Lemma empty_store_reachable : reachable hex24 empty_store.
Proof. apply reach_init. Qed.

Lemma store_5_3_reachable : reachable hex24 store_5_3.
Proof. apply run_reachable, empty_store_reachable. Qed.

Lemma store_2_1_reachable : reachable hex24 store_2_1.
Proof. apply run_reachable, empty_store_reachable. Qed.

Lemma store_1_1_reachable : reachable hex24 store_1_1.
Proof. apply run_reachable, empty_store_reachable. Qed.

Lemma store_5_0_reachable : reachable hex24 store_5_0.
Proof. apply run_reachable, empty_store_reachable. Qed.


(** ** Success and failure of the booking handlers *)

Section Booking.

Variable isValid : string -> bool.

Lemma createBooking_success (st : Store) (u : User) (sid : string) (newId : ObjectId) :
  fst (createBooking isValid st u sid newId) = BookedSuccessfully ->
  exists l1 s l2,
    isValid sid = true /\
    slots st = l1 ++ s :: l2 /\ has_room sid s = true /\
    Forall (fun y => has_room sid y = false) l1 /\
    Forall (fun b => has_booking_id newId b = false) (bookings st) /\
    Forall (fun b => same_pair sid (user_id u) b = false) (bookings st) /\
    createBooking isValid st u sid newId =
      (BookedSuccessfully,
       mkStore (users st) (l1 ++ inc_bookedCount 1 s :: l2)
               (bookings st ++ [mkBooking newId sid (user_id u) BOOKED])).
Proof.
  intros H. destruct (createBooking_cases isValid st u sid newId) as [[Hne _] | Hok].
  - contradiction.
  - exact Hok.
Qed.

Lemma createBooking_failure (st : Store) (u : User) (sid : string) (newId : ObjectId) :
  fst (createBooking isValid st u sid newId) <> BookedSuccessfully ->
  snd (createBooking isValid st u sid newId) = st.
Proof.
  intros H. destruct (createBooking_cases isValid st u sid newId)
    as [[_ Hst] | (l1 & s & l2 & _ & _ & _ & _ & _ & _ & E)].
  - exact Hst.
  - rewrite E in H. contradiction H. reflexivity.
Qed.

Lemma cancelBooking_as_success (userId : JsVal) (st : Store) (id : string) :
  fst (cancelBooking_as isValid userId st id) = CancelledSuccessfully ->
  exists l1 b l2,
    isValid id = true /\
    bookings st = l1 ++ b :: l2 /\ booking_id b = id /\
    Forall (fun y => has_booking_id id y = false) l1 /\
    status b = BOOKED /\ userId = JStr (candidateId b) /\
    cancelBooking_as isValid userId st id =
      (CancelledSuccessfully,
       mkStore (users st)
         (snd (findOneAndUpdate (has_slot_id (slotId b)) (inc_bookedCount (-1))
                 (slots st)))
         (l1 ++ set_status b CANCELLED :: l2)).
Proof.
  intros H. destruct (cancelBooking_as_cases isValid userId st id) as [[Hne _] | Hok].
  - contradiction.
  - exact Hok.
Qed.

Lemma cancelBooking_as_failure (userId : JsVal) (st : Store) (id : string) :
  fst (cancelBooking_as isValid userId st id) <> CancelledSuccessfully ->
  snd (cancelBooking_as isValid userId st id) = st.
Proof.
  intros H. destruct (cancelBooking_as_cases isValid userId st id)
    as [[_ Hst] | (l1 & b & l2 & _ & _ & _ & _ & _ & _ & E)].
  - exact Hst.
  - rewrite E in H. contradiction H. reflexivity.
Qed.

(** Under the invariant a BOOKED reservation names a stored slot, and the
    decrement of a cancellation lands on it. *)
Lemma booked_slot_split (st : Store) (b : Booking) :
  Inv isValid st -> In b (bookings st) -> status b = BOOKED ->
  exists m1 s m2,
    slots st = m1 ++ s :: m2 /\ slot_id s = slotId b /\
    findOneAndUpdate (has_slot_id (slotId b)) (inc_bookedCount (-1)) (slots st)
      = (Some (inc_bookedCount (-1) s), m1 ++ inc_bookedCount (-1) s :: m2).
Proof.
  intros I Hin Hb.
  assert (Hslot : In (slotId b) (map slot_id (slots st))).
  { pose proof (inv_ref _ _ I) as Iref. rewrite Forall_forall in Iref.
    apply Iref; [exact Hin|]. unfold is_BOOKED. rewrite Hb. reflexivity. }
  destruct (first_split (has_slot_id (slotId b)) (slots st))
    as [Hnone | (m1 & s & m2 & Hm & Hp & Hm1)].
  { exfalso. revert Hslot.
    apply (all_false_not_in slot_id (has_slot_id (slotId b)));
      [apply has_slot_id_false | exact Hnone]. }
  exists m1, s, m2. split; [exact Hm|]. split; [apply has_slot_id_true, Hp|].
  rewrite Hm. apply fou_first; assumption.
Qed.

End Booking.

(** ** Properties of the booking protocol *)

Section Consistency.

Variable isValid : string -> bool.

(** C1.  In every reachable store, after a Book or a Cancel the occupancy
    counter of every slot equals the number of its BOOKED reservations.  A
    successful Book adds 1 to the counter of the slot it names and appends
    exactly one BOOKED reservation; a successful Cancel turns exactly one
    reservation from BOOKED to CANCELLED and adds -1 to the counter of that
    reservation's slot; a call that fails leaves the store as it was.  The
    cancellation is taken for any value of [userId], which covers the
    handler [cancelBooking]. *)
Theorem bookedCount_matches_active_reservations
    (st : Store) (u : User) (sid : string) (newId : ObjectId)
    (userId : JsVal) (id : string) :
  reachable isValid st ->
  let book := createBooking isValid st u sid newId in
  let cancel := cancelBooking_as isValid userId st id in
  counter_consistent st /\
  counter_consistent (snd book) /\
  counter_consistent (snd cancel) /\
  (fst book = BookedSuccessfully ->
     exists l1 s l2,
       slots st = l1 ++ s :: l2 /\ slot_id s = sid /\
       slots (snd book) = l1 ++ inc_bookedCount 1 s :: l2 /\
       bookings (snd book) = bookings st ++ [mkBooking newId sid (user_id u) BOOKED]) /\
  (fst cancel = CancelledSuccessfully ->
     exists l1 b l2 m1 s m2,
       bookings st = l1 ++ b :: l2 /\ booking_id b = id /\ status b = BOOKED /\
       bookings (snd cancel) = l1 ++ set_status b CANCELLED :: l2 /\
       slots st = m1 ++ s :: m2 /\ slot_id s = slotId b /\
       slots (snd cancel) = m1 ++ inc_bookedCount (-1) s :: m2) /\
  (fst book <> BookedSuccessfully -> snd book = st) /\
  (fst cancel <> CancelledSuccessfully -> snd cancel = st).
Proof.
  intros Hreach book cancel.
  pose proof (reachable_Inv isValid st Hreach) as I.
  split; [exact (inv_count _ _ I)|].
  split; [exact (inv_count _ _ (Inv_createBooking isValid st u sid newId I))|].
  split; [exact (inv_count _ _ (Inv_cancelBooking_as isValid userId st id I))|].
  split; [|split; [|split]].
  - intros Hok. apply createBooking_success in Hok.
    destruct Hok as (l1 & s & l2 & _ & Hs & Hp & _ & _ & _ & E).
    exists l1, s, l2. subst book. rewrite E. cbn [snd slots bookings].
    unfold has_room in Hp. apply andb_true_iff in Hp. destruct Hp as [Hp _].
    apply has_slot_id_true in Hp. auto.
  - intros Hok. apply cancelBooking_as_success in Hok.
    destruct Hok as (l1 & b & l2 & _ & Hs & Hid & _ & Hb & _ & E).
    destruct (booked_slot_split isValid st b I) as (m1 & s & m2 & Hm & Hsid & Hupd).
    { rewrite Hs. apply in_or_app. right. left. reflexivity. }
    { exact Hb. }
    exists l1, b, l2, m1, s, m2. subst cancel. rewrite E. cbn [snd slots bookings].
    rewrite Hupd. cbn [snd]. auto 10.
  - apply createBooking_failure.
  - apply cancelBooking_as_failure.
Qed.

End Consistency.

Lemma bookedCount_matches_active_reservations_witness :
  reachable hex24 store_2_1 /\
  fst (createBooking hex24 store_2_1 carol slot1_id booking2_id) = BookedSuccessfully /\
  fst (cancelBooking_as hex24 (JStr bob_id) store_2_1 booking1_id) = CancelledSuccessfully /\
  counter_consistent (snd (createBooking hex24 store_2_1 carol slot1_id booking2_id)) /\
  counter_consistent (snd (cancelBooking_as hex24 (JStr bob_id) store_2_1 booking1_id)).
Proof.
  split; [exact store_2_1_reachable|].
  split; [vm_compute; reflexivity|].
  split; [vm_compute; reflexivity|].
  pose proof (bookedCount_matches_active_reservations hex24 store_2_1 carol slot1_id
                booking2_id (JStr bob_id) booking1_id store_2_1_reachable) as H.
  cbv zeta in H. destruct H as (_ & H1 & H2 & _).
  split; assumption.
Defined.

Lemma Inv_within_next_seat (isValid : string -> bool) (st : Store) :
  Inv isValid st -> within_next_seat st.
Proof.
  intros I. pose proof (inv_count _ _ I) as Ic. pose proof (inv_capacity _ _ I) as Icap.
  unfold within_next_seat. rewrite Forall_forall in *. intros s Hs.
  specialize (Ic s Hs). specialize (Icap s Hs).
  pose proof (activeCount_nonneg (bookings st) (slot_id s)).
  split; [lia | exact Icap].
Qed.

Lemma store_3half_2_reachable : reachable hex24 store_3half_2.
Proof. apply run_reachable, empty_store_reachable. Qed.

(** C2, as stated, fails.  Alice opens a slot with capacity 1.5: the
    handler's check [capacity < 1] and the schema's [min: 1] let it through.
    Bob books it (0 < 1.5), then Carol books it (1 < 1.5): both requests are
    answered 201 and the stored slot has bookedCount 2 with capacity 1.5, so
    bookedCount <= capacity does not hold in this reachable store. *)
Lemma fractional_capacity_is_overbooked :
  reachable hex24 store_3half_2 /\
  fst (handle hex24 empty_store (open_slot (3 # 2)))
    = JsonSlot 201 (mkSlot slot1_id (at_ 10 0) (at_ 11 0) (3 # 2) 0 alice_id []) /\
  fst (handle hex24 (run hex24 empty_store [open_slot (3 # 2)])
         (POST_bookings (Some bob_id) slot1_id booking1_id)) = BookedSuccessfully /\
  fst (handle hex24
         (run hex24 empty_store
            [open_slot (3 # 2); POST_bookings (Some bob_id) slot1_id booking1_id])
         (POST_bookings (Some carol_id) slot1_id booking2_id)) = BookedSuccessfully /\
  slots store_3half_2
    = [mkSlot slot1_id (at_ 10 0) (at_ 11 0) (3 # 2) 2 alice_id []] /\
  (3 # 2 < inject_Z 2)%Q /\
  ~ within_capacity store_3half_2.
Proof.
  split; [exact store_3half_2_reachable|].
  split; [vm_compute; reflexivity|].
  split; [vm_compute; reflexivity|].
  split; [vm_compute; reflexivity|].
  split; [vm_compute; reflexivity|].
  split; [reflexivity|].
  intros H. apply Forall_inv in H. destruct H as [_ H].
  vm_compute in H. apply H. reflexivity.
Qed.

Section Capacity.

Variable isValid : string -> bool.

(** C2 (amended).  In every store reachable by CreateSlot, UpdateSlot,
    DeleteSlot, Book and Cancel requests, every slot has
    0 <= bookedCount < capacity + 1, and bookedCount <= capacity when its
    capacity is a whole number.  A created slot starts with bookedCount 0
    and capacity at least 1; Book adds 1 only to a slot with
    bookedCount < capacity; Cancel applies its decrement only for a
    reservation found BOOKED and otherwise leaves the slots alone; a slot
    written by UpdateSlot keeps its counter, and its capacity is the one it
    had or one that is not below the counter. *)
Theorem bookedCount_within_capacity (st : Store) :
  reachable isValid st ->
  within_next_seat st /\
  (forall s, In s (slots st) -> integral (capacity s) ->
     0 <= bookedCount s /\ (inject_Z (bookedCount s) <= capacity s)%Q) /\
  (forall u body newId slot,
     fst (createSlot st u body newId) = JsonSlot 201 slot ->
     bookedCount slot = 0 /\ (1 <= capacity slot)%Q /\
     slots (snd (createSlot st u body newId)) = slots st ++ [slot]) /\
  (forall u sid newId,
     fst (createBooking isValid st u sid newId) = BookedSuccessfully ->
     exists l1 s l2,
       slots st = l1 ++ s :: l2 /\ slot_id s = sid /\
       (inject_Z (bookedCount s) < capacity s)%Q /\
       slots (snd (createBooking isValid st u sid newId))
         = l1 ++ inc_bookedCount 1 s :: l2) /\
  (forall userId id,
     (fst (cancelBooking_as isValid userId st id) = CancelledSuccessfully ->
      exists b,
        Booking_findById (bookings st) id = Some b /\ status b = BOOKED /\
        slots (snd (cancelBooking_as isValid userId st id))
          = snd (findOneAndUpdate (has_slot_id (slotId b)) (inc_bookedCount (-1))
                   (slots st))) /\
     (fst (cancelBooking_as isValid userId st id) <> CancelledSuccessfully ->
      slots (snd (cancelBooking_as isValid userId st id)) = slots st)) /\
  (forall u id body slot',
     fst (updateSlot isValid st u id body) = JsonSlot 200 slot' ->
     exists l1 slot l2,
       slots st = l1 ++ slot :: l2 /\ slot_id slot = id /\
       slots (snd (updateSlot isValid st u id body)) = l1 ++ slot' :: l2 /\
       bookedCount slot' = bookedCount slot /\
       (capacity slot' = capacity slot \/
        (inject_Z (bookedCount slot) <= capacity slot')%Q)).
Proof.
  intros Hreach. pose proof (reachable_Inv isValid st Hreach) as I.
  pose proof (Inv_within_next_seat isValid st I) as Hw.
  split; [exact Hw|].
  split; [|split; [|split; [|split]]].
  - intros s Hs Hint. unfold within_next_seat in Hw. rewrite Forall_forall in Hw.
    destruct (Hw s Hs) as [H0 Hlt]. split; [exact H0|].
    apply below_next_integral; assumption.
  - intros u body newId slot Hres.
    destruct (createSlot_cases st u body newId)
      as [[(c & m & Hj) _] | (c & slot0 & _ & Hslot & Hval & _ & _ & E)].
    { rewrite Hj in Hres. discriminate. }
    rewrite E in Hres |- *. cbn [fst snd slots] in *.
    injection Hres as <-.
    unfold Slot_validate in Hval. apply andb_true_iff in Hval.
    destruct Hval as [Hval _]. apply Qle_bool_iff in Hval.
    rewrite Hslot in *. cbn [bookedCount capacity] in *. auto.
  - intros u sid newId Hok. apply createBooking_success in Hok.
    destruct Hok as (l1 & s & l2 & _ & Hs & Hp & _ & _ & _ & E).
    unfold has_room in Hp. apply andb_true_iff in Hp. destruct Hp as [Hid Hroom].
    apply has_slot_id_true in Hid. apply Qlt_bool_true in Hroom.
    exists l1, s, l2. rewrite E. cbn [snd slots]. auto.
  - intros userId id. split.
    + intros Hok. apply cancelBooking_as_success in Hok.
      destruct Hok as (l1 & b & l2 & _ & Hs & Hid & Hl1 & Hb & _ & E).
      exists b. rewrite E. cbn [snd slots]. repeat split; auto.
      unfold Booking_findById. rewrite Hs. apply find_first; [|exact Hl1].
      apply has_booking_id_true, Hid.
    + intros Hne. rewrite cancelBooking_as_failure by exact Hne. reflexivity.
  - intros u id body slot' Hres.
    destruct (updateSlot_cases isValid st u id body)
      as [[(c & m & Hj) _]
         | (l1 & slot & l2 & slot0 & Hs & Hp & _ & _ & Hbc & Hcap & _ & E)].
    { rewrite Hj in Hres. discriminate. }
    rewrite E in Hres |- *. cbn [fst snd slots] in *.
    injection Hres as <-.
    exists l1, slot, l2. apply has_slot_id_true in Hp.
    repeat split; auto.
Qed.

End Capacity.

Lemma bookedCount_within_capacity_witness :
  reachable hex24 store_3half_2 /\ within_next_seat store_3half_2 /\
  slots store_3half_2
    = [mkSlot slot1_id (at_ 10 0) (at_ 11 0) (3 # 2) 2 alice_id []] /\
  reachable hex24 store_5_3 /\
  slots store_5_3 = [mkSlot slot1_id (at_ 10 0) (at_ 11 0) 5 3 alice_id []] /\
  (inject_Z 3 <= 5)%Q.
Proof.
  split; [exact store_3half_2_reachable|].
  split; [exact (proj1 (bookedCount_within_capacity hex24 store_3half_2
                          store_3half_2_reachable))|].
  split; [vm_compute; reflexivity|].
  split; [exact store_5_3_reachable|].
  split; [vm_compute; reflexivity|].
  pose proof (bookedCount_within_capacity hex24 store_5_3 store_5_3_reachable)
    as (_ & H & _).
  apply (H (mkSlot slot1_id (at_ 10 0) (at_ 11 0) 5 3 alice_id [])).
  - vm_compute. left. reflexivity.
  - exists 5. reflexivity.
Defined.

(** ** Cancellation and the identity of the requester *)

(** The User document that [authenticate] attaches has no [userId] path. *)
Lemma req_user_userId (u : User) : User_get u "userId" = JUndefined.
Proof. reflexivity. Qed.

(** [createBooking] reads [req.user._id], which is the requester's id. *)
Lemma req_user__id (u : User) : User_get u "_id" = JStr (user_id u).
Proof. reflexivity. Qed.

(** C3.  Evaluation of the cancel route on the store where Bob holds the
    BOOKED reservation [booking1_id] of a slot with two seats: Bob is
    authenticated and has the CANDIDATE role, yet his own request is
    answered Forbidden and nothing changes, through the route and in the
    handler; on the store where that reservation is CANCELLED his
    request is answered Forbidden again, not AlreadyCancelled.  With the
    requester's [_id] in place of [userId] the same handler body cancels the
    reservation, decrements the counter, and then answers AlreadyCancelled. *)
Theorem cancel_by_owner_is_refused :
  Booking_findById (bookings store_2_1) booking1_id
    = Some (mkBooking booking1_id slot1_id (user_id bob) BOOKED) /\
  authenticate hex24 store_2_1 (Some bob_id) = inr bob /\
  authorize CANDIDATE bob = inr bob /\
  handle hex24 store_2_1 (POST_bookings_cancel (Some bob_id) booking1_id)
    = (Forbidden, store_2_1) /\
  cancelBooking hex24 store_2_1 bob booking1_id = (Forbidden, store_2_1) /\
  cancelBooking hex24 store_2_0_cancelled bob booking1_id
    = (Forbidden, store_2_0_cancelled) /\
  cancelBooking_as hex24 (User_get bob "_id") store_2_1 booking1_id
    = (CancelledSuccessfully, store_2_0_cancelled) /\
  map bookedCount (slots store_2_1) = [1] /\
  map bookedCount (slots store_2_0_cancelled) = [0] /\
  cancelBooking_as hex24 (User_get bob "_id") store_2_0_cancelled booking1_id
    = (AlreadyCancelled, store_2_0_cancelled).
Proof. vm_compute. repeat split. Qed.

Section Ownership.

Variable isValid : string -> bool.

(** C4.  For a well-formed id of a stored reservation, [cancelBooking]
    answers Forbidden and leaves the store as it was, whoever the requester
    is, the owner included: the comparison of the owner's id with
    [req.user.userId] is a comparison with [undefined]. *)
Theorem cancelBooking_forbidden_for_any_requester
    (st : Store) (u : User) (id : string) (b : Booking) :
  isValid id = true ->
  Booking_findById (bookings st) id = Some b ->
  cancelBooking isValid st u id = (Forbidden, st).
Proof.
  intros Hv Hb. unfold cancelBooking, cancelBooking_as.
  rewrite req_user_userId, Hv. cbn [negb].
  unfold startTransaction, abortTransaction. cbn [working committed].
  rewrite Hb. reflexivity.
Qed.

End Ownership.

Lemma cancelBooking_forbidden_for_any_requester_witness :
  candidateId (mkBooking booking1_id slot1_id bob_id BOOKED) = user_id bob /\
  cancelBooking hex24 store_2_1 bob booking1_id = (Forbidden, store_2_1).
Proof.
  split; [reflexivity|].
  apply (cancelBooking_forbidden_for_any_requester hex24 store_2_1 bob booking1_id
           (mkBooking booking1_id slot1_id bob_id BOOKED));
    vm_compute; reflexivity.
Defined.

(** ** Overlap checker *)

Lemma exclude_clause_iff (excludeSlotId : option ObjectId) (s : Slot) :
  slot_id s <> "" ->
  (if truthy excludeSlotId
   then match excludeSlotId with
        | Some ex => negb (slot_id s =? ex)%string
        | None => true
        end
   else true) = true
  <-> excludeSlotId <> Some (slot_id s).
Proof.
  intros Hne. destruct excludeSlotId as [ex|]; cbn [truthy].
  - destruct (ex =? "")%string eqn:E; cbn [negb].
    + apply String.eqb_eq in E. subst ex. split; [|reflexivity].
      intros _ H. injection H as H. auto.
    + rewrite negb_true_iff, String.eqb_neq. split; congruence.
  - split; [discriminate | reflexivity].
Qed.

Lemma overlapQuery_true_iff (adminId : ObjectId) (s2 e2 : Z)
    (excludeSlotId : option ObjectId) (s : Slot) :
  s2 < e2 -> (createdBy s = adminId -> startTime s < endTime s) -> slot_id s <> "" ->
  (overlapQuery adminId s2 e2 excludeSlotId s = true <->
   createdBy s = adminId /\ excludeSlotId <> Some (slot_id s) /\
   startTime s < e2 /\ s2 < endTime s).
Proof.
  intros Hc Hs Hid. unfold overlapQuery.
  rewrite !andb_true_iff, !orb_true_iff, !andb_true_iff.
  rewrite (exclude_clause_iff excludeSlotId s Hid).
  rewrite String.eqb_eq, !Z.ltb_lt, !Z.leb_le.
  split.
  - intros [[Ho Hq] Hex]. specialize (Hs Ho). repeat split; auto; lia.
  - intros (Ho & Hex & H1 & H2). specialize (Hs Ho). repeat split; auto. lia.
Qed.

(** C5.  For a candidate interval [s2,e2) with s2 < e2 and stored slots whose
    intervals are valid (for the owner in question) and whose ids are
    ObjectIds, hence not the empty string: [checkOverlap] is true exactly
    when some stored slot of that owner, other than the excluded one,
    satisfies startTime < e2 and s2 < endTime.  A stored slot that only
    touches the candidate (endTime = s2 or e2 = startTime) is never matched
    by the query.  With 10:00-11:00 stored, the answer is true for
    10:30-10:45, 09:30-10:15 and 09:00-12:00, and false for 11:00-12:00 and
    08:00-09:00. *)
Theorem checkOverlap_iff_intervals_intersect
    (l : list Slot) (adminId : ObjectId) (s2 e2 : Z) (excludeSlotId : option ObjectId) :
  s2 < e2 ->
  Forall (fun s => createdBy s = adminId -> startTime s < endTime s) l ->
  Forall (fun s => slot_id s <> "") l ->
  (checkOverlap l adminId s2 e2 excludeSlotId = true <->
   exists s, In s l /\ createdBy s = adminId /\ excludeSlotId <> Some (slot_id s) /\
             startTime s < e2 /\ s2 < endTime s) /\
  (forall s, In s l -> endTime s = s2 \/ e2 = startTime s ->
             overlapQuery adminId s2 e2 excludeSlotId s = false) /\
  (forall id cap bc tgs,
     let stored := [mkSlot id (at_ 10 0) (at_ 11 0) cap bc adminId tgs] in
     checkOverlap stored adminId (at_ 10 30) (at_ 10 45) None = true /\
     checkOverlap stored adminId (at_ 9 30) (at_ 10 15) None = true /\
     checkOverlap stored adminId (at_ 9 0) (at_ 12 0) None = true /\
     checkOverlap stored adminId (at_ 11 0) (at_ 12 0) None = false /\
     checkOverlap stored adminId (at_ 8 0) (at_ 9 0) None = false).
Proof.
  intros Hc Hval Hids. rewrite Forall_forall in Hval, Hids.
  split; [|split].
  - unfold checkOverlap. split.
    + destruct (find _ l) as [s|] eqn:E; [intros _ | discriminate].
      apply find_some in E. destruct E as [Hin Hq].
      exists s. split; [exact Hin|].
      apply (overlapQuery_true_iff adminId s2 e2 excludeSlotId s); auto.
    + intros (s & Hin & Hs).
      destruct (find _ l) as [s'|] eqn:E; [reflexivity|].
      pose proof (find_none _ _ E s Hin) as Hq.
      apply (overlapQuery_true_iff adminId s2 e2 excludeSlotId s) in Hs; auto.
      congruence.
  - intros s Hin Htouch.
    destruct (overlapQuery adminId s2 e2 excludeSlotId s) eqn:E; [|reflexivity].
    apply overlapQuery_true_iff in E; auto. lia.
  - intros id cap bc tgs stored. subst stored.
    unfold checkOverlap, overlapQuery. cbn [find createdBy startTime endTime truthy].
    rewrite String.eqb_refl. vm_compute. repeat split.
Qed.

Lemma checkOverlap_iff_intervals_intersect_witness :
  checkOverlap [slot_10_11] alice_id (at_ 10 30) (at_ 10 45) (Some slot2_id) = true /\
  checkOverlap [slot_10_11] alice_id (at_ 10 30) (at_ 10 45) (Some slot1_id) = false /\
  checkOverlap [slot_10_11] alice_id (at_ 11 0) (at_ 12 0) None = false.
Proof.
  assert (Hc : at_ 10 30 < at_ 10 45) by (vm_compute; reflexivity).
  assert (Hv : Forall (fun s => createdBy s = alice_id -> startTime s < endTime s)
                      [slot_10_11])
    by (repeat constructor).
  assert (Hi : Forall (fun s => slot_id s <> "") [slot_10_11])
    by (constructor; [discriminate | constructor]).
  split; [|split; [|vm_compute; reflexivity]].
  - apply (proj1 (checkOverlap_iff_intervals_intersect [slot_10_11] alice_id
                    (at_ 10 30) (at_ 10 45) (Some slot2_id) Hc Hv Hi)).
    exists slot_10_11. split; [left; reflexivity|].
    split; [reflexivity|]. split; [discriminate|].
    split; vm_compute; reflexivity.
  - vm_compute. reflexivity.
Defined.

(** ** The conditional update of a booking *)

Section ConditionalUpdate.

Variable isValid : string -> bool.

(** The fast-fail check lets the request through when the requester has no
    BOOKED reservation on the slot. *)
Lemma precheck_passes (l : list Booking) (sid cid : ObjectId) :
  (forall b, In b l -> slotId b = sid -> candidateId b = cid -> status b <> BOOKED) ->
  match Booking_findOne l sid cid with
  | Some existingBooking => is_BOOKED existingBooking
  | None => false
  end = false.
Proof.
  intros H. unfold Booking_findOne.
  destruct (find (same_pair sid cid) l) as [b|] eqn:E; [|reflexivity].
  apply find_some in E. destruct E as [Hin Hp].
  apply same_pair_true in Hp. injection Hp as Hs Hc.
  specialize (H b Hin Hs Hc). unfold is_BOOKED. destruct (status b); congruence.
Qed.

(** Past the validation and the fast-fail check, [createBooking] is the
    conditional update followed by the insert. *)
Lemma createBooking_past_precheck (st : Store) (u : User) (sid : string) (newId : ObjectId) :
  isValid sid = true ->
  (forall b, In b (bookings st) -> slotId b = sid -> candidateId b = user_id u ->
             status b <> BOOKED) ->
  createBooking isValid st u sid newId =
  match findOneAndUpdate (has_room sid) (inc_bookedCount 1) (slots st) with
  | (None, _) => if Slot_exists (slots st) sid then (SlotFull, st) else (NotFound, st)
  | (Some _, slots') =>
      match Booking_create (bookings st) (mkBooking newId sid (user_id u) BOOKED) with
      | inl E11000 => (DuplicateBooking, st)
      | inl _ => (Internal, st)
      | inr bookings' => (BookedSuccessfully, mkStore (users st) slots' bookings')
      end
  end.
Proof.
  intros Hv Hpre. unfold createBooking.
  rewrite Hv, (precheck_passes _ _ _ Hpre). cbn [negb].
  unfold startTransaction, abortTransaction, commitTransaction, write.
  cbn [working committed].
  destruct (findOneAndUpdate _ _ (slots st)) as [[upd|] slots']; reflexivity.
Qed.

Lemma Booking_create_error (l : list Booking) (doc : Booking) (e : MongoError) :
  Booking_create l doc = inl e -> e = E11000.
Proof.
  unfold Booking_create.
  destruct (existsb _ l); [congruence|].
  destruct (existsb _ l); congruence.
Qed.

Lemma Slot_findById_split (l : list Slot) (id : ObjectId) (s : Slot) :
  Slot_findById l id = Some s ->
  exists l1 l2, l = l1 ++ s :: l2 /\ slot_id s = id /\
                Forall (fun y => has_slot_id id y = false) l1.
Proof.
  unfold Slot_findById. intros H.
  destruct (first_split (has_slot_id id) l) as [Hnone | (l1 & x & l2 & Hl & Hp & Hl1)].
  - rewrite (find_all_false _ _ Hnone) in H. discriminate.
  - rewrite Hl, (find_first _ _ _ _ Hp Hl1) in H. injection H as <-.
    exists l1, l2. split; [exact Hl|]. split; [apply has_slot_id_true, Hp | exact Hl1].
Qed.

Lemma Slot_exists_true (l : list Slot) (id : ObjectId) :
  Slot_exists l id = true <-> exists s, In s l /\ slot_id s = id.
Proof.
  unfold Slot_exists. rewrite existsb_exists.
  split; intros (s & Hin & H); exists s; split; auto; apply has_slot_id_true, H.
Qed.

(** With unique ids, a full slot leaves the conditional update of a Book
    without a match. *)
Lemma full_slot_no_match (l : list Slot) (sid : ObjectId) (s : Slot) :
  NoDup (map slot_id l) -> In s l -> slot_id s = sid ->
  (capacity s <= inject_Z (bookedCount s))%Q ->
  Forall (fun y => has_room sid y = false) l.
Proof.
  intros Hnd Hin Hid Hfull. apply Forall_forall. intros y Hy. unfold has_room.
  destruct (has_slot_id sid y) eqn:E; [|reflexivity].
  apply has_slot_id_true in E. cbn [andb].
  assert (y = s) as -> by (apply (NoDup_map_eq slot_id l); congruence).
  apply Qlt_bool_false. exact Hfull.
Qed.

Lemma Slot_findById_None (l : list Slot) (id : ObjectId) :
  Slot_findById l id = None -> Forall (fun y => has_slot_id id y = false) l.
Proof.
  unfold Slot_findById. intros H.
  destruct (first_split (has_slot_id id) l) as [Hnone | (l1 & x & l2 & Hl & Hp & Hl1)].
  - exact Hnone.
  - rewrite Hl, (find_first _ _ _ _ Hp Hl1) in H. discriminate.
Qed.

(** C6.  A Book call with a well-formed slot id, by a requester without a
    BOOKED reservation on that slot.  When the slot exists and has
    bookedCount < capacity, the single conditional update returns it with
    the counter one higher and changes nothing else; the call then answers
    201 with that update and the new reservation committed when the insert
    is accepted, and DuplicateBooking with the store as it was when the
    insert is refused.  When the conditional update matches no slot, the
    existence check decides: NotFound when no stored slot has the id,
    SlotFull when one has (and then every slot with the id is full); the
    store is left as it was in both cases.  Conversely, when no slot has the
    id the conditional update matches nothing and the call answers NotFound;
    and, ids being unique, when the slot exists and has
    capacity <= bookedCount the conditional update matches nothing, no
    counter moves, and the call answers SlotFull with the store as it was. *)
Theorem book_is_one_conditional_update
    (st : Store) (u : User) (sid : string) (newId : ObjectId) :
  isValid sid = true ->
  (forall b, In b (bookings st) -> slotId b = sid -> candidateId b = user_id u ->
             status b <> BOOKED) ->
  let update := findOneAndUpdate (has_room sid) (inc_bookedCount 1) (slots st) in
  let doc := mkBooking newId sid (user_id u) BOOKED in
  let call := createBooking isValid st u sid newId in
  (forall s,
     Slot_findById (slots st) sid = Some s ->
     (inject_Z (bookedCount s) < capacity s)%Q ->
     exists l1 l2,
       slots st = l1 ++ s :: l2 /\
       update = (Some (inc_bookedCount 1 s), l1 ++ inc_bookedCount 1 s :: l2) /\
       bookedCount (inc_bookedCount 1 s) = bookedCount s + 1 /\
       (forall bookings', Booking_create (bookings st) doc = inr bookings' ->
          call = (BookedSuccessfully,
                  mkStore (users st) (l1 ++ inc_bookedCount 1 s :: l2) bookings')) /\
       (forall e, Booking_create (bookings st) doc = inl e ->
          call = (DuplicateBooking, st))) /\
  (fst update = None ->
     ((forall s, In s (slots st) -> slot_id s <> sid) -> call = (NotFound, st)) /\
     ((exists s, In s (slots st) /\ slot_id s = sid) ->
        call = (SlotFull, st) /\
        forall s, In s (slots st) -> slot_id s = sid ->
                  (capacity s <= inject_Z (bookedCount s))%Q)) /\
  (Slot_findById (slots st) sid = None ->
     update = (None, slots st) /\ call = (NotFound, st)) /\
  (NoDup (map slot_id (slots st)) ->
   forall s,
     Slot_findById (slots st) sid = Some s ->
     (capacity s <= inject_Z (bookedCount s))%Q ->
     update = (None, slots st) /\ call = (SlotFull, st)).
Proof.
  intros Hv Hpre update doc call.
  assert (Hcall := createBooking_past_precheck st u sid newId Hv Hpre).
  fold update doc call in Hcall.
  split; [|split; [|split]].
  - intros s Hfind Hroom.
    destruct (Slot_findById_split _ _ _ Hfind) as (l1 & l2 & Hl & Hid & Hl1).
    assert (Hp : has_room sid s = true).
    { unfold has_room. rewrite (proj2 (has_slot_id_true sid s) Hid).
      apply Qlt_bool_true in Hroom. rewrite Hroom. reflexivity. }
    assert (Hl1' : Forall (fun y => has_room sid y = false) l1).
    { revert Hl1. apply Forall_impl. intros y Hy. unfold has_room. rewrite Hy. reflexivity. }
    assert (Hupd : update = (Some (inc_bookedCount 1 s), l1 ++ inc_bookedCount 1 s :: l2)).
    { subst update. rewrite Hl. apply fou_first; assumption. }
    exists l1, l2. rewrite Hupd in Hcall.
    split; [exact Hl|]. split; [exact Hupd|]. split; [reflexivity|]. split.
    + intros bookings' Hc. rewrite Hc in Hcall. exact Hcall.
    + intros e Hc. pose proof (Booking_create_error _ _ _ Hc) as ->.
      rewrite Hc in Hcall. exact Hcall.
  - intros Hnone. destruct update as [[upd|] slots'] eqn:Hupd; [discriminate|].
    split.
    + intros Habsent.
      destruct (Slot_exists (slots st) sid) eqn:Hex; [|exact Hcall].
      apply Slot_exists_true in Hex. destruct Hex as (s & Hin & Hid).
      exfalso. exact (Habsent s Hin Hid).
    + intros Hpresent. apply Slot_exists_true in Hpresent.
      rewrite Hpresent in Hcall. split; [exact Hcall|].
      intros s Hin Hid.
      destruct (first_split (has_room sid) (slots st))
        as [Hall | (l1 & x & l2 & Hl & Hp & Hl1)].
      * rewrite Forall_forall in Hall. specialize (Hall s Hin).
        unfold has_room in Hall.
        rewrite (proj2 (has_slot_id_true sid s) Hid) in Hall.
        cbn [andb] in Hall. apply Qlt_bool_false in Hall. exact Hall.
      * subst update. rewrite Hl, (fou_first _ _ _ _ _ Hp Hl1) in Hupd. discriminate.
  - intros Habsent. apply Slot_findById_None in Habsent.
    assert (Hupd : update = (None, slots st)).
    { subst update. apply fou_all_false. revert Habsent. apply Forall_impl.
      intros y Hy. unfold has_room. rewrite Hy. reflexivity. }
    split; [exact Hupd|]. rewrite Hupd in Hcall.
    unfold Slot_exists in Hcall. rewrite (existsb_all_false _ _ Habsent) in Hcall.
    exact Hcall.
  - intros Hnd s Hfind Hfull.
    destruct (Slot_findById_split _ _ _ Hfind) as (l1 & l2 & Hl & Hid & _).
    assert (Hin : In s (slots st)).
    { rewrite Hl. apply in_or_app. right. left. reflexivity. }
    assert (Hupd : update = (None, slots st)).
    { subst update. apply fou_all_false.
      exact (full_slot_no_match _ sid s Hnd Hin Hid Hfull). }
    split; [exact Hupd|]. rewrite Hupd in Hcall.
    rewrite (proj2 (Slot_exists_true (slots st) sid)) in Hcall by eauto.
    exact Hcall.
Qed.

End ConditionalUpdate.

Lemma store_2_1_bookings :
  bookings store_2_1 = [mkBooking booking1_id slot1_id bob_id BOOKED].
Proof. vm_compute. reflexivity. Qed.

Lemma store_1_1_contents :
  slots store_1_1 = [mkSlot slot1_id (at_ 10 0) (at_ 11 0) 1 1 alice_id []] /\
  bookings store_1_1 = [mkBooking booking1_id slot1_id bob_id BOOKED].
Proof. vm_compute. split; reflexivity. Qed.

Lemma carol_has_no_booking (l : list Booking) (sid : ObjectId) :
  l = [mkBooking booking1_id slot1_id bob_id BOOKED] ->
  forall b, In b l -> slotId b = sid -> candidateId b = user_id carol ->
            status b <> BOOKED.
Proof.
  intros -> b [<- | []] _ H. cbn in H. discriminate.
Qed.

Lemma book_is_one_conditional_update_witness :
  fst (createBooking hex24 store_2_1 carol slot1_id booking2_id) = BookedSuccessfully /\
  (findOneAndUpdate (has_room slot1_id) (inc_bookedCount 1) (slots store_1_1)
     = (None, slots store_1_1) /\
   createBooking hex24 store_1_1 carol slot1_id booking2_id = (SlotFull, store_1_1)) /\
  (findOneAndUpdate (has_room slot2_id) (inc_bookedCount 1) (slots store_1_1)
     = (None, slots store_1_1) /\
   createBooking hex24 store_1_1 carol slot2_id booking2_id = (NotFound, store_1_1)).
Proof.
  split; [|split].
  - destruct (book_is_one_conditional_update hex24 store_2_1 carol slot1_id booking2_id)
      as (Hroom & _).
    + vm_compute. reflexivity.
    + apply carol_has_no_booking, store_2_1_bookings.
    + destruct (Hroom (mkSlot slot1_id (at_ 10 0) (at_ 11 0) 2 1 alice_id []))
        as (l1 & l2 & _ & _ & _ & Hok & _).
      * vm_compute. reflexivity.
      * vm_compute. reflexivity.
      * rewrite (Hok (bookings store_2_1
                        ++ [mkBooking booking2_id slot1_id (user_id carol) BOOKED])).
        -- reflexivity.
        -- vm_compute. reflexivity.
  - destruct (book_is_one_conditional_update hex24 store_1_1 carol slot1_id booking2_id)
      as (_ & _ & _ & Hfull).
    + vm_compute. reflexivity.
    + apply carol_has_no_booking, store_1_1_contents.
    + apply (Hfull (inv_slot_ids _ _ (reachable_Inv _ _ store_1_1_reachable))
               (mkSlot slot1_id (at_ 10 0) (at_ 11 0) 1 1 alice_id [])).
      * vm_compute. reflexivity.
      * vm_compute. discriminate.
  - destruct (book_is_one_conditional_update hex24 store_1_1 carol slot2_id booking2_id)
      as (_ & _ & Habsent & _).
    + vm_compute. reflexivity.
    + apply carol_has_no_booking, store_1_1_contents.
    + apply Habsent. vm_compute. reflexivity.
Defined.

(** ** Duplicate bookings *)

Lemma filter_all_false {A : Type} (p : A -> bool) (l : list A) :
  Forall (fun x => p x = false) l -> filter p l = [].
Proof.
  induction 1 as [|a l Ha _ IH]; simpl; [reflexivity|].
  rewrite Ha. exact IH.
Qed.

(** Under the unique index the reservation of a pair is the one [findOne]
    returns, and the only one the pair has. *)
Lemma unique_pair (l : list Booking) (b : Booking) :
  NoDup (map pair_key l) -> In b l ->
  Booking_findOne l (slotId b) (candidateId b) = Some b /\
  filter (same_pair (slotId b) (candidateId b)) l = [b] /\
  existsb (same_pair (slotId b) (candidateId b)) l = true.
Proof.
  intros Hnd Hin. apply in_split in Hin. destruct Hin as (l1 & l2 & ->).
  destruct (NoDup_key_split pair_key l1 b l2 Hnd) as [H1 H2].
  assert (Hb : same_pair (slotId b) (candidateId b) b = true)
    by (apply same_pair_true; reflexivity).
  assert (F1 : Forall (fun y => same_pair (slotId b) (candidateId b) y = false) l1).
  { revert H1. apply Forall_impl. intros y Hy. apply same_pair_false. exact Hy. }
  assert (F2 : Forall (fun y => same_pair (slotId b) (candidateId b) y = false) l2).
  { revert H2. apply Forall_impl. intros y Hy. apply same_pair_false. exact Hy. }
  split; [|split].
  - apply find_first; assumption.
  - rewrite filter_app. cbn [filter]. rewrite Hb.
    rewrite (filter_all_false _ _ F1), (filter_all_false _ _ F2). reflexivity.
  - apply existsb_first. exact Hb.
Qed.

Section Duplicates.

Variable isValid : string -> bool.

(** C7.  In a store that satisfies the invariant (as every reachable store
    does), when the requester holds a BOOKED reservation on the slot, a Book
    call by the same requester answers DuplicateBooking and returns the
    store as it was: no counter and no reservation changes, and the pair
    still has exactly one reservation record. *)
Theorem second_book_is_duplicate
    (st : Store) (u : User) (sid : string) (newId : ObjectId) (b : Booking) :
  Inv isValid st ->
  In b (bookings st) -> slotId b = sid -> candidateId b = user_id u ->
  status b = BOOKED ->
  let call := createBooking isValid st u sid newId in
  call = (DuplicateBooking, st) /\
  slots (snd call) = slots st /\
  bookings (snd call) = bookings st /\
  filter (same_pair sid (user_id u)) (bookings (snd call)) = [b].
Proof.
  intros I Hin Hs Hc Hb call.
  destruct (unique_pair (bookings st) b (inv_pairs _ _ I) Hin) as (Hfind & Hfilter & _).
  rewrite Hs, Hc in Hfind, Hfilter.
  assert (Hv : isValid sid = true).
  { pose proof (inv_ref_valid _ _ I) as Iv. rewrite Forall_forall in Iv.
    rewrite <- Hs. exact (Iv b Hin). }
  assert (E : call = (DuplicateBooking, st)).
  { subst call. unfold createBooking. rewrite Hv, Hfind. cbn [negb].
    unfold is_BOOKED. rewrite Hb. reflexivity. }
  rewrite E. cbn [snd]. auto.
Qed.

End Duplicates.

Lemma second_book_is_duplicate_witness :
  createBooking hex24 store_2_1 bob slot1_id booking2_id = (DuplicateBooking, store_2_1) /\
  List.length (bookings store_2_1) = 1%nat.
Proof.
  split; [|vm_compute; reflexivity].
  apply (second_book_is_duplicate hex24 store_2_1 bob slot1_id booking2_id
           (mkBooking booking1_id slot1_id bob_id BOOKED)).
  - exact (reachable_Inv hex24 store_2_1 store_2_1_reachable).
  - rewrite store_2_1_bookings. left. reflexivity.
  - reflexivity.
  - reflexivity.
  - reflexivity.
Defined.

(** ** Capacity updates *)

Lemma updateSlot_times_inr (st : Store) (adminId : ObjectId) (id : string)
    (body : UpdateSlotBody) (slot slot1 : Slot) :
  updateSlot_times st adminId id body slot = inr slot1 ->
  slot_id slot1 = slot_id slot /\ bookedCount slot1 = bookedCount slot /\
  capacity slot1 = capacity slot /\
  (startTime slot < endTime slot -> startTime slot1 < endTime slot1).
Proof.
  unfold updateSlot_times.
  destruct (is_some (us_startTime body) || is_some (us_endTime body)).
  - destruct (_ <=? _) eqn:Hle; [discriminate|].
    destruct (checkOverlap _ _ _ _ _); [discriminate|].
    intros E. injection E as <-. cbn. apply Z.leb_gt in Hle. auto.
  - intros E. injection E as <-. auto.
Qed.

Lemma Slot_validate_iff (s : Slot) :
  Slot_validate s = true <-> (1 <= capacity s)%Q /\ startTime s < endTime s.
Proof.
  unfold Slot_validate. rewrite andb_true_iff, negb_true_iff, Qle_bool_iff, Z.leb_gt.
  reflexivity.
Qed.

Lemma updateSlot_tags_fields (body : UpdateSlotBody) (s : Slot) :
  slot_id (updateSlot_tags body s) = slot_id s /\
  startTime (updateSlot_tags body s) = startTime s /\
  endTime (updateSlot_tags body s) = endTime s /\
  capacity (updateSlot_tags body s) = capacity s /\
  bookedCount (updateSlot_tags body s) = bookedCount s.
Proof. unfold updateSlot_tags. destruct (us_tags body); cbn; auto. Qed.

Section CapacityGuard.

Variable isValid : string -> bool.

(** C8, as amended.  An UpdateSlot call by the owner of a stored, valid
    slot, with a well-formed id, that requests capacity [c] and whose time
    step passes (no time field, or a valid interval without overlap): the
    call answers CapacityConflict and leaves the store as it was when
    c < bookedCount; it stores the slot with capacity c and the same
    counter when bookedCount <= c and 1 <= c; and when bookedCount <= c < 1
    the save is refused by the schema ([min: 1]) and the call answers
    Internal with the store as it was. *)
Theorem capacity_update_guard
    (st : Store) (u : User) (id : string) (body : UpdateSlotBody)
    (slot slot1 : Slot) (c : Q) :
  isValid id = true ->
  Slot_findById (slots st) id = Some slot ->
  createdBy slot = user_id u ->
  Slot_validate slot = true ->
  us_capacity body = Some c ->
  updateSlot_times st (user_id u) id body slot = inr slot1 ->
  let call := updateSlot isValid st u id body in
  ((c < inject_Z (bookedCount slot))%Q -> call = (CapacityConflict, st)) /\
  ((inject_Z (bookedCount slot) <= c)%Q -> (1 <= c)%Q ->
     exists slot',
       fst call = JsonSlot 200 slot' /\
       slot_id slot' = id /\ capacity slot' = c /\
       bookedCount slot' = bookedCount slot /\
       Slot_findById (slots (snd call)) id = Some slot' /\
       bookings (snd call) = bookings st) /\
  ((inject_Z (bookedCount slot) <= c)%Q -> (c < 1)%Q -> call = (Internal, st)).
Proof.
  intros Hv Hfind Hown Hvalid Hc Ht call.
  destruct (Slot_findById_split _ _ _ Hfind) as (l1 & l2 & Hl & Hid & Hl1).
  destruct (updateSlot_times_inr _ _ _ _ _ _ Ht) as (I1 & B1 & C1 & T1).
  apply Slot_validate_iff in Hvalid. destruct Hvalid as [_ Htime].
  specialize (T1 Htime).
  assert (Hcall : call =
    match updateSlot_capacity body slot1 with
    | inl res => (res, st)
    | inr slot2 =>
        match Slot_save (slots st) (updateSlot_tags body slot2) with
        | inl _ => (Internal, st)
        | inr slots' => (JsonSlot 200 (updateSlot_tags body slot2), set_slots st slots')
        end
    end).
  { subst call. unfold updateSlot. rewrite Hv, Hfind, Ht. cbn [negb].
    rewrite (proj2 (String.eqb_eq _ _) Hown). reflexivity. }
  unfold updateSlot_capacity in Hcall. rewrite Hc in Hcall.
  set (slot2 := mkSlot (slot_id slot1) (startTime slot1) (endTime slot1) c
                       (bookedCount slot1) (createdBy slot1) (tags slot1)) in *.
  destruct (updateSlot_tags_fields body slot2) as (I3 & S3 & E3 & C3 & B3).
  cbn [slot2 slot_id startTime endTime capacity bookedCount] in I3, S3, E3, C3, B3.
  split; [|split].
  - intros Hlt. rewrite <- B1 in Hlt. apply Qlt_bool_true in Hlt.
    rewrite Hlt in Hcall. exact Hcall.
  - intros Hge H1. rewrite <- B1 in Hge. apply Qlt_bool_false in Hge.
    rewrite Hge in Hcall.
    assert (Hval : Slot_validate (updateSlot_tags body slot2) = true).
    { apply Slot_validate_iff. rewrite C3, S3, E3. auto. }
    unfold Slot_save in Hcall. rewrite Hval in Hcall. cbn [negb] in Hcall.
    rewrite I3, I1, Hid in Hcall.
    assert (Hp : has_slot_id id slot = true) by (apply has_slot_id_true, Hid).
    rewrite Hl in Hcall at 1.
    rewrite (fou_first _ _ _ _ _ Hp Hl1) in Hcall. cbn [snd] in Hcall.
    exists (updateSlot_tags body slot2). rewrite Hcall. cbn [fst snd set_slots slots bookings].
    repeat split; try congruence.
    unfold Slot_findById. apply find_first; [|exact Hl1].
    apply has_slot_id_true. congruence.
  - intros Hge H1. rewrite <- B1 in Hge. apply Qlt_bool_false in Hge.
    rewrite Hge in Hcall.
    assert (Hval : Slot_validate (updateSlot_tags body slot2) = false).
    { unfold Slot_validate. rewrite C3.
      rewrite (proj2 (Qle_bool_false 1 c) H1). reflexivity. }
    unfold Slot_save in Hcall. rewrite Hval in Hcall. exact Hcall.
Qed.

End CapacityGuard.

Lemma capacity_update_guard_witness :
  updateSlot hex24 store_5_3 alice slot1_id (mkUpdateSlotBody None None (Some 2%Q) None)
    = (CapacityConflict, store_5_3) /\
  exists slot',
    fst (updateSlot hex24 store_5_3 alice slot1_id
           (mkUpdateSlotBody None None (Some 3%Q) None)) = JsonSlot 200 slot' /\
    capacity slot' = 3%Q /\ bookedCount slot' = 3.
Proof.
  pose (slot := mkSlot slot1_id (at_ 10 0) (at_ 11 0) 5 3 alice_id []).
  split.
  - apply (capacity_update_guard hex24 store_5_3 alice slot1_id
             (mkUpdateSlotBody None None (Some 2%Q) None) slot slot 2%Q);
      vm_compute; reflexivity.
  - destruct (capacity_update_guard hex24 store_5_3 alice slot1_id
                (mkUpdateSlotBody None None (Some 3%Q) None) slot slot 3%Q)
      as (_ & Hok & _); try (vm_compute; reflexivity).
    destruct Hok as (slot' & H1 & _ & H2 & H3 & _).
    + vm_compute. discriminate.
    + vm_compute. discriminate.
    + exists slot'. auto.
Defined.

(** C8, as stated, fails in two ways.  On the untouched slot with five
    seats, a request for capacity 0 is not below bookedCount = 0, yet it is
    not accepted: the save fails validation and the call answers Internal
    with the store as it was.  On the slot with three seats taken, a request
    for capacity 2 together with an interval that ends before it starts is
    answered InvalidInterval, not CapacityConflict. *)
Lemma capacity_not_below_bookedCount_refused :
  Slot_findById (slots store_5_0) slot1_id
    = Some (mkSlot slot1_id (at_ 10 0) (at_ 11 0) 5 0 alice_id []) /\
  updateSlot hex24 store_5_0 alice slot1_id (mkUpdateSlotBody None None (Some 0%Q) None)
    = (Internal, store_5_0) /\
  Slot_findById (slots store_5_3) slot1_id
    = Some (mkSlot slot1_id (at_ 10 0) (at_ 11 0) 5 3 alice_id []) /\
  updateSlot hex24 store_5_3 alice slot1_id
      (mkUpdateSlotBody (Some (at_ 12 0)) (Some (at_ 11 0)) (Some 2%Q) None)
    = (InvalidInterval, store_5_3).
Proof. vm_compute. repeat split. Qed.

(** ** Booking again after a cancellation *)

Section Rebooking.

Variable isValid : string -> bool.


End Rebooking.


(** ** The last seat, requests served in turn *)

Section LastSeat.

Variable isValid : string -> bool.

(** Once the slot is full, every further requester without a reservation on
    it is answered SlotFull and the store stays as it is. *)
Lemma full_slot_rejects_all (st : Store) (sid : string) (s : Slot)
    (reqs : list (User * ObjectId)) :
  isValid sid = true ->
  NoDup (map slot_id (slots st)) ->
  In s (slots st) -> slot_id s = sid ->
  (capacity s <= inject_Z (bookedCount s))%Q ->
  (forall u newId b, In (u, newId) reqs -> In b (bookings st) ->
                     slotId b = sid -> candidateId b <> user_id u) ->
  book_in_turn isValid st sid reqs = (map (fun _ => SlotFull) reqs, st).
Proof.
  intros Hv Hnd Hin Hid Hfull.
  induction reqs as [|[u newId] rest IH]; intros Hnone; [reflexivity|].
  assert (Hcall : createBooking isValid st u sid newId = (SlotFull, st)).
  { rewrite createBooking_past_precheck; [|exact Hv|].
    - assert (Hall : Forall (fun y => has_room sid y = false) (slots st)).
      { apply Forall_forall. intros y Hy. unfold has_room.
        destruct (has_slot_id sid y) eqn:E; [|reflexivity].
        apply has_slot_id_true in E. cbn [andb].
        assert (y = s) as ->.
        { apply in_split in Hin. destruct Hin as (l1 & l2 & Hl).
          rewrite Hl in Hnd, Hy.
          destruct (NoDup_key_split slot_id l1 s l2 Hnd) as [H1 H2].
          rewrite Forall_forall in H1, H2.
          apply in_app_or in Hy. destruct Hy as [Hy | [Hy | Hy]].
          - exfalso. apply (H1 y Hy). congruence.
          - congruence.
          - exfalso. apply (H2 y Hy). congruence. }
        apply Qlt_bool_false. exact Hfull. }
      rewrite (fou_all_false _ _ _ Hall).
      rewrite (proj2 (Slot_exists_true (slots st) sid)); [reflexivity|].
      exists s. auto.
    - intros b Hb Hs Hc. exfalso.
      apply (Hnone u newId b); [left; reflexivity | exact Hb | exact Hs | exact Hc]. }
  cbn [book_in_turn]. rewrite Hcall. rewrite IH; [reflexivity|].
  intros u' n' b Hr. apply (Hnone u' n' b). right. exact Hr.
Qed.

(** X14.  Requests for the last seat of a slot with capacity 1, by distinct
    requesters without a reservation on it, served one after another in any
    order: the first is booked and every later one is answered SlotFull. *)
Lemma last_seat_in_turn (st : Store) (sid : string) (s : Slot)
    (u : User) (newId : ObjectId) (rest : list (User * ObjectId)) :
  Inv isValid st -> isValid sid = true ->
  Slot_findById (slots st) sid = Some s ->
  (capacity s == 1)%Q -> bookedCount s = 0 ->
  NoDup (map (fun r => user_id (fst r)) ((u, newId) :: rest)) ->
  ~ In newId (map booking_id (bookings st)) ->
  (forall u' n' b, In (u', n') ((u, newId) :: rest) -> In b (bookings st) ->
                   slotId b = sid -> candidateId b <> user_id u') ->
  fst (book_in_turn isValid st sid ((u, newId) :: rest))
    = BookedSuccessfully :: map (fun _ => SlotFull) rest.
Proof.
  intros I Hv Hfind Hcap Hbc Hnd Hfresh Hnone.
  assert (Hpre : forall b, In b (bookings st) -> slotId b = sid ->
                           candidateId b = user_id u -> status b <> BOOKED).
  { intros b Hb Hs Hc. exfalso.
    apply (Hnone u newId b); [left; reflexivity | exact Hb | exact Hs | exact Hc]. }
  destruct (Slot_findById_split _ _ _ Hfind) as (l1 & l2 & Hl & Hid & Hl1).
  assert (Hp : has_room sid s = true).
  { unfold has_room. rewrite (proj2 (has_slot_id_true sid s) Hid). cbn [andb].
    apply Qlt_bool_true. rewrite Hbc. change (inject_Z 0) with 0%Q. lra. }
  assert (Hl1' : Forall (fun y => has_room sid y = false) l1).
  { revert Hl1. apply Forall_impl. intros y Hy. unfold has_room. rewrite Hy. reflexivity. }
  assert (Hcreate :
    Booking_create (bookings st) (mkBooking newId sid (user_id u) BOOKED)
      = inr (bookings st ++ [mkBooking newId sid (user_id u) BOOKED])).
  { unfold Booking_create. cbn [booking_id slotId candidateId].
    rewrite existsb_all_false.
    - rewrite existsb_all_false; [reflexivity|].
      apply Forall_forall. intros b Hb. apply same_pair_false. unfold pair_key.
      intros E. injection E as Es Ec.
      apply (Hnone u newId b); [left; reflexivity | exact Hb | exact Es | exact Ec].
    - apply (proj2 (all_false_not_in booking_id (has_booking_id newId) newId
                      (bookings st) (has_booking_id_false newId))).
      exact Hfresh. }
  assert (Hok : createBooking isValid st u sid newId =
                (BookedSuccessfully,
                 mkStore (users st) (l1 ++ inc_bookedCount 1 s :: l2)
                         (bookings st ++ [mkBooking newId sid (user_id u) BOOKED]))).
  { rewrite (createBooking_past_precheck isValid st u sid newId Hv Hpre).
    rewrite Hl, (fou_first _ _ _ _ _ Hp Hl1'), Hcreate. reflexivity. }
  cbn [book_in_turn]. rewrite Hok.
  rewrite (full_slot_rejects_all _ sid (inc_bookedCount 1 s) rest Hv); cbn [slots bookings].
  - reflexivity.
  - rewrite (map_key_replace slot_id l1 s) by reflexivity.
    rewrite <- Hl. exact (inv_slot_ids _ _ I).
  - apply in_or_app. right. left. reflexivity.
  - exact Hid.
  - cbn [inc_bookedCount capacity bookedCount]. rewrite Hbc.
    change (inject_Z (0 + 1)) with 1%Q. lra.
  - intros u' n' b Hr Hb Hs Hc. apply in_app_or in Hb. destruct Hb as [Hb | [<- | []]].
    + apply (Hnone u' n' b); [right; exact Hr | exact Hb | exact Hs | exact Hc].
    + cbn [candidateId] in Hc. inversion Hnd as [|? ? Hnotin _]. apply Hnotin.
      cbn [fst]. rewrite Hc. apply (in_map (fun r => user_id (fst r)) rest (u', n')). exact Hr.
Qed.

End LastSeat.

Example last_seat_three_requests :
  fst (book_in_turn hex24 (run hex24 empty_store [open_slot 1]) slot1_id
         [(carol, booking2_id); (bob, booking1_id); (dave, booking3_id)])
  = [BookedSuccessfully; SlotFull; SlotFull].
Proof. vm_compute. reflexivity. Qed.

(** ** Slots of one owner never overlap *)

Lemma overlapQuery_false_disjoint (adminId : ObjectId) (s2 e2 : Z)
    (excludeSlotId : option ObjectId) (s : Slot) :
  overlapQuery adminId s2 e2 excludeSlotId s = false ->
  createdBy s = adminId -> excludeSlotId <> Some (slot_id s) ->
  endTime s <= s2 \/ e2 <= startTime s.
Proof.
  intros Hq Ho Hex. unfold overlapQuery in Hq.
  rewrite (proj2 (String.eqb_eq _ _) Ho) in Hq. cbn [andb] in Hq.
  assert (Hclause :
    (if truthy excludeSlotId
     then match excludeSlotId with
          | Some ex => negb (slot_id s =? ex)%string
          | None => true
          end
     else true) = true).
  { destruct (truthy excludeSlotId); [|reflexivity].
    destruct excludeSlotId as [ex|]; [|reflexivity].
    apply negb_true_iff, String.eqb_neq. congruence. }
  rewrite Hclause, andb_true_r in Hq.
  apply orb_false_iff in Hq. destruct Hq as [Hq H3].
  apply orb_false_iff in Hq. destruct Hq as [H1 H2].
  apply andb_false_iff in H1, H2, H3.
  rewrite !Z.ltb_ge, !Z.leb_gt in *. lia.
Qed.

Lemma checkOverlap_false_all (l : list Slot) (adminId : ObjectId) (s2 e2 : Z)
    (excludeSlotId : option ObjectId) :
  checkOverlap l adminId s2 e2 excludeSlotId = false ->
  forall y, In y l -> overlapQuery adminId s2 e2 excludeSlotId y = false.
Proof.
  unfold checkOverlap. destruct (find _ l) eqn:E; [discriminate|].
  intros _ y Hy. exact (find_none _ _ E y Hy).
Qed.

Lemma fou_map_key {A K : Type} (key : A -> K) (p : A -> bool) (f : A -> A) (l : list A) :
  (forall x, key (f x) = key x) ->
  map key (snd (findOneAndUpdate p f l)) = map key l.
Proof.
  intros Hk. induction l as [|a l IH]; [reflexivity|].
  cbn [findOneAndUpdate]. destruct (p a).
  - cbn. rewrite Hk. reflexivity.
  - destruct (findOneAndUpdate p f l) as [o r]. cbn in *. rewrite IH. reflexivity.
Qed.

Lemma owners_slots_disjoint_footprint (l l' : list Slot) :
  map footprint l' = map footprint l ->
  owners_slots_disjoint l -> owners_slots_disjoint l'.
Proof.
  intros E H a b Ha Hb Hid Ho.
  assert (Hsame : forall x, In x l' -> exists x0, In x0 l /\ footprint x0 = footprint x).
  { intros x Hx. apply (in_map footprint) in Hx. rewrite E in Hx.
    apply in_map_iff in Hx. destruct Hx as (x0 & E0 & Hx0). eauto. }
  destruct (Hsame a Ha) as (a0 & Ha0 & Ea). destruct (Hsame b Hb) as (b0 & Hb0 & Eb).
  unfold footprint in Ea, Eb. injection Ea as Ia Oa Sa Ta. injection Eb as Ib Ob Sb Tb.
  unfold disjoint_slots. rewrite <- Sa, <- Ta, <- Sb, <- Tb.
  apply (H a0 b0); congruence.
Qed.

(** A failing branch returns the store it was given. *)
Ltac kept := let E := fresh in intros E; injection E as <- <-; left; reflexivity.

Section Disjoint.

Variable isValid : string -> bool.

Lemma updateSlot_times_interval (st : Store) (adminId : ObjectId) (id : string)
    (body : UpdateSlotBody) (slot slot1 : Slot) :
  updateSlot_times st adminId id body slot = inr slot1 ->
  createdBy slot1 = createdBy slot /\
  ((startTime slot1 = startTime slot /\ endTime slot1 = endTime slot) \/
   (startTime slot1 < endTime slot1 /\
    checkOverlap (slots st) adminId (startTime slot1) (endTime slot1) (Some id) = false)).
Proof.
  unfold updateSlot_times.
  destruct (is_some (us_startTime body) || is_some (us_endTime body)).
  - destruct (_ <=? _) eqn:Hle; [discriminate|].
    destruct (checkOverlap _ _ _ _ _) eqn:Hov; [discriminate|].
    intros E. injection E as <-. cbn. apply Z.leb_gt in Hle. auto.
  - intros E. injection E as <-. auto.
Qed.

(** What a PATCH that writes leaves of the slot and what it has checked. *)
Lemma updateSlot_written (st : Store) (u : User) (id : string) (body : UpdateSlotBody) :
  snd (updateSlot isValid st u id body) = st
  \/
  (exists l1 slot l2 slot',
     slots st = l1 ++ slot :: l2 /\ slot_id slot = id /\
     Forall (fun y => has_slot_id id y = false) l1 /\
     createdBy slot = user_id u /\
     slot_id slot' = id /\ createdBy slot' = createdBy slot /\
     bookedCount slot' = bookedCount slot /\
     ((startTime slot' = startTime slot /\ endTime slot' = endTime slot) \/
      (startTime slot' < endTime slot' /\
       checkOverlap (slots st) (user_id u) (startTime slot') (endTime slot') (Some id)
         = false)) /\
     snd (updateSlot isValid st u id body)
       = mkStore (users st) (l1 ++ slot' :: l2) (bookings st)).
Proof.
  destruct (updateSlot isValid st u id body) as [res st'] eqn:E.
  cbn [snd]. revert E. unfold updateSlot.
  destruct (isValid id); simpl negb; cbv iota; [|kept].
  unfold Slot_findById.
  destruct (first_split (has_slot_id id) (slots st))
    as [Hnone | (l1 & slot & l2 & Hs & Hp & Hl1)].
  { rewrite (find_all_false _ _ Hnone). kept. }
  rewrite Hs at 1. rewrite (find_first _ _ _ _ Hp Hl1).
  destruct (negb (createdBy slot =? user_id u)%string) eqn:Hown; [kept|].
  apply negb_false_iff, String.eqb_eq in Hown.
  destruct (updateSlot_times st (user_id u) id body slot) as [r|slot1] eqn:Ht; [kept|].
  destruct (updateSlot_capacity body slot1) as [r|slot2] eqn:Hc; [kept|].
  unfold Slot_save.
  destruct (Slot_validate (updateSlot_tags body slot2));
    simpl negb; cbv iota; [|kept].
  destruct (updateSlot_times_inr _ _ _ _ _ _ Ht) as (I1 & B1 & _ & _).
  destruct (updateSlot_times_interval _ _ _ _ _ _ Ht) as (O1 & T1).
  assert (H2 : slot_id slot2 = slot_id slot1 /\ bookedCount slot2 = bookedCount slot1
               /\ createdBy slot2 = createdBy slot1 /\ startTime slot2 = startTime slot1
               /\ endTime slot2 = endTime slot1).
  { unfold updateSlot_capacity in Hc. destruct (us_capacity body) as [c|].
    - destruct (Qlt_bool c (inject_Z (bookedCount slot1))); [discriminate|].
      injection Hc as <-. cbn. auto.
    - injection Hc as <-. auto 6. }
  assert (H3 : createdBy (updateSlot_tags body slot2) = createdBy slot2).
  { unfold updateSlot_tags. destruct (us_tags body); auto. }
  destruct (updateSlot_tags_fields body slot2) as (I3 & S3 & E3 & _ & B3).
  destruct H2 as (I2 & B2 & O2 & S2 & E2).
  apply has_slot_id_true in Hp as Hid.
  replace (slot_id (updateSlot_tags body slot2)) with id by congruence.
  rewrite Hs at 1. rewrite (fou_first _ _ _ _ _ Hp Hl1). cbn [snd].
  intros E. injection E as <- <-. right.
  exists l1, slot, l2, (updateSlot_tags body slot2).
  repeat split; auto; try congruence.
Qed.

Lemma In_replaced {A : Type} (l1 : list A) (x x' : A) (l2 : list A) (a : A) :
  In a (l1 ++ x' :: l2) -> a = x' \/ In a (l1 ++ x :: l2).
Proof.
  intros H. apply in_app_or in H. destruct H as [H | [H | H]]; auto.
  - right. apply in_or_app. auto.
  - right. apply in_or_app. right. right. exact H.
Qed.

Lemma transition_keeps_disjoint (st st' : Store) :
  transition isValid st st' ->
  owners_slots_disjoint (slots st) -> owners_slots_disjoint (slots st').
Proof.
  intros Ht H. destruct Ht as [st u body newId | st u id body | st u id
                              | st u sid newId | st userId id].
  - destruct (createSlot_cases st u body newId)
      as [[_ ->] | (c & slot & _ & Hslot & _ & _ & Hov & ->)]; [exact H|].
    cbn [snd slots]. intros a b Ha Hb Hid Ho.
    apply in_app_or in Ha. apply in_app_or in Hb.
    destruct Ha as [Ha | [<- | []]], Hb as [Hb | [<- | []]].
    + apply H; assumption.
    + pose proof (checkOverlap_false_all _ _ _ _ _ Hov a Ha) as Hq.
      apply overlapQuery_false_disjoint in Hq; [|rewrite Hslot in Ho; exact Ho | discriminate].
      unfold disjoint_slots. rewrite Hslot. cbn [startTime endTime]. lia.
    + pose proof (checkOverlap_false_all _ _ _ _ _ Hov b Hb) as Hq.
      apply overlapQuery_false_disjoint in Hq;
        [|rewrite Hslot in Ho; symmetry; exact Ho | discriminate].
      unfold disjoint_slots. rewrite Hslot. cbn [startTime endTime]. lia.
    + contradiction Hid. reflexivity.
  - destruct (updateSlot_written st u id body)
      as [-> | (l1 & slot & l2 & slot' & Hs & Hsid & _ & Hown & Hid' & Ho' & _ & Htime & ->)];
      [exact H|].
    cbn [slots]. rewrite Hs in H.
    assert (Hslot : In slot (l1 ++ slot :: l2))
      by (apply in_or_app; right; left; reflexivity).
    assert (Hone : forall y, In y (l1 ++ slot :: l2) -> slot_id y <> id ->
                             createdBy y = user_id u -> disjoint_slots slot' y).
    { intros y Hy Hne Hoy. destruct Htime as [[Ts Te] | [_ Hov]].
      - unfold disjoint_slots. rewrite Ts, Te.
        apply (H slot y); auto; congruence.
      - rewrite Hs in Hov.
        pose proof (checkOverlap_false_all _ _ _ _ _ Hov y Hy) as Hq.
        apply overlapQuery_false_disjoint in Hq; [|exact Hoy | congruence].
        unfold disjoint_slots. lia. }
    intros a b Ha Hb Hid Ho.
    apply (In_replaced l1 slot) in Ha. apply (In_replaced l1 slot) in Hb.
    destruct Ha as [-> | Ha], Hb as [-> | Hb].
    + contradiction Hid. reflexivity.
    + apply Hone; [exact Hb | congruence | congruence].
    + assert (D : disjoint_slots slot' a)
        by (apply Hone; [exact Ha | congruence | congruence]).
      unfold disjoint_slots in *. lia.
    + apply H; assumption.
  - destruct (deleteSlot_cases isValid st u id)
      as [[_ ->] | (l1 & s & l2 & Hs & _ & _ & _ & ->)]; [exact H|].
    cbn [snd slots]. rewrite Hs in H. intros a b Ha Hb.
    apply H; apply in_or_app.
    + apply in_app_or in Ha. destruct Ha; [left | right; right]; assumption.
    + apply in_app_or in Hb. destruct Hb; [left | right; right]; assumption.
  - destruct (createBooking_cases isValid st u sid newId)
      as [[_ ->] | (l1 & s & l2 & _ & Hs & _ & _ & _ & _ & ->)]; [exact H|].
    cbn [snd slots]. revert H. apply owners_slots_disjoint_footprint.
    rewrite Hs. apply map_key_replace. reflexivity.
  - destruct (cancelBooking_as_cases isValid userId st id)
      as [[_ ->] | (l1 & b & l2 & _ & _ & _ & _ & _ & _ & ->)]; [exact H|].
    cbn [snd slots]. revert H. apply owners_slots_disjoint_footprint.
    apply fou_map_key. reflexivity.
Qed.

Lemma reachable_disjoint (st : Store) :
  reachable isValid st -> owners_slots_disjoint (slots st).
Proof.
  induction 1 as [us | st u body newId _ IH | st u id body _ IH | st u id _ IH
                 | st u sid newId _ IH | st userId id _ IH].
  - intros a b [].
  - exact (transition_keeps_disjoint _ _ (tr_createSlot isValid st u body newId) IH).
  - exact (transition_keeps_disjoint _ _ (tr_updateSlot isValid st u id body) IH).
  - exact (transition_keeps_disjoint _ _ (tr_deleteSlot isValid st u id) IH).
  - exact (transition_keeps_disjoint _ _ (tr_createBooking isValid st u sid newId) IH).
  - exact (transition_keeps_disjoint _ _ (tr_cancelBooking isValid st userId id) IH).
Qed.

(** X1.  In every reachable store, two slots of the same owner with
    different ids share no instant: one ends no later than the other
    starts. *)
Theorem owners_slots_never_overlap (st : Store) (a b : Slot) :
  reachable isValid st ->
  In a (slots st) -> In b (slots st) -> slot_id a <> slot_id b ->
  createdBy a = createdBy b ->
  endTime a <= startTime b \/ endTime b <= startTime a.
Proof.
  intros Hreach. revert a b. change (owners_slots_disjoint (slots st)).
  induction Hreach as [us | st u body newId _ IH | st u id body _ IH | st u id _ IH
                      | st u sid newId _ IH | st userId id _ IH].
  - intros a b [].
  - apply (transition_keeps_disjoint st); [apply tr_createSlot | exact IH].
  - apply (transition_keeps_disjoint st); [apply tr_updateSlot | exact IH].
  - apply (transition_keeps_disjoint st); [apply tr_deleteSlot | exact IH].
  - apply (transition_keeps_disjoint st); [apply tr_createBooking | exact IH].
  - apply (transition_keeps_disjoint st); [apply tr_cancelBooking | exact IH].
Qed.

End Disjoint.

Lemma store_two_slots_reachable : reachable hex24 store_two_slots.
Proof. apply run_reachable, empty_store_reachable. Qed.

Lemma store_two_slots_contents :
  slots store_two_slots
    = [mkSlot slot1_id (at_ 10 0) (at_ 11 0) 2 1 alice_id [];
       mkSlot slot2_id (at_ 11 0) (at_ 12 0) 3 0 alice_id []] /\
  bookings store_two_slots = [mkBooking booking1_id slot1_id bob_id BOOKED].
Proof. vm_compute. split; reflexivity. Qed.

Lemma owners_slots_never_overlap_witness :
  at_ 11 0 <= at_ 11 0 \/ at_ 12 0 <= at_ 10 0.
Proof.
  apply (owners_slots_never_overlap hex24 store_two_slots
           (mkSlot slot1_id (at_ 10 0) (at_ 11 0) 2 1 alice_id [])
           (mkSlot slot2_id (at_ 11 0) (at_ 12 0) 3 0 alice_id [])
           store_two_slots_reachable).
  - rewrite (proj1 store_two_slots_contents). left. reflexivity.
  - rewrite (proj1 store_two_slots_contents). right. left. reflexivity.
  - cbn. discriminate.
  - reflexivity.
Defined.

(** ** Well-formed stores *)

Lemma Slot_findById_In (l : list Slot) (s : Slot) :
  NoDup (map slot_id l) -> In s l -> Slot_findById l (slot_id s) = Some s.
Proof.
  intros Hnd Hin. apply in_split in Hin. destruct Hin as (l1 & l2 & ->).
  destruct (NoDup_key_split slot_id l1 s l2 Hnd) as [H1 _].
  unfold Slot_findById. apply find_first.
  - apply has_slot_id_true. reflexivity.
  - revert H1. apply Forall_impl. intros y Hy. apply has_slot_id_false. exact Hy.
Qed.

Section WellFormed.

Variable isValid : string -> bool.

(** X2.  In every reachable store a slot and a candidate have at most one
    reservation between them, whatever its status, and no two reservations
    and no two slots share an id. *)
Theorem one_reservation_per_pair (st : Store) :
  reachable isValid st ->
  (forall b1 b2, In b1 (bookings st) -> In b2 (bookings st) ->
     slotId b1 = slotId b2 -> candidateId b1 = candidateId b2 -> b1 = b2) /\
  (forall b1 b2, In b1 (bookings st) -> In b2 (bookings st) ->
     booking_id b1 = booking_id b2 -> b1 = b2) /\
  (forall s1 s2, In s1 (slots st) -> In s2 (slots st) ->
     slot_id s1 = slot_id s2 -> s1 = s2).
Proof.
  intros Hreach. pose proof (reachable_Inv isValid st Hreach) as I.
  split; [|split].
  - intros b1 b2 H1 H2 Es Ec.
    apply (NoDup_map_eq pair_key (bookings st)); auto.
    + exact (inv_pairs _ _ I).
    + unfold pair_key. rewrite Es, Ec. reflexivity.
  - intros b1 b2. apply NoDup_map_eq. exact (inv_booking_ids _ _ I).
  - intros s1 s2. apply NoDup_map_eq. exact (inv_slot_ids _ _ I).
Qed.

(** X3.  In every reachable store a BOOKED reservation names a slot that is
    stored, that a lookup by id returns, and whose counter is at least 1. *)
Theorem booked_reservation_has_its_slot (st : Store) (b : Booking) :
  reachable isValid st ->
  In b (bookings st) -> status b = BOOKED ->
  exists s, In s (slots st) /\ Slot_findById (slots st) (slotId b) = Some s /\
            1 <= bookedCount s.
Proof.
  intros Hreach Hin Hb. pose proof (reachable_Inv isValid st Hreach) as I.
  assert (Hbk : is_BOOKED b = true) by (unfold is_BOOKED; rewrite Hb; reflexivity).
  pose proof (inv_ref _ _ I) as Iref. rewrite Forall_forall in Iref.
  specialize (Iref b Hin Hbk). apply in_map_iff in Iref.
  destruct Iref as (s & Hid & Hs).
  exists s. split; [exact Hs|]. split.
  - rewrite <- Hid. apply Slot_findById_In; [exact (inv_slot_ids _ _ I) | exact Hs].
  - pose proof (inv_count _ _ I) as Ic. rewrite Forall_forall in Ic.
    rewrite (Ic s Hs), Hid. apply activeCount_pos; assumption.
Qed.

(** X4.  In every reachable store each slot has startTime < endTime and a
    capacity of at least 1. *)
Theorem stored_slots_are_valid (st : Store) (s : Slot) :
  reachable isValid st -> In s (slots st) ->
  startTime s < endTime s /\ (1 <= capacity s)%Q.
Proof.
  intros Hreach Hin. pose proof (reachable_Inv isValid st Hreach) as I.
  pose proof (inv_valid _ _ I) as Iv. rewrite Forall_forall in Iv.
  specialize (Iv s Hin). apply Slot_validate_iff in Iv. tauto.
Qed.

End WellFormed.

Lemma one_reservation_per_pair_witness :
  In (mkBooking booking2_id slot1_id carol_id BOOKED) (bookings store_5_3) /\
  mkBooking booking2_id slot1_id carol_id BOOKED
    = mkBooking booking2_id slot1_id carol_id BOOKED.
Proof.
  assert (Hin : In (mkBooking booking2_id slot1_id carol_id BOOKED) (bookings store_5_3))
    by (vm_compute; right; left; reflexivity).
  split; [exact Hin|].
  apply (proj1 (one_reservation_per_pair hex24 store_5_3 store_5_3_reachable));
    [exact Hin | exact Hin | reflexivity | reflexivity].
Defined.

Lemma booked_reservation_has_its_slot_witness :
  exists s, In s (slots store_two_slots) /\
            Slot_findById (slots store_two_slots) slot1_id = Some s /\
            1 <= bookedCount s.
Proof.
  apply (booked_reservation_has_its_slot hex24 store_two_slots
           (mkBooking booking1_id slot1_id bob_id BOOKED) store_two_slots_reachable).
  - rewrite (proj2 store_two_slots_contents). left. reflexivity.
  - reflexivity.
Defined.

Lemma stored_slots_are_valid_witness :
  at_ 11 0 < at_ 12 0 /\ (1 <= 3)%Q.
Proof.
  apply (stored_slots_are_valid hex24 store_two_slots
           (mkSlot slot2_id (at_ 11 0) (at_ 12 0) 3 0 alice_id [])
           store_two_slots_reachable).
  rewrite (proj1 store_two_slots_contents). right. left. reflexivity.
Defined.

(** ** Deleting a slot *)

Lemma find_skip {A : Type} (p : A -> bool) (l1 : list A) (x : A) (l2 : list A) :
  p x = false -> find p (l1 ++ x :: l2) = find p (l1 ++ l2).
Proof.
  intros Hx. induction l1 as [|a l1 IH]; cbn [app find].
  - rewrite Hx. reflexivity.
  - rewrite IH. reflexivity.
Qed.

Section Deletion.

Variable isValid : string -> bool.

(** What a DELETE that removes has checked. *)
Lemma deleteSlot_deleted (st : Store) (u : User) (id : string) :
  (fst (deleteSlot isValid st u id) <> DeletedSuccessfully /\
   snd (deleteSlot isValid st u id) = st)
  \/
  (exists l1 s l2,
     isValid id = true /\
     slots st = l1 ++ s :: l2 /\ slot_id s = id /\
     Forall (fun y => has_slot_id id y = false) l1 /\
     createdBy s = user_id u /\ bookedCount s <= 0 /\
     deleteSlot isValid st u id
       = (DeletedSuccessfully, mkStore (users st) (l1 ++ l2) (bookings st))).
Proof.
  destruct (deleteSlot isValid st u id) as [res st'] eqn:E.
  cbn [fst snd]. revert E. unfold deleteSlot.
  destruct (isValid id); simpl negb; cbv iota; [|unchanged].
  unfold Slot_findById.
  destruct (first_split (has_slot_id id) (slots st))
    as [Hnone | (l1 & s & l2 & Hs & Hp & Hl1)].
  { rewrite (find_all_false _ _ Hnone). unchanged. }
  rewrite Hs at 1. rewrite (find_first _ _ _ _ Hp Hl1).
  destruct (negb (createdBy s =? user_id u)%string) eqn:Hown; [unchanged|].
  apply negb_false_iff, String.eqb_eq in Hown.
  destruct (0 <? bookedCount s) eqn:Hb; [unchanged|].
  unfold set_slots. rewrite Hs at 1. rewrite (deleteOne_first _ _ _ _ Hp Hl1).
  intros E. injection E as <- <-. right.
  exists l1, s, l2. apply Z.ltb_ge in Hb. apply has_slot_id_true in Hp.
  repeat split; auto.
Qed.

(** X5.  In a reachable store, a DELETE of the slot of a BOOKED reservation
    never removes it: the owner is answered HasActiveBookings, anyone else
    Forbidden, and the store stays as it was. *)
Theorem booked_slot_is_not_deleted (st : Store) (u : User) (b : Booking) :
  reachable isValid st ->
  In b (bookings st) -> status b = BOOKED ->
  exists s,
    Slot_findById (slots st) (slotId b) = Some s /\
    deleteSlot isValid st u (slotId b)
      = (if (createdBy s =? user_id u)%string then HasActiveBookings else Forbidden, st).
Proof.
  intros Hreach Hin Hb. pose proof (reachable_Inv isValid st Hreach) as I.
  assert (Hbk : is_BOOKED b = true) by (unfold is_BOOKED; rewrite Hb; reflexivity).
  pose proof (inv_ref _ _ I) as Iref. rewrite Forall_forall in Iref.
  specialize (Iref b Hin Hbk). apply in_map_iff in Iref.
  destruct Iref as (s & Hid & Hs).
  assert (Hfind : Slot_findById (slots st) (slotId b) = Some s).
  { rewrite <- Hid. apply Slot_findById_In; [exact (inv_slot_ids _ _ I) | exact Hs]. }
  assert (Hpos : 1 <= bookedCount s).
  { pose proof (inv_count _ _ I) as Ic. rewrite Forall_forall in Ic.
    rewrite (Ic s Hs), Hid. apply activeCount_pos; assumption. }
  assert (Hv : isValid (slotId b) = true).
  { pose proof (inv_ref_valid _ _ I) as Iv. rewrite Forall_forall in Iv. exact (Iv b Hin). }
  exists s. split; [exact Hfind|].
  unfold deleteSlot. rewrite Hv, Hfind. cbn [negb].
  destruct (createdBy s =? user_id u)%string; cbn [negb]; [|reflexivity].
  rewrite (proj2 (Z.ltb_lt 0 (bookedCount s))) by lia. reflexivity.
Qed.

(** X6.  In a reachable store, after a DELETE that answers 200: a lookup of
    the id finds nothing and GET /slots/:id answers 404, the other slots and
    all reservations are as before, every reservation that names the id is
    CANCELLED, and every Book on the id answers NotFound. *)
Theorem deleted_slot_is_gone (st : Store) (u : User) (id : string) :
  reachable isValid st ->
  fst (deleteSlot isValid st u id) = DeletedSuccessfully ->
  let st' := snd (deleteSlot isValid st u id) in
  Slot_findById (slots st') id = None /\
  getSlotById isValid st' id = inl SlotNotFound /\
  (forall id', id' <> id ->
     Slot_findById (slots st') id' = Slot_findById (slots st) id') /\
  bookings st' = bookings st /\
  (forall b, In b (bookings st) -> slotId b = id -> status b = CANCELLED) /\
  (forall u' newId, createBooking isValid st' u' id newId = (NotFound, st')).
Proof.
  intros Hreach Hok st'. pose proof (reachable_Inv isValid st Hreach) as I.
  destruct (deleteSlot_deleted st u id)
    as [[Hne _] | (l1 & s & l2 & Hv & Hs & Hid & Hl1 & _ & Hbc & E)]; [contradiction|].
  subst st'. rewrite E. cbn [snd slots bookings].
  pose proof (inv_slot_ids _ _ I) as Hnd. rewrite Hs in Hnd.
  destruct (NoDup_key_split slot_id l1 s l2 Hnd) as [_ H2].
  assert (Hall : Forall (fun y => has_slot_id id y = false) (l1 ++ l2)).
  { apply Forall_app. split; [exact Hl1|]. revert H2. apply Forall_impl.
    intros y Hy. apply has_slot_id_false. congruence. }
  assert (Hnone : Slot_findById (l1 ++ l2) id = None)
    by (apply find_all_false; exact Hall).
  assert (Hcancelled : forall b, In b (bookings st) -> slotId b = id -> status b = CANCELLED).
  { intros b Hb Hsid. destruct (status b) eqn:Hst; [|reflexivity]. exfalso.
    assert (Hbk : is_BOOKED b = true) by (unfold is_BOOKED; rewrite Hst; reflexivity).
    pose proof (activeCount_pos _ _ Hb Hbk) as Hpos.
    pose proof (inv_count _ _ I) as Ic. rewrite Forall_forall in Ic.
    assert (Hin : In s (slots st)) by (rewrite Hs; apply in_or_app; right; left; reflexivity).
    rewrite (Ic s Hin), Hid, <- Hsid in Hbc. lia. }
  split; [exact Hnone|]. split.
  { unfold getSlotById. rewrite Hv. cbn [negb slots]. rewrite Hnone. reflexivity. }
  split.
  { intros id' Hne. unfold Slot_findById. rewrite Hs. symmetry. apply find_skip.
    apply has_slot_id_false. congruence. }
  split; [reflexivity|]. split; [exact Hcancelled|].
  intros u' newId. rewrite createBooking_past_precheck; [|exact Hv|].
  - cbn [slots]. rewrite (fou_all_false (has_room id) (inc_bookedCount 1) (l1 ++ l2)).
    + unfold Slot_exists. rewrite (existsb_all_false _ _ Hall). reflexivity.
    + revert Hall. apply Forall_impl. intros y Hy. unfold has_room. rewrite Hy. reflexivity.
  - cbn [bookings]. intros b Hb Hsid _. rewrite (Hcancelled b Hb Hsid). discriminate.
Qed.

(** X7.  A PATCH or a DELETE changes the store only for the requester who
    created the slot that the well-formed id names. *)
Theorem only_the_owner_writes_a_slot (st : Store) (u : User) (id : string)
    (body : UpdateSlotBody) :
  (snd (updateSlot isValid st u id body) <> st ->
   exists slot, Slot_findById (slots st) id = Some slot /\
                createdBy slot = user_id u /\ isValid id = true) /\
  (snd (deleteSlot isValid st u id) <> st ->
   exists slot, Slot_findById (slots st) id = Some slot /\
                createdBy slot = user_id u /\ isValid id = true).
Proof.
  split; intros Hch.
  - destruct (updateSlot_written isValid st u id body)
      as [H | (l1 & slot & l2 & slot' & Hs & Hid & Hl1 & Hown & _)]; [contradiction|].
    exists slot. split; [|split; [exact Hown|]].
    + unfold Slot_findById. rewrite Hs. apply find_first; [|exact Hl1].
      apply has_slot_id_true, Hid.
    + destruct (isValid id) eqn:Hv; [reflexivity|]. exfalso. apply Hch.
      unfold updateSlot. rewrite Hv. reflexivity.
  - destruct (deleteSlot_deleted st u id)
      as [[_ H] | (l1 & s & l2 & Hv & Hs & Hid & Hl1 & Hown & _)]; [contradiction|].
    exists s. split; [|split; assumption].
    unfold Slot_findById. rewrite Hs. apply find_first; [|exact Hl1].
    apply has_slot_id_true, Hid.
Qed.

End Deletion.

Lemma booked_slot_is_not_deleted_witness :
  deleteSlot hex24 store_two_slots alice slot1_id = (HasActiveBookings, store_two_slots) /\
  createdBy (mkSlot slot1_id (at_ 10 0) (at_ 11 0) 2 1 alice_id []) = user_id alice.
Proof.
  split; [|reflexivity].
  destruct (booked_slot_is_not_deleted hex24 store_two_slots alice
              (mkBooking booking1_id slot1_id bob_id BOOKED) store_two_slots_reachable)
    as (s & Hfind & Hdel).
  - rewrite (proj2 store_two_slots_contents). left. reflexivity.
  - reflexivity.
  - cbn [slotId] in Hfind, Hdel. rewrite Hdel.
    assert (Hs : s = mkSlot slot1_id (at_ 10 0) (at_ 11 0) 2 1 alice_id []).
    { rewrite (proj1 store_two_slots_contents) in Hfind. vm_compute in Hfind.
      injection Hfind as <-. reflexivity. }
    rewrite Hs. reflexivity.
Defined.

Lemma deleted_slot_is_gone_witness :
  let st' := snd (deleteSlot hex24 store_two_slots alice slot2_id) in
  Slot_findById (slots st') slot2_id = None /\
  createBooking hex24 st' bob slot2_id booking2_id = (NotFound, st').
Proof.
  destruct (deleted_slot_is_gone hex24 store_two_slots alice slot2_id
              store_two_slots_reachable) as (H1 & _ & _ & _ & _ & H2).
  - vm_compute. reflexivity.
  - split; [exact H1 | exact (H2 bob booking2_id)].
Defined.

Lemma only_the_owner_writes_a_slot_witness :
  exists slot, Slot_findById (slots store_5_0) slot1_id = Some slot /\
               createdBy slot = user_id alice /\ hex24 slot1_id = true.
Proof.
  apply (proj1 (only_the_owner_writes_a_slot hex24 store_5_0 alice slot1_id
                  (mkUpdateSlotBody None None (Some 7%Q) None))).
  vm_compute. discriminate.
Defined.

(** ** Who can write, and what each handler leaves alone *)

Section Frames.

Variable isValid : string -> bool.

Lemma authenticate_inr (st : Store) (h : option string) (u : User) :
  authenticate isValid st h = inr u ->
  h = Some (user_id u) /\ user_id u <> "" /\ isValid (user_id u) = true /\
  User_findById (users st) (user_id u) = Some u.
Proof.
  unfold authenticate. destruct h as [id|]; [|discriminate].
  destruct (negb (truthy (Some id)) || negb (isValid id)) eqn:Hg; [discriminate|].
  apply orb_false_iff in Hg. destruct Hg as [Ht Hv].
  apply negb_false_iff in Ht, Hv.
  unfold User_findById.
  destruct (find _ (users st)) as [user|] eqn:Hf; [|discriminate].
  intros E. injection E as ->.
  pose proof (find_some _ _ Hf) as [_ Hid]. apply String.eqb_eq in Hid. subst id.
  cbn [truthy] in Ht. apply negb_true_iff, String.eqb_neq in Ht.
  repeat split; auto.
Qed.

(** X8.  A request through the routes changes the store only when its
    [x-user-id] header is the non-empty, well-formed id of a stored user
    who has the role the route requires: ADMIN for the slot routes,
    CANDIDATE for the booking routes. *)
Theorem routes_write_only_for_the_role (st : Store) (r : Request) :
  snd (handle isValid st r) <> st ->
  exists u,
    request_header r = Some (user_id u) /\
    User_findById (users st) (user_id u) = Some u /\
    user_id u <> "" /\ isValid (user_id u) = true /\
    role u = required_role r.
Proof.
  intros Hch.
  assert (Hg : forall h req handler,
             snd (guarded isValid st h req handler) <> st ->
             exists u, h = Some (user_id u) /\
                       User_findById (users st) (user_id u) = Some u /\
                       user_id u <> "" /\ isValid (user_id u) = true /\ role u = req).
  { intros h req handler. unfold guarded.
    destruct (authenticate isValid st h) as [res|user] eqn:Ha;
      [intros H; contradiction H; reflexivity|].
    unfold authorize. destruct (Role_eqb (role user) req) eqn:Hr; cbn [negb];
      [|intros H; contradiction H; reflexivity].
    intros _. destruct (authenticate_inr _ _ _ Ha) as (E & Hne & Hv & Hf).
    exists user. repeat split; auto.
    destruct (role user), req; (reflexivity || discriminate). }
  destruct r as [h body newId | h id body | h id | h sid newId | h id];
    cbn [handle request_header required_role] in *; exact (Hg _ _ _ Hch).
Qed.

(** X9.  No handler touches the users.  The slot handlers leave every
    reservation as it is.  The booking handlers neither add nor remove a
    slot and leave the id, interval, capacity, owner and tags of every slot
    as they are: only occupancy counters move. *)
Theorem handlers_leave_the_rest_alone (st : Store) (u : User) :
  (forall body newId,
     users (snd (createSlot st u body newId)) = users st /\
     bookings (snd (createSlot st u body newId)) = bookings st) /\
  (forall id body,
     users (snd (updateSlot isValid st u id body)) = users st /\
     bookings (snd (updateSlot isValid st u id body)) = bookings st) /\
  (forall id,
     users (snd (deleteSlot isValid st u id)) = users st /\
     bookings (snd (deleteSlot isValid st u id)) = bookings st) /\
  (forall sid newId,
     users (snd (createBooking isValid st u sid newId)) = users st /\
     map slot_terms (slots (snd (createBooking isValid st u sid newId)))
       = map slot_terms (slots st)) /\
  (forall userId id,
     users (snd (cancelBooking_as isValid userId st id)) = users st /\
     map slot_terms (slots (snd (cancelBooking_as isValid userId st id)))
       = map slot_terms (slots st)).
Proof.
  split; [|split; [|split; [|split]]].
  - intros body newId. destruct (createSlot_cases st u body newId)
      as [[_ ->] | (c & slot & _ & _ & _ & _ & _ & ->)]; auto.
  - intros id body. destruct (updateSlot_cases isValid st u id body)
      as [[_ ->] | (l1 & slot & l2 & slot' & _ & _ & _ & _ & _ & _ & _ & ->)]; auto.
  - intros id. destruct (deleteSlot_cases isValid st u id)
      as [[_ ->] | (l1 & s & l2 & _ & _ & _ & _ & ->)]; auto.
  - intros sid newId. destruct (createBooking_cases isValid st u sid newId)
      as [[_ ->] | (l1 & s & l2 & _ & Hs & _ & _ & _ & _ & ->)]; auto.
    cbn [snd users slots]. split; [reflexivity|].
    rewrite Hs. apply map_key_replace. reflexivity.
  - intros userId id. destruct (cancelBooking_as_cases isValid userId st id)
      as [[_ ->] | (l1 & b & l2 & _ & _ & _ & _ & _ & _ & ->)]; auto.
    cbn [snd users slots]. split; [reflexivity|].
    apply fou_map_key. reflexivity.
Qed.

(** One handler call keeps every reservation, with its id, slot and
    candidate; a CANCELLED one stays CANCELLED. *)
Lemma transition_keeps_reservations (st st' : Store) (b : Booking) :
  transition isValid st st' -> In b (bookings st) ->
  exists b', In b' (bookings st') /\
             booking_id b' = booking_id b /\ slotId b' = slotId b /\
             candidateId b' = candidateId b /\
             (status b = CANCELLED -> status b' = CANCELLED).
Proof.
  intros Ht Hin.
  assert (Hsame : bookings st' = bookings st ->
                  exists b', In b' (bookings st') /\
                    booking_id b' = booking_id b /\ slotId b' = slotId b /\
                    candidateId b' = candidateId b /\
                    (status b = CANCELLED -> status b' = CANCELLED)).
  { intros E. exists b. rewrite E. auto. }
  destruct Ht as [st u body newId | st u id body | st u id
                 | st u sid newId | st userId id].
  - apply Hsame. destruct (createSlot_cases st u body newId)
      as [[_ ->] | (c & slot & _ & _ & _ & _ & _ & ->)]; reflexivity.
  - apply Hsame. destruct (updateSlot_cases isValid st u id body)
      as [[_ ->] | (l1 & slot & l2 & slot' & _ & _ & _ & _ & _ & _ & _ & ->)]; reflexivity.
  - apply Hsame. destruct (deleteSlot_cases isValid st u id)
      as [[_ ->] | (l1 & s & l2 & _ & _ & _ & _ & ->)]; reflexivity.
  - destruct (createBooking_cases isValid st u sid newId)
      as [[_ ->] | (l1 & s & l2 & _ & _ & _ & _ & _ & _ & ->)];
      [exists b; auto|].
    exists b. cbn [snd bookings]. split; [apply in_or_app; left; exact Hin | auto].
  - destruct (cancelBooking_as_cases isValid userId st id)
      as [[_ ->] | (l1 & b0 & l2 & _ & Hs & _ & _ & _ & _ & ->)];
      [exists b; auto|].
    cbn [snd bookings]. rewrite Hs in Hin.
    apply in_app_or in Hin. destruct Hin as [Hin | [<- | Hin]].
    + exists b. split; [apply in_or_app; left; exact Hin | auto].
    + exists (set_status b0 CANCELLED).
      split; [apply in_or_app; right; left; reflexivity | cbn; auto].
    + exists b. split; [apply in_or_app; right; right; exact Hin | auto].
Qed.

(** X10.  Over any number of handler calls a reservation is never removed
    and keeps its id, slot and candidate, and a CANCELLED reservation never
    becomes BOOKED again. *)
Theorem reservations_are_kept (st st' : Store) (b : Booking) :
  reaches isValid st st' -> In b (bookings st) ->
  exists b', In b' (bookings st') /\
             booking_id b' = booking_id b /\ slotId b' = slotId b /\
             candidateId b' = candidateId b /\
             (status b = CANCELLED -> status b' = CANCELLED).
Proof.
  intros Hr. induction Hr as [st | st st1 st2 _ IH Ht]; intros Hin.
  - exists b. auto.
  - destruct (IH Hin) as (b1 & Hin1 & I1 & S1 & C1 & K1).
    destruct (transition_keeps_reservations st1 st2 b1 Ht Hin1)
      as (b2 & Hin2 & I2 & S2 & C2 & K2).
    exists b2. repeat split; try congruence. auto.
Qed.

End Frames.

Lemma routes_write_only_for_the_role_witness :
  exists u,
    request_header (open_slot 5) = Some (user_id u) /\
    User_findById (users empty_store) (user_id u) = Some u /\
    user_id u <> "" /\ hex24 (user_id u) = true /\
    role u = ADMIN.
Proof.
  apply (routes_write_only_for_the_role hex24 empty_store (open_slot 5)).
  vm_compute. discriminate.
Defined.

Lemma reservations_are_kept_witness :
  exists b', In b' (bookings store_2_0_cancelled) /\
             booking_id b' = booking1_id /\ slotId b' = slot1_id /\
             candidateId b' = bob_id /\
             (BOOKED = CANCELLED -> status b' = CANCELLED).
Proof.
  apply (reservations_are_kept hex24 store_2_1 store_2_0_cancelled
           (mkBooking booking1_id slot1_id bob_id BOOKED)).
  - apply (reaches_step hex24 store_2_1 store_2_1); [apply reaches_refl|].
    apply (tr_cancelBooking hex24 store_2_1 (JStr bob_id) booking1_id).
  - rewrite store_2_1_bookings. left. reflexivity.
Defined.

(** ** Reading a slot and booking it *)

Lemma js_or_zero_id (x : Z) : js_or_zero x = x.
Proof.
  unfold js_or_zero. destruct (x =? 0) eqn:E; [|reflexivity].
  apply Z.eqb_eq in E. congruence.
Qed.

Section Reading.

Variable isValid : string -> bool.

(** X11.  In a reachable store, when GET /slots/:id answers with a slot, its
    availableSeats is capacity - bookedCount; it is above -1 and at most the
    capacity, and it is not negative when the capacity is a whole number.
    For a requester without a BOOKED reservation on the slot: at
    availableSeats <= 0 a Book is answered SlotFull and changes nothing; at
    availableSeats > 0 a Book is answered 201 or DuplicateBooking, never
    SlotFull or NotFound. *)
Theorem availableSeats_tells_if_a_seat_is_left (st : Store) (id : string) (v : SlotView) :
  reachable isValid st ->
  getSlotById isValid st id = inr v ->
  In (view_doc v) (slots st) /\ slot_id (view_doc v) = id /\
  availableSeats v
    = (capacity (view_doc v) - inject_Z (bookedCount (view_doc v)))%Q /\
  (- (1) < availableSeats v)%Q /\ (availableSeats v <= capacity (view_doc v))%Q /\
  (integral (capacity (view_doc v)) -> (0 <= availableSeats v)%Q) /\
  (forall u newId,
     (forall b, In b (bookings st) -> slotId b = id -> candidateId b = user_id u ->
                status b <> BOOKED) ->
     ((availableSeats v <= 0)%Q ->
        createBooking isValid st u id newId = (SlotFull, st)) /\
     ((0 < availableSeats v)%Q ->
        fst (createBooking isValid st u id newId) = BookedSuccessfully \/
        fst (createBooking isValid st u id newId) = DuplicateBooking)).
Proof.
  intros Hreach Hget. pose proof (reachable_Inv isValid st Hreach) as I.
  unfold getSlotById in Hget.
  destruct (isValid id) eqn:Hv; cbn [negb] in Hget; [|discriminate].
  destruct (Slot_findById (slots st) id) as [slot|] eqn:Hfind; [|discriminate].
  injection Hget as <-. cbn [view_doc availableSeats]. rewrite js_or_zero_id.
  destruct (Slot_findById_split _ _ _ Hfind) as (l1 & l2 & Hl & Hid & Hl1).
  assert (Hin : In slot (slots st)) by (rewrite Hl; apply in_or_app; right; left; reflexivity).
  pose proof (Inv_within_next_seat isValid st I) as Hw.
  unfold within_next_seat in Hw. rewrite Forall_forall in Hw.
  destruct (Hw slot Hin) as [H0 Hlt].
  apply (proj1 (inject_Z_le _ _)) in H0. change (inject_Z 0) with 0%Q in H0.
  split; [exact Hin|]. split; [exact Hid|]. split; [reflexivity|].
  split; [lra|]. split; [lra|]. split.
  { intros Hint. pose proof (below_next_integral _ _ Hlt Hint). lra. }
  intros u newId Hpre.
  pose proof (createBooking_past_precheck isValid st u id newId Hv Hpre) as Hcall.
  split.
  - intros Hle. rewrite Hcall.
    rewrite (fou_all_false (has_room id) (inc_bookedCount 1) (slots st)).
    + rewrite (proj2 (Slot_exists_true (slots st) id)); [reflexivity|]. eauto.
    + apply (full_slot_no_match _ id slot); auto; [exact (inv_slot_ids _ _ I) | lra].
  - intros Hpos. rewrite Hcall.
    assert (Hp : has_room id slot = true).
    { unfold has_room. rewrite (proj2 (has_slot_id_true id slot) Hid).
      rewrite (proj2 (Qlt_bool_true _ _)) by lra. reflexivity. }
    assert (Hl1' : Forall (fun y => has_room id y = false) l1).
    { revert Hl1. apply Forall_impl. intros y Hy. unfold has_room. rewrite Hy. reflexivity. }
    rewrite Hl, (fou_first _ _ _ _ _ Hp Hl1').
    destruct (Booking_create _ _) as [e|bs] eqn:Hc.
    + pose proof (Booking_create_error _ _ _ Hc) as ->. right. reflexivity.
    + left. reflexivity.
Qed.

(** X12.  POST /slots answers 201 exactly when startTime < endTime, a
    capacity of at least 1 is given, no slot of the requester overlaps the
    interval and the new id is not taken.  The slot it answers with has
    bookedCount 0, is what a lookup of the new id then returns, and
    GET /slots/:id shows it with availableSeats equal to its capacity. *)
Theorem createSlot_succeeds_exactly_when
    (st : Store) (u : User) (body : CreateSlotBody) (newId : ObjectId) :
  ((exists slot, fst (createSlot st u body newId) = JsonSlot 201 slot) <->
   (cs_startTime body < cs_endTime body /\
    (exists c, cs_capacity body = Some c /\ (1 <= c)%Q) /\
    checkOverlap (slots st) (user_id u) (cs_startTime body) (cs_endTime body) None = false /\
    (forall s, In s (slots st) -> slot_id s <> newId))) /\
  (forall slot,
     fst (createSlot st u body newId) = JsonSlot 201 slot ->
     bookedCount slot = 0 /\ slot_id slot = newId /\ createdBy slot = user_id u /\
     Slot_findById (slots (snd (createSlot st u body newId))) newId = Some slot /\
     (isValid newId = true ->
      exists v,
        getSlotById isValid (snd (createSlot st u body newId)) newId = inr v /\
        view_doc v = slot /\ (availableSeats v == capacity slot)%Q)).
Proof.
  assert (Hok : forall slot,
            fst (createSlot st u body newId) = JsonSlot 201 slot ->
            exists c,
              cs_capacity body = Some c /\
              slot = mkSlot newId (cs_startTime body) (cs_endTime body) c 0 (user_id u)
                            (or_default (cs_tags body) []) /\
              Slot_validate slot = true /\
              Forall (fun y => has_slot_id newId y = false) (slots st) /\
              checkOverlap (slots st) (user_id u) (cs_startTime body) (cs_endTime body) None
                = false /\
              snd (createSlot st u body newId)
                = mkStore (users st) (slots st ++ [slot]) (bookings st)).
  { intros slot Hres. destruct (createSlot_cases st u body newId)
      as [[(c & m & Hj) _] | (c & slot0 & Hc & Hslot & Hval & Hfresh & Hov & E)].
    { rewrite Hj in Hres. discriminate. }
    rewrite E in Hres |- *. cbn [fst snd] in *. injection Hres as <-.
    exists c. auto 7. }
  split; [split|].
  - intros (slot & Hres). destruct (Hok slot Hres) as (c & Hc & Hslot & Hval & Hfresh & Hov & _).
    apply Slot_validate_iff in Hval. rewrite Hslot in Hval. cbn in Hval.
    split; [tauto|]. split; [exists c; tauto|]. split; [exact Hov|].
    rewrite Forall_forall in Hfresh. intros s Hs. apply has_slot_id_false. auto.
  - intros (Htime & (c & Hc & Hc1) & Hov & Hfresh).
    exists (mkSlot newId (cs_startTime body) (cs_endTime body) c 0 (user_id u)
                   (or_default (cs_tags body) [])).
    unfold createSlot. rewrite (proj2 (Z.leb_gt _ _) Htime), Hc. cbn [js_lt_undef].
    rewrite (proj2 (Qlt_bool_false c 1) Hc1). rewrite Hov.
    unfold Slot_insert, Slot_validate. cbn [capacity startTime endTime slot_id].
    rewrite (proj2 (Qle_bool_iff 1 c) Hc1), (proj2 (Z.leb_gt _ _) Htime). cbn [andb negb].
    rewrite existsb_all_false; [reflexivity|].
    apply Forall_forall. intros s Hs. apply has_slot_id_false. auto.
  - intros slot Hres. destruct (Hok slot Hres) as (c & Hc & Hslot & Hval & Hfresh & Hov & E).
    rewrite E. cbn [slots].
    assert (Hfind : Slot_findById (slots st ++ [slot]) newId = Some slot).
    { unfold Slot_findById. apply find_first; [|exact Hfresh].
      apply has_slot_id_true. rewrite Hslot. reflexivity. }
    split; [rewrite Hslot; reflexivity|]. split; [rewrite Hslot; reflexivity|].
    split; [rewrite Hslot; reflexivity|]. split; [exact Hfind|].
    intros Hv. unfold getSlotById. rewrite Hv. cbn [negb slots]. rewrite Hfind.
    rewrite js_or_zero_id. rewrite Hslot. cbn [bookedCount capacity].
    eexists. split; [reflexivity|]. cbn [view_doc availableSeats].
    split; [reflexivity|]. change (inject_Z 0) with 0%Q. ring.
Qed.

(** X13.  POST /bookings answers 201 exactly when the slot id is
    well-formed, the requester has no reservation on the slot (of either
    status), some stored slot with that id has bookedCount < capacity, and
    the new reservation id is not taken. *)
Theorem book_succeeds_exactly_when
    (st : Store) (u : User) (sid : string) (newId : ObjectId) :
  fst (createBooking isValid st u sid newId) = BookedSuccessfully <->
  isValid sid = true /\
  (forall b, In b (bookings st) -> slotId b = sid -> candidateId b <> user_id u) /\
  (exists s, In s (slots st) /\ slot_id s = sid /\
             (inject_Z (bookedCount s) < capacity s)%Q) /\
  (forall b, In b (bookings st) -> booking_id b <> newId).
Proof.
  split.
  - intros Hok. apply createBooking_success in Hok.
    destruct Hok as (l1 & s & l2 & Hv & Hs & Hp & _ & Hid & Hpair & _).
    rewrite Forall_forall in Hid, Hpair.
    unfold has_room in Hp. apply andb_true_iff in Hp. destruct Hp as [Hsid Hroom].
    apply has_slot_id_true in Hsid. apply Qlt_bool_true in Hroom.
    split; [exact Hv|]. split; [|split].
    + intros b Hb Es Ec. specialize (Hpair b Hb). apply same_pair_false in Hpair.
      apply Hpair. unfold pair_key. rewrite Es, Ec. reflexivity.
    + exists s. rewrite Hs. split; [apply in_or_app; right; left; reflexivity | auto].
    + intros b Hb. apply has_booking_id_false. auto.
  - intros (Hv & Hnone & (s & Hin & Hsid & Hroom) & Hfresh).
    rewrite createBooking_past_precheck; [|exact Hv|].
    2:{ intros b Hb Es Ec. exfalso. exact (Hnone b Hb Es Ec). }
    destruct (first_split (has_room sid) (slots st))
      as [Hall | (l1 & x & l2 & Hl & Hp & Hl1)].
    { exfalso. rewrite Forall_forall in Hall. specialize (Hall s Hin).
      unfold has_room in Hall. rewrite (proj2 (has_slot_id_true sid s) Hsid) in Hall.
      rewrite (proj2 (Qlt_bool_true _ _) Hroom) in Hall. discriminate. }
    rewrite Hl at 1. rewrite (fou_first _ _ _ _ _ Hp Hl1).
    unfold Booking_create. cbn [booking_id slotId candidateId].
    rewrite existsb_all_false.
    + rewrite existsb_all_false; [reflexivity|].
      apply Forall_forall. intros b Hb. apply same_pair_false. unfold pair_key.
      intros E. injection E as Es Ec. exact (Hnone b Hb Es Ec).
    + apply Forall_forall. intros b Hb. apply has_booking_id_false. auto.
Qed.

(** X15.  In a reachable store a PATCH without any field, by the owner of
    the slot the well-formed id names, answers 200 with the stored slot and
    leaves the store as it was. *)
Theorem empty_patch_changes_nothing (st : Store) (u : User) (id : string) (slot : Slot) :
  reachable isValid st ->
  isValid id = true ->
  Slot_findById (slots st) id = Some slot ->
  createdBy slot = user_id u ->
  updateSlot isValid st u id (mkUpdateSlotBody None None None None)
    = (JsonSlot 200 slot, st).
Proof.
  intros Hreach Hv Hfind Hown. pose proof (reachable_Inv isValid st Hreach) as I.
  destruct (Slot_findById_split _ _ _ Hfind) as (l1 & l2 & Hl & Hid & Hl1).
  assert (Hin : In slot (slots st)) by (rewrite Hl; apply in_or_app; right; left; reflexivity).
  pose proof (inv_valid _ _ I) as Iv. rewrite Forall_forall in Iv. specialize (Iv slot Hin).
  unfold updateSlot. rewrite Hv, Hfind. cbn [negb].
  rewrite (proj2 (String.eqb_eq _ _) Hown). cbn [negb].
  unfold updateSlot_times, updateSlot_capacity, updateSlot_tags, Slot_save.
  cbn [us_startTime us_endTime us_capacity us_tags is_some orb].
  rewrite Iv, Hid. cbn [negb].
  rewrite Hl at 1. rewrite (fou_first (has_slot_id id) _ l1 slot l2);
    [|apply has_slot_id_true; exact Hid | exact Hl1].
  cbn [snd]. rewrite <- Hl. destruct st. reflexivity.
Qed.

End Reading.

Lemma availableSeats_tells_if_a_seat_is_left_witness :
  (getSlotById hex24 store_1_1 slot1_id
     = inr (mkSlotView (mkSlot slot1_id (at_ 10 0) (at_ 11 0) 1 1 alice_id []) 0) /\
   createBooking hex24 store_1_1 carol slot1_id booking2_id = (SlotFull, store_1_1)) /\
  (getSlotById hex24 store_3half_2 slot1_id
     = inr (mkSlotView (mkSlot slot1_id (at_ 10 0) (at_ 11 0) (3 # 2) 2 alice_id [])
              (-1 # 2)) /\
   createBooking hex24 store_3half_2 dave slot1_id booking3_id
     = (SlotFull, store_3half_2)).
Proof.
  assert (Hget : getSlotById hex24 store_1_1 slot1_id
                 = inr (mkSlotView (mkSlot slot1_id (at_ 10 0) (at_ 11 0) 1 1 alice_id []) 0))
    by (vm_compute; reflexivity).
  assert (Hget' : getSlotById hex24 store_3half_2 slot1_id
                  = inr (mkSlotView
                           (mkSlot slot1_id (at_ 10 0) (at_ 11 0) (3 # 2) 2 alice_id [])
                           (-1 # 2)))
    by (vm_compute; reflexivity).
  split; (split; [assumption|]).
  - destruct (availableSeats_tells_if_a_seat_is_left hex24 store_1_1 slot1_id _
                store_1_1_reachable Hget) as (_ & _ & _ & _ & _ & _ & Hbook).
    destruct (Hbook carol booking2_id) as [Hfull _].
    + apply carol_has_no_booking, store_1_1_contents.
    + apply Hfull. vm_compute. discriminate.
  - destruct (availableSeats_tells_if_a_seat_is_left hex24 store_3half_2 slot1_id _
                store_3half_2_reachable Hget') as (_ & _ & _ & _ & _ & _ & Hbook).
    destruct (Hbook dave booking3_id) as [Hfull _].
    + intros b Hb. vm_compute in Hb.
      destruct Hb as [<- | [<- | []]]; intros _ H; cbn in H; discriminate.
    + apply Hfull. vm_compute. discriminate.
Defined.

Lemma createSlot_succeeds_exactly_when_witness :
  exists slot, fst (handle hex24 empty_store (open_slot 5)) = JsonSlot 201 slot.
Proof.
  change (handle hex24 empty_store (open_slot 5))
    with (createSlot empty_store alice
            (mkCreateSlotBody (at_ 10 0) (at_ 11 0) (Some 5%Q) None) slot1_id).
  apply (proj1 (createSlot_succeeds_exactly_when hex24 empty_store alice
                  (mkCreateSlotBody (at_ 10 0) (at_ 11 0) (Some 5%Q) None) slot1_id)).
  split; [vm_compute; reflexivity|].
  split; [exists 5%Q; split; [reflexivity | vm_compute; discriminate]|].
  split; [reflexivity|]. intros s [].
Defined.

Lemma book_succeeds_exactly_when_witness :
  hex24 slot1_id = true /\
  (forall b, In b (bookings store_2_1) -> slotId b = slot1_id ->
             candidateId b <> user_id carol) /\
  (exists s, In s (slots store_2_1) /\ slot_id s = slot1_id /\
             (inject_Z (bookedCount s) < capacity s)%Q) /\
  (forall b, In b (bookings store_2_1) -> booking_id b <> booking2_id).
Proof.
  apply (proj1 (book_succeeds_exactly_when hex24 store_2_1 carol slot1_id booking2_id)).
  vm_compute. reflexivity.
Defined.

Lemma empty_patch_changes_nothing_witness :
  updateSlot hex24 store_5_3 alice slot1_id (mkUpdateSlotBody None None None None)
    = (JsonSlot 200 (mkSlot slot1_id (at_ 10 0) (at_ 11 0) 5 3 alice_id []), store_5_3).
Proof.
  apply (empty_patch_changes_nothing hex24 store_5_3 alice slot1_id _ store_5_3_reachable);
    vm_compute; reflexivity.
Defined.

Lemma last_seat_in_turn_witness :
  fst (book_in_turn hex24 (run hex24 empty_store [open_slot 1]) slot1_id
         [(carol, booking2_id); (bob, booking1_id); (dave, booking3_id)])
    = [BookedSuccessfully; SlotFull; SlotFull].
Proof.
  apply (last_seat_in_turn hex24 (run hex24 empty_store [open_slot 1]) slot1_id
           (mkSlot slot1_id (at_ 10 0) (at_ 11 0) 1 0 alice_id [])
           carol booking2_id [(bob, booking1_id); (dave, booking3_id)]).
  - apply reachable_Inv, run_reachable, empty_store_reachable.
  - vm_compute. reflexivity.
  - vm_compute. reflexivity.
  - reflexivity.
  - reflexivity.
  - cbn. repeat constructor; cbn; intuition discriminate.
  - vm_compute. intros [].
  - intros u' n' b _ Hb. vm_compute in Hb. destruct Hb.
Defined.

(** ** The email pattern *)

Lemma append_empty (s1 s2 : string) :
  (s1 ++ s2)%string = EmptyString -> s1 = EmptyString /\ s2 = EmptyString.
Proof. destruct s1; cbn; [auto | discriminate]. Qed.

Lemma append_assoc (s1 s2 s3 : string) :
  ((s1 ++ s2) ++ s3)%string = (s1 ++ (s2 ++ s3))%string.
Proof. induction s1 as [|c s1 IH]; cbn; [reflexivity | rewrite IH; reflexivity]. Qed.

Lemma append_empty_r (s : string) : (s ++ EmptyString)%string = s.
Proof. induction s as [|c s IH]; cbn; [reflexivity | rewrite IH; reflexivity]. Qed.

Lemma list_ascii_of_string_append (s1 s2 : string) :
  list_ascii_of_string (s1 ++ s2)%string
    = list_ascii_of_string s1 ++ list_ascii_of_string s2.
Proof. induction s1 as [|c s1 IH]; cbn; [reflexivity | rewrite IH; reflexivity]. Qed.

Lemma nullable_language (r : Regex) :
  nullable r = true <-> language r EmptyString.
Proof.
  induction r as [| | c | | r1 IH1 r2 IH2 | r1 IH1 r2 IH2 | r IH]; cbn.
  - split; [discriminate | contradiction].
  - split; reflexivity.
  - split; discriminate.
  - split; [discriminate | intros (c & H & _); discriminate].
  - rewrite andb_true_iff, IH1, IH2. split.
    + intros [H1 H2]. exists EmptyString, EmptyString. auto.
    + intros (s1 & s2 & E & H1 & H2). symmetry in E. apply append_empty in E.
      destruct E as [-> ->]. auto.
  - rewrite orb_true_iff, IH1, IH2. reflexivity.
  - split; [intros _; constructor | reflexivity].
Qed.

Lemma star_cons_inv (P : string -> Prop) (t : string) :
  star P t ->
  forall c s, t = String c s ->
  exists s1 s2, s = (s1 ++ s2)%string /\ P (String c s1) /\ star P s2.
Proof.
  induction 1 as [|s1 s2 H1 H2 IH]; intros c s E; [discriminate|].
  destruct s1 as [|d s1]; cbn in E.
  - exact (IH c s E).
  - injection E as -> <-. exists s1, s2. auto.
Qed.

Lemma derive_language (r : Regex) :
  forall c s, language (derive c r) s <-> language r (String c s).
Proof.
  induction r as [| | d | | r1 IH1 r2 IH2 | r1 IH1 r2 IH2 | r IH]; intros c s; cbn [derive].
  - reflexivity.
  - cbn. split; [contradiction | discriminate].
  - destruct (Ascii.eqb c d) eqn:E; cbn.
    + apply Ascii.eqb_eq in E. subst d. split; [intros ->; reflexivity|].
      intros H. injection H as ->. reflexivity.
    + apply Ascii.eqb_neq in E. split; [contradiction|].
      intros H. injection H as H _. contradiction.
  - destruct (is_space c) eqn:E; cbn.
    + split; [contradiction|]. intros (d & H & Hd). injection H as <- _. congruence.
    + split.
      * intros ->. exists c. auto.
      * intros (d & H & _). injection H as _ ->. reflexivity.
  - assert (Hcat : (exists s1 s2, s = (s1 ++ s2)%string /\ language (derive c r1) s1
                                  /\ language r2 s2)
                   <-> (exists t1 s2, String c s = (String c t1 ++ s2)%string
                                      /\ language r1 (String c t1) /\ language r2 s2)).
    { split; intros (s1 & s2 & E & H1 & H2); exists s1, s2.
      - cbn. rewrite E. split; [reflexivity|]. split; [apply IH1; exact H1 | exact H2].
      - cbn in E. injection E as E. split; [exact E|].
        split; [apply IH1; exact H1 | exact H2]. }
    destruct (nullable r1) eqn:Hn; cbn [language].
    + rewrite Hcat, IH2. split.
      * intros [(t1 & s2 & E & H1 & H2) | H].
        -- exists (String c t1), s2. auto.
        -- exists EmptyString, (String c s). split; [reflexivity|].
           split; [apply nullable_language; exact Hn | exact H].
      * intros (t1 & t2 & E & H1 & H2). destruct t1 as [|d t1]; cbn in E.
        -- right. rewrite E. exact H2.
        -- left. injection E as <- E. exists t1, t2. cbn. rewrite E. auto.
    + rewrite Hcat. split.
      * intros (t1 & s2 & E & H1 & H2). exists (String c t1), s2. auto.
      * intros (t1 & t2 & E & H1 & H2). destruct t1 as [|d t1]; cbn in E.
        -- apply nullable_language in H1. congruence.
        -- injection E as <- E. exists t1, t2. cbn. rewrite E. auto.
  - cbn. rewrite IH1, IH2. reflexivity.
  - cbn. split.
    + intros (s1 & s2 & E & H1 & H2). apply IH in H1.
      rewrite E. apply (star_app _ (String c s1) s2 H1 H2).
    + intros H. destruct (star_cons_inv _ _ H c s eq_refl) as (s1 & s2 & E & H1 & H2).
      exists s1, s2. split; [exact E|]. split; [apply IH; exact H1 | exact H2].
Qed.

Lemma matches_language (s : string) :
  forall r, matches r s = true <-> language r s.
Proof.
  induction s as [|c s IH]; intros r; cbn [matches].
  - apply nullable_language.
  - rewrite IH. apply derive_language.
Qed.

Lemma star_non_space (s : string) :
  star (language ReNonSpace) s <->
  Forall (fun c => is_space c = false) (list_ascii_of_string s).
Proof.
  split.
  - induction 1 as [|s1 s2 (c & -> & Hc) _ IH]; cbn; constructor; assumption.
  - induction s as [|c s IH]; cbn; intros H; [constructor|].
    inversion H as [|? ? Hc Hs]; subst.
    apply (star_app _ (String c EmptyString) s); [exists c; auto | auto].
Qed.

Lemma plus_non_space (s : string) :
  language (RePlus ReNonSpace) s <-> non_blank s.
Proof.
  unfold RePlus, non_blank. cbn [language]. split.
  - intros (s1 & s2 & -> & (c & -> & Hc) & Hs). cbn. split; [discriminate|].
    constructor; [exact Hc | apply star_non_space; exact Hs].
  - intros [Hne H]. destruct s as [|c s]; [contradiction|].
    cbn in H. inversion H as [|? ? Hc Hs]; subst.
    exists (String c EmptyString), s. split; [reflexivity|].
    split; [exists c; auto | apply star_non_space; exact Hs].
Qed.

(** X16.  [emailRegex] accepts exactly the strings made of a non-blank
    part, an at sign, a non-blank part, a full stop and a non-blank part,
    where non-blank means not empty and free of white space (each part may
    itself hold at signs and full stops). *)
Theorem emailRegex_accepts_exactly (email : string) :
  emailRegex_test email = true <->
  exists a b c,
    email = (a ++ "@" ++ b ++ "." ++ c)%string /\
    non_blank a /\ non_blank b /\ non_blank c.
Proof.
  unfold emailRegex_test, emailRegex. rewrite matches_language.
  cbn [language]. split.
  - intros (a & t1 & -> & Ha & (x & t2 & -> & -> & (b & t3 & -> & Hb
             & (y & c & -> & -> & Hc)))).
    exists a, b, c. rewrite <- !plus_non_space. auto.
  - intros (a & b & c & -> & Ha & Hb & Hc). rewrite <- plus_non_space in Ha, Hb, Hc.
    exists a, ("@" ++ b ++ "." ++ c)%string. split; [reflexivity|]. split; [exact Ha|].
    exists "@"%string, (b ++ "." ++ c)%string. split; [reflexivity|]. split; [reflexivity|].
    exists b, ("." ++ c)%string. split; [reflexivity|]. split; [exact Hb|].
    exists "."%string, c. auto.
Qed.

(** ** Registering users *)

Lemma has_email_false (e : string) (u : User) : has_email e u = false <-> email u <> e.
Proof. unfold has_email. apply String.eqb_neq. Qed.

Lemma has_user_id_false (id : ObjectId) (u : User) :
  has_user_id id u = false <-> user_id u <> id.
Proof. unfold has_user_id. apply String.eqb_neq. Qed.

Lemma valid_role_name (r : string) (role : Role) :
  valid_role r = Some role <-> r = role_name role.
Proof.
  unfold valid_role.
  destruct (r =? "ADMIN")%string eqn:E1; [apply String.eqb_eq in E1|].
  { subst r. destruct role; cbn; split; congruence. }
  destruct (r =? "CANDIDATE")%string eqn:E2; [apply String.eqb_eq in E2|].
  { subst r. destruct role; cbn; split; congruence. }
  apply String.eqb_neq in E1, E2. destruct role; cbn; split; congruence.
Qed.

Ltac refused :=
  let E := fresh in
  intros E; injection E as <- <-; left; split; [eexists _, _; reflexivity | reflexivity].

(** A registration either is refused with a message and leaves the store
    as it was, or passes every check and appends the new user. *)
Lemma createUser_cases (st : Store) (body : CreateUserBody) (newId : ObjectId) :
  ((exists c m, fst (createUser st body newId) = UJson c m) /\
   snd (createUser st body newId) = st)
  \/
  (exists n e r role,
     cu_name body = Some n /\ n <> "" /\
     cu_email body = Some e /\ emailRegex_test e = true /\
     cu_role body = Some r /\ valid_role r = Some role /\
     Forall (fun u => has_email e u = false) (users st) /\
     Forall (fun u => has_user_id newId u = false) (users st) /\
     createUser st body newId
       = (UJsonUser 201 (mkUser newId n e role),
          mkStore (users st ++ [mkUser newId n e role]) (slots st) (bookings st))).
Proof.
  destruct (createUser st body newId) as [res st'] eqn:E.
  cbn [fst snd]. revert E. unfold createUser.
  destruct (cu_name body) as [n|]; [|refused].
  destruct (cu_email body) as [e|];
    [|destruct (negb (truthy (Some n))); refused].
  destruct (cu_role body) as [r|];
    [|destruct (negb (truthy (Some n)) || negb (truthy (Some e))); refused].
  destruct (negb (truthy (Some n))) eqn:Hn; cbn [orb]; [refused|].
  destruct (negb (truthy (Some e))) eqn:He; cbn [orb]; [refused|].
  destruct (negb (truthy (Some r))) eqn:Hr; [refused|].
  destruct (valid_role r) as [role|] eqn:Hrole; [|refused].
  destruct (emailRegex_test e) eqn:Hre; cbn [negb]; [|refused].
  unfold User_findOne_email.
  destruct (find (has_email e) (users st)) as [existing|] eqn:Hfind; [refused|].
  unfold User_insert, User_validate. cbn [name email user_id].
  apply negb_false_iff in Hn, He. rewrite Hn, He, Hre. cbn [andb negb].
  destruct (existsb (has_user_id newId) (users st)) eqn:Hid; [refused|].
  destruct (existsb (has_email e) (users st)) eqn:Hem; [refused|].
  intros E. injection E as <- <-. right.
  exists n, e, r, role. cbn [truthy] in Hn.
  apply negb_true_iff, String.eqb_neq in Hn.
  repeat split; auto using existsb_false_all.
Qed.

Section Registration.

Variable isValid : string -> bool.

(** X17.  POST /users answers 201 exactly when name, email and role are
    given, the name is not empty, the role is ADMIN or CANDIDATE, the email
    matches the pattern, and neither the email nor the new id belongs to a
    stored user.  The answer is then the user with these fields, appended to
    the users while slots and reservations stay as they are, and a request
    carrying the new id (well-formed, not empty) is authenticated as that
    user. *)
Theorem createUser_succeeds_exactly_when
    (st : Store) (body : CreateUserBody) (newId : ObjectId) :
  ((exists doc, fst (createUser st body newId) = UJsonUser 201 doc) <->
   (exists n e role,
      cu_name body = Some n /\ n <> "" /\
      cu_email body = Some e /\ emailRegex_test e = true /\
      cu_role body = Some (role_name role) /\
      (forall u, In u (users st) -> email u <> e) /\
      (forall u, In u (users st) -> user_id u <> newId))) /\
  (forall doc,
     fst (createUser st body newId) = UJsonUser 201 doc ->
     user_id doc = newId /\ cu_name body = Some (name doc) /\
     cu_email body = Some (email doc) /\ cu_role body = Some (role_name (role doc)) /\
     snd (createUser st body newId)
       = mkStore (users st ++ [doc]) (slots st) (bookings st) /\
     (isValid newId = true -> newId <> "" ->
      authenticate isValid (snd (createUser st body newId)) (Some newId) = inr doc)).
Proof.
  split; [split|].
  - intros (doc & Hres). destruct (createUser_cases st body newId)
      as [[(c & m & Hj) _] | (n & e & r & rl & Hn & Hne & He & Hre & Hr & Hrole
                              & Hem & Hid & E)].
    { rewrite Hj in Hres. discriminate. }
    exists n, e, rl. apply valid_role_name in Hrole. subst r.
    rewrite Forall_forall in Hem, Hid.
    repeat split; auto.
    + intros u Hu. apply has_email_false. auto.
    + intros u Hu. apply has_user_id_false. auto.
  - intros (n & e & rl & Hn & Hne & He & Hre & Hr & Hem & Hid).
    exists (mkUser newId n e rl).
    unfold createUser. rewrite Hn, He, Hr. cbn [truthy].
    rewrite (proj2 (String.eqb_neq n "") Hne). cbn [negb orb].
    assert (He' : (e =? "")%string = false).
    { apply String.eqb_neq. intros ->. vm_compute in Hre. discriminate. }
    rewrite He'. cbn [negb orb].
    assert (Hr' : (role_name rl =? "")%string = false) by (destruct rl; reflexivity).
    rewrite Hr'. cbn [negb].
    rewrite (proj2 (valid_role_name _ rl) eq_refl), Hre. cbn [negb].
    unfold User_findOne_email.
    assert (Fem : Forall (fun u => has_email e u = false) (users st)).
    { apply Forall_forall. intros u Hu. apply has_email_false. auto. }
    assert (Fid : Forall (fun u => has_user_id newId u = false) (users st)).
    { apply Forall_forall. intros u Hu. apply has_user_id_false. auto. }
    rewrite (find_all_false _ _ Fem).
    unfold User_insert, User_validate. cbn [name email user_id truthy].
    rewrite (proj2 (String.eqb_neq n "") Hne), He', Hre. cbn [negb andb].
    rewrite (existsb_all_false _ _ Fid), (existsb_all_false _ _ Fem). reflexivity.
  - intros doc Hres. destruct (createUser_cases st body newId)
      as [[(c & m & Hj) _] | (n & e & r & rl & Hn & Hne & He & Hre & Hr & Hrole
                              & Hem & Hid & E)].
    { rewrite Hj in Hres. discriminate. }
    rewrite E in Hres |- *. cbn [fst snd] in *. injection Hres as <-.
    cbn [user_id name email role]. apply valid_role_name in Hrole. subst r.
    repeat split; auto.
    intros Hv Hnz. unfold authenticate. cbn [truthy].
    rewrite (proj2 (String.eqb_neq newId "") Hnz), Hv. cbn [negb orb users].
    unfold User_findById.
    rewrite (find_first (fun u => (user_id u =? newId)%string) (users st)
               (mkUser newId n e rl) []); [reflexivity | apply String.eqb_refl | exact Hid].
Qed.

Lemma createUser_keeps_users_distinct (st : Store) (body : CreateUserBody) (newId : ObjectId) :
  NoDup (map email (users st)) -> NoDup (map user_id (users st)) ->
  Forall (fun u => emailRegex_test (email u) = true) (users st) ->
  let st' := snd (createUser st body newId) in
  NoDup (map email (users st')) /\ NoDup (map user_id (users st')) /\
  Forall (fun u => emailRegex_test (email u) = true) (users st') /\
  slots st' = slots st /\ bookings st' = bookings st.
Proof.
  intros He Hi Hre st'. subst st'.
  destruct (createUser_cases st body newId)
    as [[_ ->] | (n & e & r & role & _ & _ & _ & Hmatch & _ & _ & Hem & Hid & ->)];
    [auto 6|].
  cbn [snd users slots bookings]. rewrite !map_app. cbn [map email user_id].
  split; [|split; [|split; [|split; reflexivity]]].
  - apply NoDup_snoc; [exact He|].
    apply (all_false_not_in email (has_email e)); [apply has_email_false | exact Hem].
  - apply NoDup_snoc; [exact Hi|].
    apply (all_false_not_in user_id (has_user_id newId));
      [apply has_user_id_false | exact Hid].
  - apply Forall_app. split; [exact Hre|]. constructor; [exact Hmatch | constructor].
Qed.

(** X18.  After any sequence of registrations on a store without users, no
    two users share an email or an id, every stored email matches the
    pattern, and the slots and reservations are those of the start. *)
Theorem registered_users_are_distinct
    (sl : list Slot) (bk : list Booking) (reqs : list (CreateUserBody * ObjectId)) :
  let st' := register (mkStore [] sl bk) reqs in
  NoDup (map email (users st')) /\ NoDup (map user_id (users st')) /\
  Forall (fun u => emailRegex_test (email u) = true) (users st') /\
  slots st' = sl /\ bookings st' = bk.
Proof.
  assert (Hgen : forall reqs st,
            NoDup (map email (users st)) -> NoDup (map user_id (users st)) ->
            Forall (fun u => emailRegex_test (email u) = true) (users st) ->
            NoDup (map email (users (register st reqs))) /\
            NoDup (map user_id (users (register st reqs))) /\
            Forall (fun u => emailRegex_test (email u) = true) (users (register st reqs)) /\
            slots (register st reqs) = slots st /\
            bookings (register st reqs) = bookings st).
  { clear. induction reqs as [|[body newId] rest IH]; intros st He Hi Hre; [auto 6|].
    cbn [register].
    destruct (createUser_keeps_users_distinct st body newId He Hi Hre)
      as (He' & Hi' & Hre' & Hs & Hb).
    destruct (IH _ He' Hi' Hre') as (H1 & H2 & H3 & H4 & H5).
    rewrite H4, H5. auto 6. }
  cbv zeta. apply (Hgen reqs (mkStore [] sl bk)); constructor.
Qed.

End Registration.

Lemma createUser_succeeds_exactly_when_witness :
  exists doc,
    fst (createUser empty_store
           (mkCreateUserBody (Some "Erin") (Some "erin@example.com") (Some "CANDIDATE"))
           booking4_id) = UJsonUser 201 doc.
Proof.
  apply (proj1 (createUser_succeeds_exactly_when hex24 empty_store
                  (mkCreateUserBody (Some "Erin") (Some "erin@example.com")
                     (Some "CANDIDATE")) booking4_id)).
  exists "Erin"%string, "erin@example.com"%string, CANDIDATE.
  split; [reflexivity|]. split; [discriminate|]. split; [reflexivity|].
  split; [vm_compute; reflexivity|]. split; [reflexivity|].
  split; intros u Hu; vm_compute in Hu;
    repeat (destruct Hu as [<- | Hu]; [cbn; discriminate|]); destruct Hu.
Defined.

(** ** The overlap check on a slot's own interval and on two slots *)

Lemma overlapQuery_owner_iff (adminId : ObjectId) (s2 e2 : Z) (s : Slot) :
  s2 < e2 -> startTime s < endTime s -> createdBy s = adminId ->
  (overlapQuery adminId s2 e2 None s = true <-> startTime s < e2 /\ s2 < endTime s).
Proof.
  intros Hc Hs Ho. unfold overlapQuery. cbn [truthy].
  rewrite (proj2 (String.eqb_eq _ _) Ho), andb_true_r. cbn [andb].
  rewrite !orb_true_iff, !andb_true_iff, !Z.ltb_lt, !Z.leb_le. lia.
Qed.

(** X19.  For two slots of one owner with valid intervals the check gives
    the same answer whichever of the two is stored and whichever is the
    candidate. *)
Theorem overlap_check_is_symmetric (a b : Slot) (owner : ObjectId) :
  startTime a < endTime a -> startTime b < endTime b ->
  createdBy a = owner -> createdBy b = owner ->
  checkOverlap [a] owner (startTime b) (endTime b) None
    = checkOverlap [b] owner (startTime a) (endTime a) None.
Proof.
  intros Ha Hb Oa Ob. unfold checkOverlap. cbn [find].
  pose proof (overlapQuery_owner_iff owner (startTime b) (endTime b) a Hb Ha Oa) as H1.
  pose proof (overlapQuery_owner_iff owner (startTime a) (endTime a) b Ha Hb Ob) as H2.
  destruct (overlapQuery owner (startTime b) (endTime b) None a),
           (overlapQuery owner (startTime a) (endTime a) None b);
    try reflexivity; exfalso.
  - assert (H : false = true) by (apply H2; destruct H1 as [H1 _]; specialize (H1 eq_refl); lia).
    discriminate.
  - assert (H : false = true) by (apply H1; destruct H2 as [H2 _]; specialize (H2 eq_refl); lia).
    discriminate.
Qed.

Lemma overlap_check_is_symmetric_witness :
  checkOverlap [slot_10_11] alice_id (at_ 10 30) (at_ 11 30) None
    = checkOverlap [mkSlot slot2_id (at_ 10 30) (at_ 11 30) 1 0 alice_id []] alice_id
        (at_ 10 0) (at_ 11 0) None.
Proof.
  apply (overlap_check_is_symmetric slot_10_11
           (mkSlot slot2_id (at_ 10 30) (at_ 11 30) 1 0 alice_id []) alice_id);
    vm_compute; reflexivity.
Defined.

Section OwnInterval.

Variable isValid : string -> bool.

(** X20.  In a reachable store, a PATCH by the owner that submits the
    slot's own interval (under a well-formed, non-empty id) is accepted with
    200 and changes nothing: the check leaves the slot itself out, and no
    other slot of the owner overlaps it. *)
Theorem patch_with_own_interval_is_accepted
    (st : Store) (u : User) (id : string) (slot : Slot) :
  reachable isValid st ->
  isValid id = true -> id <> "" ->
  Slot_findById (slots st) id = Some slot ->
  createdBy slot = user_id u ->
  checkOverlap (slots st) (user_id u) (startTime slot) (endTime slot) (Some id) = false /\
  updateSlot isValid st u id
    (mkUpdateSlotBody (Some (startTime slot)) (Some (endTime slot)) None None)
    = (JsonSlot 200 slot, st).
Proof.
  intros Hreach Hv Hnz Hfind Hown. pose proof (reachable_Inv isValid st Hreach) as I.
  destruct (Slot_findById_split _ _ _ Hfind) as (l1 & l2 & Hl & Hid & Hl1).
  assert (Hin : In slot (slots st)) by (rewrite Hl; apply in_or_app; right; left; reflexivity).
  pose proof (inv_valid _ _ I) as Iv. rewrite Forall_forall in Iv.
  pose proof (Iv slot Hin) as Hval. apply Slot_validate_iff in Hval as Hval'.
  destruct Hval' as [_ Htime].
  assert (Hov : checkOverlap (slots st) (user_id u) (startTime slot) (endTime slot) (Some id)
                = false).
  { unfold checkOverlap. rewrite find_all_false; [reflexivity|].
    apply Forall_forall. intros y Hy. unfold overlapQuery. cbn [truthy].
    rewrite (proj2 (String.eqb_neq id "") Hnz). cbn [negb].
    destruct (slot_id y =? id)%string eqn:Ey; cbn [negb]; [apply andb_false_r|].
    apply String.eqb_neq in Ey. rewrite andb_true_r.
    destruct (createdBy y =? user_id u)%string eqn:Eo; [|reflexivity].
    apply String.eqb_eq in Eo. cbn [andb].
    assert (D : disjoint_slots y slot).
    { apply (reachable_disjoint isValid st Hreach); auto; congruence. }
    pose proof (Iv y Hy) as Hy'. apply Slot_validate_iff in Hy'. destruct Hy' as [_ Hyt].
    unfold disjoint_slots in D.
    rewrite !orb_false_iff, !andb_false_iff, !Z.ltb_ge, !Z.leb_gt. lia. }
  split; [exact Hov|].
  unfold updateSlot. rewrite Hv, Hfind. cbn [negb].
  rewrite (proj2 (String.eqb_eq _ _) Hown). cbn [negb].
  unfold updateSlot_times, updateSlot_capacity, updateSlot_tags, Slot_save.
  cbn [us_startTime us_endTime us_capacity us_tags is_some orb or_default].
  rewrite (proj2 (Z.leb_gt _ _) Htime), Hov.
  replace (mkSlot (slot_id slot) (startTime slot) (endTime slot) (capacity slot)
                  (bookedCount slot) (createdBy slot) (tags slot)) with slot
    by (destruct slot; reflexivity).
  rewrite Hval, Hid. cbn [negb].
  rewrite Hl at 1. rewrite (fou_first (has_slot_id id) _ l1 slot l2);
    [|apply has_slot_id_true; exact Hid | exact Hl1].
  cbn [snd]. rewrite <- Hl. destruct st. reflexivity.
Qed.

End OwnInterval.

Lemma patch_with_own_interval_is_accepted_witness :
  updateSlot hex24 store_two_slots alice slot1_id
    (mkUpdateSlotBody (Some (at_ 10 0)) (Some (at_ 11 0)) None None)
  = (JsonSlot 200 (mkSlot slot1_id (at_ 10 0) (at_ 11 0) 2 1 alice_id []), store_two_slots).
Proof.
  apply (patch_with_own_interval_is_accepted hex24 store_two_slots alice slot1_id
           (mkSlot slot1_id (at_ 10 0) (at_ 11 0) 2 1 alice_id [])
           store_two_slots_reachable).
  - vm_compute. reflexivity.
  - discriminate.
  - vm_compute. reflexivity.
  - reflexivity.
Defined.
